(** * llhttp: the WebAssembly build orchestrator [bin/build_wasm.ts]

    A shallow embedding of the build script and of the part of the Node.js
    runtime it talks to ([path], [fs], [child_process], [process]), followed
    by the properties of the script that the specification states.

    Layout:
    - [Str]       string helpers of the JavaScript runtime ([trim], [split]);
    - [Sh]        the fields [/bin/sh] makes of a simple command line;
    - [Path]      Node's POSIX [path.normalize], [path.join], [path.resolve];
    - [Js]        thrown values, as far as [isErrorWithCode] inspects them;
    - [Host]      the file system, the oracle for external commands and
                  host failures, the process, and the calls a run makes;
    - [Build]     the script itself, in a state-and-exception monad;
    - [Scenario]  concrete hosts and invocations;
    - facts about the model, then the claims of the specification and
      further properties of the script, numbered X1, X2, ... *)

From Stdlib Require Import ZArith Ascii String List Bool Lia.
From stdpp Require Import base gmap strings pretty.

Local Open Scope Z_scope.

(* ===================================================================== *)
(** ** Strings of the JavaScript runtime *)
(* ===================================================================== *)

Module Str.

(** The double quote and the line feed, built from their codes. *)
Definition dq : string := String (ascii_of_nat 34) "".
Definition nl : string := String (ascii_of_nat 10) "".

(** ECMAScript white space and line terminators, in the ASCII range. *)
Definition isWhite (c : ascii) : bool := Ascii.is_space c.

(** [String.prototype.trimStart] *)
Fixpoint trimStart (s : string) : string :=
  match s with
  | "" => ""
  | String c s' => if isWhite c then trimStart s' else s
  end.

(** [String.prototype.trimEnd] *)
Fixpoint trimEnd (s : string) : string :=
  match s with
  | "" => ""
  | String c s' =>
      match trimEnd s' with
      | "" => if isWhite c then "" else String c ""
      | t => String c t
      end
  end.

(** [String.prototype.trim], on a string of ASCII characters.  There the
    white space and line terminators of ECMAScript are the six characters
    of [isWhite]; beyond ASCII, JavaScript also strips the no-break space,
    the byte order mark and the Unicode space separators, which this
    function leaves in place. *)
Definition trim (s : string) : string := trimEnd (trimStart s).


(** [s.split(sep)] where a separator is any character satisfying [p]:
    the pieces between separators, empty pieces included. *)
Fixpoint splitBy (p : ascii → bool) (s : string) : list string :=
  match s with
  | "" => [""]
  | String c s' =>
      if p c then "" :: splitBy p s'
      else match splitBy p s' with
           | piece :: rest => String c piece :: rest
           | [] => [String c ""]
           end
  end.

(** No character of [s] satisfies [p]. *)
Fixpoint noneChar (p : ascii → bool) (s : string) : bool :=
  match s with
  | "" => true
  | String c s' => negb (p c) && noneChar p s'
  end.

Definition nonEmpty (s : string) : bool :=
  match s with "" => false | _ => true end.

(** An ASCII character: its code is below 128. *)
Definition isAsciiChar (c : ascii) : bool :=
  match c with Ascii _ _ _ _ _ _ _ high => negb high end.

(** A string of ASCII characters: as bytes and as decoded text it is the
    same. *)
Definition isAscii (s : string) : bool :=
  noneChar (λ c, negb (isAsciiChar c)) s.

(** The pieces of [s] between ASCII white space, empty pieces left out.
    They are the fields the shell makes of a command line that holds
    nothing but literal characters, patterns and blanks, see [Sh.fields];
    of any other command line they are only its blank-separated text. *)
Definition tokens (s : string) : list string :=
  filter (λ w, nonEmpty w = true) (splitBy isWhite s).

(** [flag] is one of the words of the command line [cmd]. *)
Definition hasFlag (flag cmd : string) : bool :=
  existsb (String.eqb flag) (tokens cmd).

(** [s] without its prefix [pre], when it has that prefix. *)
Fixpoint stripPrefix (pre s : string) : option string :=
  match pre, s with
  | "", _ => Some s
  | String c pre', String d s' =>
      if Ascii.eqb c d then stripPrefix pre' s' else None
  | String _ _, "" => None
  end.

(** The values the command line gives to the option [name]: what follows
    [name] in each word that starts with it. *)
Definition flagValues (name cmd : string) : list string :=
  omap (stripPrefix name) (tokens cmd).

(** The program a command line runs: its first word. *)
Definition program (cmd : string) : option string := head (tokens cmd).

Definition headWhite (s : string) : bool :=
  match s with String c _ => isWhite c | "" => false end.

Fixpoint lastWhite (s : string) : bool :=
  match s with
  | "" => false
  | String c "" => isWhite c
  | String _ s' => lastWhite s'
  end.

(** [Array.prototype.join] *)
Definition joinWith (sep : string) (l : list string) : string :=
  String.concat sep l.

Definition startsWith (c : ascii) (s : string) : bool :=
  match s with String c' _ => bool_decide (c' = c) | "" => false end.

Fixpoint endsWith (c : ascii) (s : string) : bool :=
  match s with
  | "" => false
  | String c' "" => bool_decide (c' = c)
  | String _ s' => endsWith c s'
  end.

(** JavaScript truthiness of a string: only the empty string is falsy. *)
Definition truthy (s : string) : bool := nonEmpty s.

End Str.

(* ===================================================================== *)
(** ** The command language of [/bin/sh], for simple commands *)
(* ===================================================================== *)

(** [execSync] hands its command to [/bin/sh -c].  The shell reads far
    more than words: operators, quotes, expansions, comments.  The model
    covers the command lines that hold none of that, and says nothing
    about the others. *)
Module Sh.
Import Str.

Definition oneOf (chars : string) (c : ascii) : bool :=
  existsb (Ascii.eqb c) (list_ascii_of_string chars).

Definition isLetter (c : ascii) : bool :=
  let n := nat_of_ascii c in
  ((65 <=? n) && (n <=? 90) || (97 <=? n) && (n <=? 122))%nat.

Definition isDigit (c : ascii) : bool :=
  let n := nat_of_ascii c in ((48 <=? n) && (n <=? 57))%nat.

(** Characters that stand for themselves wherever they are in a word:
    no blank, no operator, no quote, no expansion, no pattern. *)
Definition isLiteral (c : ascii) : bool :=
  isLetter c || isDigit c || oneOf "/._-+=,:@%" c.

(** Characters that make a word a pattern for pathname expansion. *)
Definition isGlob (c : ascii) : bool := oneOf "*?[" c.

(** The blanks that separate words: the space and the tab.  The other
    white space of [Str.isWhite] is not among them: a line feed ends the
    command, and the shell keeps a carriage return, a vertical tab or a
    form feed inside the word. *)
Definition isBlank (c : ascii) : bool :=
  Ascii.eqb c " " || Ascii.eqb c (ascii_of_nat 9).

(** A word of literal characters only. *)
Definition literal (w : string) : bool :=
  noneChar (λ c, negb (isLiteral c)) w.

(** A command line of literal characters, pattern characters and blanks. *)
Definition simple (cmd : string) : bool :=
  noneChar (λ c, negb (isLiteral c || isGlob c || isBlank c)) cmd.

(** The fields of a simple command line, before pathname expansion:
    its pieces between blanks.  [None] stands for a command line the
    model does not cover. *)
Definition fields (cmd : string) : option (list string) :=
  if simple cmd
  then Some (filter (λ w, nonEmpty w = true) (splitBy isBlank cmd))
  else None.

(** A field that pathname expansion replaces by the files matching it,
    when there are any; every other field reaches the program as it
    is. *)
Definition isPattern (w : string) : bool := negb (noneChar isGlob w).

Definition reserved : list string :=
  ["case"; "do"; "done"; "elif"; "else"; "esac"; "fi"; "for"; "if"; "in";
   "then"; "until"; "while"].

(** The program and the argument fields of a simple command line: the
    first field is the program when it is neither a variable assignment
    nor a reserved word nor a pattern. *)
Definition command (cmd : string) : option (string * list string) :=
  match fields cmd with
  | Some (prog :: args) =>
      if noneChar (λ c, Ascii.eqb c "=") prog
         && negb (existsb (String.eqb prog) reserved)
         && negb (isPattern prog)
      then Some (prog, args) else None
  | _ => None
  end.

End Sh.

(* ===================================================================== *)
(** ** Node's [path] module on POSIX hosts *)
(* ===================================================================== *)

Module Path.
Import Str.

Definition isSlash (c : ascii) : bool := bool_decide (c = "/"%char).

Definition segments (p : string) : list string := splitBy isSlash p.

Definition isDot (s : string) : bool := String.eqb s ".".
Definition isDotDot (s : string) : bool := String.eqb s "..".

(** [normalizeString] of Node's [lib/path.js], read segment by segment:
    empty and [.] segments vanish, [..] removes the segment before it
    and, when there is none to remove, stays only if [allowAboveRoot].
    [res] is the stack of segments kept so far, last one first. *)
Definition pushSegment (allowAboveRoot : bool) (res : list string)
    (seg : string) : list string :=
  if negb (nonEmpty seg) || isDot seg then res
  else if isDotDot seg then
    match res with
    | top :: res' =>
        if isDotDot top then (if allowAboveRoot then seg :: res else res)
        else res'
    | [] => if allowAboveRoot then [seg] else []
    end
  else seg :: res.

Fixpoint normalizeSegments (allowAboveRoot : bool) (res segs : list string)
  : list string :=
  match segs with
  | [] => rev res
  | seg :: rest =>
      normalizeSegments allowAboveRoot (pushSegment allowAboveRoot res seg) rest
  end.

(** [path.posix.isAbsolute] *)
Definition isAbsolute (p : string) : bool := startsWith "/" p.

(** The segments a path stands for once [.], [..] and empty segments
    are resolved. *)
Definition components (p : string) : list string :=
  normalizeSegments (negb (isAbsolute p)) [] (segments p).

Definition normalizeString (p : string) (allowAboveRoot : bool) : string :=
  joinWith "/" (normalizeSegments allowAboveRoot [] (segments p)).

(** [path.posix.normalize] *)
Definition normalize (p : string) : string :=
  if negb (nonEmpty p) then "."
  else
    let absolute := startsWith "/" p in
    let trailingSeparator := endsWith "/" p in
    let q := normalizeString p (negb absolute) in
    if negb (nonEmpty q) then
      if absolute then "/" else if trailingSeparator then "./" else "."
    else
      let q' := if trailingSeparator then q +:+ "/" else q in
      if absolute then "/" +:+ q' else q'.

(** [path.posix.join] *)
Definition join (parts : list string) : string :=
  let joined := joinWith "/" (filter (λ a, nonEmpty a = true) parts) in
  if negb (nonEmpty joined) then "." else normalize joined.

(** The loop of [path.posix.resolve]: arguments are taken from the right
    until one of them is absolute; [rparts] is the argument list reversed
    and followed by the working directory. *)
Fixpoint resolveLoop (rparts : list string) (resolvedPath : string)
  : string * bool :=
  match rparts with
  | [] => (resolvedPath, false)
  | p :: rest =>
      if negb (nonEmpty p) then resolveLoop rest resolvedPath
      else
        let resolvedPath' := p +:+ "/" +:+ resolvedPath in
        if startsWith "/" p then (resolvedPath', true)
        else resolveLoop rest resolvedPath'
  end.

(** [path.posix.resolve], with [cwd] the result of [process.cwd()] *)
Definition resolve (cwd : string) (parts : list string) : string :=
  let '(resolvedPath, resolvedAbsolute) :=
    resolveLoop (rev parts ++ [cwd]) "" in
  let q := normalizeString resolvedPath (negb resolvedAbsolute) in
  if resolvedAbsolute then "/" +:+ q
  else if nonEmpty q then q else ".".

(** The last segment of a path that does not end in a separator. *)
Definition basename (p : string) : string := List.last (segments p) "".

(** A file or directory name proper: not empty, not [.], not [..], and
    without a separator. *)
Definition plainName (s : string) : bool :=
  nonEmpty s && negb (isDot s) && negb (isDotDot s) && noneChar isSlash s.

(** [file] lies directly in the directory [dir], under the name [name]. *)
Definition childOf (file dir name : string) : Prop :=
  components file = components dir ++ [name]
  ∧ isAbsolute file = isAbsolute dir.

(** A segment that [pushSegment] keeps as it is. *)
Definition goodSeg (s : string) : bool :=
  nonEmpty s && negb (isDot s) && negb (isDotDot s).

(** The stacks [pushSegment] builds: kept segments above a run of [..],
    which is there only if [allowAboveRoot]. *)
Fixpoint okStack (allowAboveRoot : bool) (res : list string) : bool :=
  match res with
  | [] => true
  | top :: r =>
      if isDotDot top then allowAboveRoot && forallb isDotDot r
      else goodSeg top && okStack allowAboveRoot r
  end.

Definition slashFree (s : string) : Prop := noneChar isSlash s = true.

(** The stack behind [components p]. *)
Definition stackOf (p : string) : list string :=
  fold_left (pushSegment (negb (isAbsolute p))) (segments p) [].

(** The text [normalize] produces, from the components. *)
Definition render (absolute : bool) (comps : list string) (trailing : bool)
  : string :=
  match comps with
  | [] => if absolute then "/" else if trailing then "./" else "."
  | _ => (if absolute then "/" else "")
         +:+ joinWith "/" comps +:+ (if trailing then "/" else "")
  end.

(** The argument [join] passes to [normalize]. *)
Definition joined (parts : list string) : string :=
  joinWith "/" (filter (λ a, nonEmpty a = true) parts).

(** The directories above [path], outermost first: what stands before
    each separator of [path], as Node's recursive [mkdir] finds the parent
    of a path it cannot make yet.  These are the directories it makes on
    its way down to [path] when they are missing. *)
Definition ancestors (path : string) : list string :=
  filter (λ dir, nonEmpty dir = true)
    (map (λ n, joinWith "/" (take n (segments path)))
         (seq 1 (length (segments path) - 1))).

End Path.

(* ===================================================================== *)
(** ** JavaScript values that can be thrown *)
(* ===================================================================== *)

Module Js.

Inductive Prim : Type :=
| PUndefined
| PNull
| PBool (b : bool)
| PNum (n : Z)
| PStr (s : string).

(** A value is a primitive or an object; of an object only its
    properties matter here, and they hold primitives. *)
Inductive Value : Type :=
| VPrim (p : Prim)
| VObject (props : gmap string Prim).

(** [typeof v] *)
Definition typeof (v : Value) : string :=
  match v with
  | VObject _ | VPrim PNull => "object"
  | VPrim PUndefined => "undefined"
  | VPrim (PBool _) => "boolean"
  | VPrim (PNum _) => "number"
  | VPrim (PStr _) => "string"
  end.

(** [v !== null] *)
Definition notNull (v : Value) : bool :=
  match v with VPrim PNull => false | _ => true end.

(** [k in v], for an object [v] *)
Definition hasProperty (k : string) (v : Value) : bool :=
  match v with
  | VObject props => bool_decide (is_Some (props !! k))
  | VPrim _ => false
  end.

(** [v.k], for an object [v]; [undefined] when the property is absent *)
Definition getProperty (k : string) (v : Value) : Prim :=
  match v with
  | VObject props => default PUndefined (props !! k)
  | VPrim _ => PUndefined
  end.

(** [p !== s] for a string literal [s] *)
Definition strictNeqString (p : Prim) (s : string) : bool :=
  match p with PStr t => negb (String.eqb t s) | _ => true end.

(** [Number.prototype.toString] on an integer below 10^21. *)
Definition numberToString (n : Z) : string := pretty n.

(** The error Node's [fs] raises for a failed system call. *)
Definition systemError (code syscall path : string) : Value :=
  VObject (<["code" := PStr code]>
          (<["syscall" := PStr syscall]>
          (<["path" := PStr path]> ∅))).

(** The error [execSync] raises when the child exits with [status <> 0]. *)
Definition childError (cmd : string) (status : Z) : Value :=
  VObject (<["status" := PNum status]>
          (<["message" := PStr ("Command failed: " +:+ cmd)]> ∅)).

(** [JSON.stringify(obj, null, space)] for a flat object whose values are
    strings free of characters that need escaping. *)
Definition jsonQuote (s : string) : string := Str.dq +:+ s +:+ Str.dq.

Fixpoint spaces (n : nat) : string :=
  match n with O => "" | S n' => String " " (spaces n') end.

Definition JSON_stringify (obj : list (string * string)) (space : nat) : string :=
  match obj with
  | [] => "{}"
  | _ =>
      "{" +:+ Str.nl
      +:+ Str.joinWith ("," +:+ Str.nl)
            (map (λ kv, spaces space +:+ jsonQuote kv.1 +:+ ": " +:+ jsonQuote kv.2) obj)
      +:+ Str.nl +:+ "}"
  end.

End Js.

(* ===================================================================== *)
(** ** The host: file system, external commands, process *)
(* ===================================================================== *)

Module Host.

(** What the script can observe of the file system. *)
Record FileSystem : Type := mkFs {
  files : gmap string string;   (* regular files and their contents *)
  dirs : gset string            (* directories *)
}.

Record World (Ext : Type) : Type := mkWorld {
  fs : FileSystem;
  ext : Ext                     (* everything else: the container runtime, ... *)
}.
Arguments fs {Ext} _.
Arguments ext {Ext} _.
Arguments mkWorld {Ext} _ _.

Inductive Stdio : Type := Pipe | Inherit.

(** The options object of [execSync]. *)
Record ExecOptions : Type := mkOpts {
  optCwd : option string;
  optStdio : Stdio;
  optEnv : option (gmap string string)
}.

Definition noOptions : ExecOptions := mkOpts None Pipe None.

Record ChildExit : Type := mkExit { status : Z; stdout : string }.

Inductive FsCall : Type :=
| CallMkdir (path : string) (recursive : bool)
| CallCopy (src dst : string)
| CallWrite (path data : string).

(** The part of the host the model does not compute: how a command run
    through the shell ends (an error when it cannot be spawned, otherwise
    its exit status and output) and what it does to the world, and
    whether a file-system call fails for a reason of the host's own
    (permissions, a full disk, a missing parent directory, an ancestor
    that is not a directory, a concurrent writer, ...).  For a recursive
    [mkdir] the answer is about the whole call, the ancestors
    included. *)
Record Oracle (Ext : Type) : Type := mkOracle {
  shell : string → ExecOptions → World Ext → (Js.Value + ChildExit) * World Ext;
  fsFault : FsCall → World Ext → option Js.Value
}.
Arguments mkOracle {Ext} _ _.
Arguments shell {Ext} _ _ _ _.
Arguments fsFault {Ext} _ _ _.

(** [process] and the module-level [__dirname]. *)
Record Process : Type := mkProcess {
  process_env : gmap string string;
  process_argv : list string;
  process_platform : string;
  process_getuid : Z;
  process_getegid : Z;
  process_cwd : string;
  dirname : string
}.

(** Every call the script makes to the outside, in order. *)
Inductive Event : Type :=
| EvExec (cmd : string) (opts : ExecOptions)
| EvExists (path : string)
| EvMkdir (path : string) (recursive : bool)
| EvCopy (src dst : string)
| EvWrite (path data : string)
| EvLog (msg : string).

(** Values of [process.platform] on which Node provides [process.getuid]
    and [process.getegid], that is, the POSIX hosts. *)
Definition posixPlatforms : list string :=
  ["aix"; "darwin"; "freebsd"; "linux"; "openbsd"; "sunos"].

Definition isPosix (platform : string) : bool :=
  existsb (String.eqb platform) posixPlatforms.

End Host.

(* ===================================================================== *)
(** ** The script [bin/build_wasm.ts] *)
(* ===================================================================== *)

Module Build.
Import Str Host.

Definition OPTIMIZATION_LEVEL : Z := 3.
Definition WASM_MEMORY_SIZE : Z := 16 * 1024 * 1024.
Definition STACK_SIZE : Z := 2 * 1024 * 1024.
Definition GLOBAL_BASE : Z := 4 * 1024 * 1024.

Record BuildConfig : Type := mkConfig {
  platform : string;
  wasmOut : string;
  wasmSrc : string;
  emflags : string
}.

(** The array literal that [config.emflags] joins with spaces. *)
Definition emflagsList : list string :=
  [ "-O3";
    "-fno-rtti";
    "-fno-exceptions";
    "-flto";
    "-ffast-math";
    "-fomit-frame-pointer";
    "-finline-functions";
    "-finline-hint-functions";
    "-fno-stack-protector";
    "-fforce-emit-vtables";
    "--param=max-inline-insns-single=1000";
    "--param=max-inline-insns-auto=1000";
    "--param=early-inlining-insns=1000";
    "--param=max-early-inliner-iterations=10";
    "-Wl,--no-entry";
    "-Wl,-O3";
    "-Wl,--lto-O3";
    "-Wl,-z,stack-size=" +:+ Js.numberToString STACK_SIZE;
    "-Wl,--initial-memory=" +:+ Js.numberToString WASM_MEMORY_SIZE;
    "-Wl,--max-memory=" +:+ Js.numberToString WASM_MEMORY_SIZE ].

(** The object literal bound to [config] when the module is loaded. *)
Definition initialConfig (proc : Process) : BuildConfig :=
  {| platform := default "" (process_env proc !! "WASM_PLATFORM");
     wasmOut := Path.resolve (process_cwd proc) [dirname proc; "../build/wasm"];
     wasmSrc := Path.resolve (process_cwd proc) [dirname proc; "../"];
     emflags := joinWith " " emflagsList |}.

(** [isErrorWithCode] *)
Definition isErrorWithCode (error : Js.Value) : bool :=
  String.eqb (Js.typeof error) "object"
  && Js.notNull error
  && Js.hasProperty "code" error.

(** The command of the platform query. *)
Definition dockerInfoCmd : string :=
  "docker info -f " +:+ dq +:+ "{{.OSType}}/{{.Architecture}}" +:+ dq.

(** One line of the command template that ends in a line continuation:
    its indentation, its text, and the blank before the backslash. *)
Definition continued (text : string) : string := "      " +:+ text +:+ " ".

(** The template literal of [buildWasm], before [trim]. *)
Definition clangTemplate (config : BuildConfig) : string :=
  nl +:+ "    clang "
  +:+ continued "--sysroot=/usr/share/wasi-sysroot"
  +:+ continued "-target wasm32-unknown-wasi"
  +:+ continued "-Ofast"
  +:+ continued "-fno-exceptions"
  +:+ continued "-fvisibility=hidden"
  +:+ continued "-mexec-model=reactor"
  +:+ continued "-msimd128"
  +:+ continued "-mbulk-memory"
  +:+ continued "-mmultivalue"
  +:+ continued "-mnontrapping-fptoint"
  +:+ continued "-msign-ext"
  +:+ continued "-mreference-types"
  +:+ continued "-mtail-call"
  +:+ continued (emflags config)
  +:+ continued "-Wl,-error-limit=0"
  +:+ continued ("-Wl,-O" +:+ Js.numberToString OPTIMIZATION_LEVEL)
  +:+ continued ("-Wl,--lto-O" +:+ Js.numberToString OPTIMIZATION_LEVEL)
  +:+ continued "-Wl,--allow-undefined"
  +:+ continued "-Wl,--export-dynamic"
  +:+ continued "-Wl,--export-table"
  +:+ continued "-Wl,--export=malloc"
  +:+ continued "-Wl,--export=free"
  +:+ continued "-Wl,--no-entry"
  +:+ continued "-Wl,--import-memory"
  +:+ continued ("-Wl,--max-memory=" +:+ Js.numberToString WASM_MEMORY_SIZE)
  +:+ continued ("-Wl,--global-base=" +:+ Js.numberToString GLOBAL_BASE)
  +:+ continued "-Wl,--stack-first"
  +:+ continued (Path.join [wasmSrc config; "build"; "c"] +:+ "/*.c")
  +:+ continued (Path.join [wasmSrc config; "src"; "native"] +:+ "/*.c")
  +:+ continued ("-I" +:+ Path.join [wasmSrc config; "build"])
  +:+ "      -o " +:+ Path.join [wasmOut config; "llhttp.wasm"]
  +:+ nl +:+ "  ".

Definition clangCmd (config : BuildConfig) : string :=
  trim (clangTemplate config).

(** The command line [runDockerBuild] builds from the identifiers. *)
Definition dockerRunCmd (platform : string) (uid gid : Z) (wasmSrc : string)
  : string :=
  joinWith " "
    [ "docker run --rm";
      "--platform=" +:+ platform;
      "--user " +:+ Js.numberToString uid +:+ ":" +:+ Js.numberToString gid;
      "--mount";
      "type=bind,source=" +:+ wasmSrc +:+ "/build,target=/home/node/llhttp/build";
      "llhttp_wasm_builder npm run wasm" ].

Definition dockerBuildCmd (platform : string) : string :=
  "docker build --platform=" +:+ platform +:+ " -t llhttp_wasm_builder .".

(** The text [copyAssets] writes to [package.json]. *)
Definition packageJson : string := Js.JSON_stringify [("type", "commonjs")] 2.

(** The command of [buildWasm] in its parts: what stands before the
    interpolated flags, the explicit linker flags after them, and the
    inputs up to the output option. *)
Definition clangFixed : string :=
  "clang "
  +:+ continued "--sysroot=/usr/share/wasi-sysroot"
  +:+ continued "-target wasm32-unknown-wasi"
  +:+ continued "-Ofast"
  +:+ continued "-fno-exceptions"
  +:+ continued "-fvisibility=hidden"
  +:+ continued "-mexec-model=reactor"
  +:+ continued "-msimd128"
  +:+ continued "-mbulk-memory"
  +:+ continued "-mmultivalue"
  +:+ continued "-mnontrapping-fptoint"
  +:+ continued "-msign-ext"
  +:+ continued "-mreference-types"
  +:+ continued "-mtail-call".

Definition clangExplicit : string :=
  continued "-Wl,-error-limit=0"
  +:+ continued ("-Wl,-O" +:+ Js.numberToString OPTIMIZATION_LEVEL)
  +:+ continued ("-Wl,--lto-O" +:+ Js.numberToString OPTIMIZATION_LEVEL)
  +:+ continued "-Wl,--allow-undefined"
  +:+ continued "-Wl,--export-dynamic"
  +:+ continued "-Wl,--export-table"
  +:+ continued "-Wl,--export=malloc"
  +:+ continued "-Wl,--export=free"
  +:+ continued "-Wl,--no-entry"
  +:+ continued "-Wl,--import-memory"
  +:+ continued ("-Wl,--max-memory=" +:+ Js.numberToString WASM_MEMORY_SIZE)
  +:+ continued ("-Wl,--global-base=" +:+ Js.numberToString GLOBAL_BASE)
  +:+ continued "-Wl,--stack-first".

Definition clangInputs (config : BuildConfig) : string :=
  continued (Path.join [wasmSrc config; "build"; "c"] +:+ "/*.c")
  +:+ continued (Path.join [wasmSrc config; "src"; "native"] +:+ "/*.c")
  +:+ continued ("-I" +:+ Path.join [wasmSrc config; "build"])
  +:+ "     ".

(** The state a run threads: the module-level [config] object, the
    world, the calls made so far, and the assignments made to fields of
    [config] after its construction (field name, new value). *)
Record State (Ext : Type) : Type := mkState {
  config : BuildConfig;
  world : World Ext;
  trace : list Event;
  assigned : list (string * string)
}.
Arguments mkState {Ext} _ _ _ _.
Arguments config {Ext} _.
Arguments world {Ext} _.
Arguments trace {Ext} _.
Arguments assigned {Ext} _.

(** How a computation ends: normally, by an exception that is still
    propagating, or by [process.exit]. *)
Inductive Outcome (A : Type) : Type :=
| Returned (a : A)
| Threw (error : Js.Value)
| Exited (code : Z).
Arguments Returned {A} _.
Arguments Threw {A} _.
Arguments Exited {A} _.

Definition M (Ext A : Type) : Type := State Ext → Outcome A * State Ext.

Section Monad.
Context {Ext : Type}.

Definition ret {A} (a : A) : M Ext A := λ s, (Returned a, s).

Definition bind {A B} (m : M Ext A) (k : A → M Ext B) : M Ext B :=
  λ s, match m s with
       | (Returned a, s') => k a s'
       | (Threw e, s') => (Threw e, s')
       | (Exited c, s') => (Exited c, s')
       end.

(** [throw error] *)
Definition throw {A} (error : Js.Value) : M Ext A := λ s, (Threw error, s).

(** [process.exit(code)] *)
Definition processExit {A} (code : Z) : M Ext A := λ s, (Exited code, s).

(** [try { body } catch (error) { handler }]: only an exception reaches
    the handler, [process.exit] does not. *)
Definition tryCatch {A} (body : M Ext A) (handler : Js.Value → M Ext A)
  : M Ext A :=
  λ s, match body s with
       | (Threw e, s') => handler e s'
       | r => r
       end.

Definition getConfig : M Ext BuildConfig := λ s, (Returned (config s), s).

Definition getWorld : M Ext (World Ext) := λ s, (Returned (world s), s).

Definition setWorld (w : World Ext) : M Ext unit :=
  λ s, (Returned tt, mkState (config s) w (trace s) (assigned s)).

Definition emit (ev : Event) : M Ext unit :=
  λ s, (Returned tt,
        mkState (config s) (world s) (trace s ++ [ev]) (assigned s)).

(** [config.platform = value] *)
Definition assignPlatform (value : string) : M Ext unit :=
  λ s, (Returned tt,
        mkState (mkConfig value (wasmOut (config s)) (wasmSrc (config s))
                   (emflags (config s)))
                (world s) (trace s)
                (assigned s ++ [("platform", value)])).
End Monad.

Declare Scope script_scope.
Delimit Scope script_scope with script.
Notation "x <- m ;; k" := (bind m (λ x, k))
  (at level 100, m at next level, k at level 200, right associativity) : script_scope.
Notation "m ;;; k" := (bind m (λ _, k))
  (at level 100, k at level 200, right associativity) : script_scope.
Local Open Scope script_scope.

(** The state in which the module body starts in the world [w]: [config]
    as constructed, nothing called, nothing assigned. *)
Definition initialState {Ext} (proc : Process) (w : World Ext) : State Ext :=
  mkState (initialConfig proc) w [] [].

Section Script.
Context {Ext : Type} (host : Oracle Ext) (proc : Process).

(* ------------------------------------------------------------- *)
(** *** Node's [child_process], [fs] and [console] *)

(** [execSync(cmd, opts)]: runs [cmd] through the shell and returns
    its output; raises when the child cannot be spawned or ends with
    a status other than 0. *)
Definition execSync (cmd : string) (opts : ExecOptions) : M Ext string :=
  emit (EvExec cmd opts) ;;;
  w <- getWorld ;;
  let r := shell host cmd opts w in
  setWorld r.2 ;;;
  match r.1 with
  | inl error => throw error
  | inr child =>
      if status child =? 0 then ret (stdout child)
      else throw (Js.childError cmd (status child))
  end.

Definition pathExists (f : FileSystem) (path : string) : bool :=
  bool_decide (is_Some (files f !! path)) || bool_decide (path ∈ dirs f).

(** [existsSync(path)]; it never raises. *)
Definition existsSync (path : string) : M Ext bool :=
  emit (EvExists path) ;;;
  w <- getWorld ;;
  ret (pathExists (fs w) path).

(** The world [w] with the directories [made] added. *)
Definition withDirs (w : World Ext) (made : list string) : World Ext :=
  mkWorld (mkFs (files (fs w)) (list_to_set made ∪ dirs (fs w))) (ext w).

(** What a recursive [mkdirSync] that fails leaves behind.  It makes the
    missing directories from the outermost inwards and stops at the
    first it cannot make; so of [above], the ancestors of its path, it
    has made those whose own recursive creation the host does not fail,
    up to the first whose creation it fails. *)
Fixpoint leftBehind (w : World Ext) (above : list string) : list string :=
  match above with
  | [] => []
  | d :: rest =>
      match fsFault host (CallMkdir d true) w with
      | None => d :: leftBehind w rest
      | Some _ => []
      end
  end.

(** [mkdirSync(path, { recursive })].  With [recursive] it makes [path]
    and every ancestor of [path] that is missing, and it is content with
    a directory that is already there; when it fails it may have made
    some of the ancestors. *)
Definition mkdirSync (path : string) (recursive : bool) : M Ext unit :=
  emit (EvMkdir path recursive) ;;;
  w <- getWorld ;;
  match fsFault host (CallMkdir path recursive) w with
  | Some error =>
      (if recursive
       then setWorld (withDirs w (leftBehind w (Path.ancestors path)))
       else ret tt) ;;;
      throw error
  | None =>
      if bool_decide (is_Some (files (fs w) !! path)) then
        throw (Js.systemError "EEXIST" "mkdir" path)
      else if bool_decide (path ∈ dirs (fs w)) then
        if recursive then ret tt
        else throw (Js.systemError "EEXIST" "mkdir" path)
      else
        setWorld (withDirs w (if recursive then Path.ancestors path ++ [path]
                              else [path]))
  end.

(** [copyFileSync(src, dest)] *)
Definition copyFileSync (src dest : string) : M Ext unit :=
  emit (EvCopy src dest) ;;;
  w <- getWorld ;;
  match fsFault host (CallCopy src dest) w with
  | Some error => throw error
  | None =>
      match files (fs w) !! src with
      | None => throw (Js.systemError "ENOENT" "copyfile" src)
      | Some data =>
          setWorld (mkWorld (mkFs (<[dest := data]> (files (fs w)))
                                  (dirs (fs w)))
                            (ext w))
      end
  end.

(** [writeFileSync(path, data)] *)
Definition writeFileSync (path data : string) : M Ext unit :=
  emit (EvWrite path data) ;;;
  w <- getWorld ;;
  match fsFault host (CallWrite path data) w with
  | Some error => throw error
  | None =>
      setWorld (mkWorld (mkFs (<[path := data]> (files (fs w)))
                              (dirs (fs w)))
                        (ext w))
  end.

(** [console.log(msg)] *)
Definition consoleLog (msg : string) : M Ext unit := emit (EvLog msg).

(* ------------------------------------------------------------- *)
(** *** The functions of the script *)

(** Lines 45-47: the platform is resolved when none was supplied and
    a mode argument was given.  The script decodes the answer of the
    runtime as UTF-8 and trims it; [out] holds the answer as it was
    written, which is the decoded text when the answer is ASCII, and on
    such answers [trim] is [String.prototype.trim]. *)
Definition resolvePlatform : M Ext unit :=
  config <- getConfig ;;
  if negb (truthy (platform config))
     && from_option truthy false (process_argv proc !! 2%nat)
  then
    out <- execSync dockerInfoCmd noOptions ;;
    assignPlatform (trim out)
  else ret tt.

Definition ensureDirectoryExists (path : string) : M Ext unit :=
  found <- existsSync path ;;
  if negb found then mkdirSync path true else ret tt.

Definition runDockerBuild (platform wasmSrc : string) : M Ext unit :=
  let uid :=
    if String.eqb (process_platform proc) "linux"
    then process_getuid proc else 1000 in
  let gid :=
    if String.eqb (process_platform proc) "linux"
    then process_getegid proc else 1000 in
  let dockerCmd := dockerRunCmd platform uid gid wasmSrc in
  execSync dockerCmd
    (mkOpts (Some wasmSrc) Inherit
            (Some (<["DOCKER_BUILDKIT" := "1"]> (process_env proc)))) ;;;
  ret tt.

Definition buildWasm (config : BuildConfig) : M Ext unit :=
  execSync (clangCmd config) (mkOpts None Inherit None) ;;;
  ret tt.

Definition copyAssets (config : BuildConfig) : M Ext unit :=
  copyFileSync (Path.join [wasmSrc config; "lib"; "llhttp"; "constants.js"])
               (Path.join [wasmOut config; "constants.js"]) ;;;
  copyFileSync (Path.join [wasmSrc config; "lib"; "llhttp"; "constants.js.map"])
               (Path.join [wasmOut config; "constants.js.map"]) ;;;
  copyFileSync (Path.join [wasmSrc config; "lib"; "llhttp"; "constants.d.ts"])
               (Path.join [wasmOut config; "constants.d.ts"]) ;;;
  copyFileSync (Path.join [wasmSrc config; "lib"; "llhttp"; "utils.js"])
               (Path.join [wasmOut config; "utils.js"]) ;;;
  copyFileSync (Path.join [wasmSrc config; "lib"; "llhttp"; "utils.js.map"])
               (Path.join [wasmOut config; "utils.js.map"]) ;;;
  copyFileSync (Path.join [wasmSrc config; "lib"; "llhttp"; "utils.d.ts"])
               (Path.join [wasmOut config; "utils.d.ts"]) ;;;
  writeFileSync (Path.join [wasmOut config; "package.json"]) packageJson.

(** The copies of [pairs] in order, then [k]. *)
Definition copyAll (pairs : list (string * string)) (k : M Ext unit)
  : M Ext unit :=
  fold_right (λ p rest, copyFileSync p.1 p.2 ;;; rest) k pairs.

(** The four cases of the [switch]. *)
Definition prebuildCase : M Ext unit :=
  config <- getConfig ;;
  let cmd := dockerBuildCmd (platform config) in
  consoleLog ("> " +:+ cmd +:+ nl) ;;;
  execSync cmd (mkOpts None Inherit None) ;;;
  processExit 0.

(** The [catch] clause of the setup case. *)
Definition setupHandler (error : Js.Value) : M Ext unit :=
  if isErrorWithCode error
     && Js.strictNeqString (Js.getProperty "code" error) "EEXIST"
  then throw error
  else processExit 0.

Definition setupCase : M Ext unit :=
  tryCatch
    (config <- getConfig ;;
     ensureDirectoryExists (Path.join [wasmSrc config; "build"]) ;;;
     processExit 0)
    setupHandler.

Definition dockerCase : M Ext unit :=
  config <- getConfig ;;
  runDockerBuild (platform config) (wasmSrc config) ;;;
  processExit 0.

Definition defaultCase : M Ext unit :=
  config <- getConfig ;;
  ensureDirectoryExists (wasmOut config) ;;;
  config <- getConfig ;;
  execSync "npm run build" (mkOpts (Some (wasmSrc config)) Inherit None) ;;;
  config <- getConfig ;;
  buildWasm config ;;;
  config <- getConfig ;;
  copyAssets config.

(** [switch (arg)], with [arg] the value of [process.argv[2]]. *)
Definition dispatch (arg : option string) : M Ext unit :=
  if bool_decide (arg = Some "--prebuild") then prebuildCase
  else if bool_decide (arg = Some "--setup") then setupCase
  else if bool_decide (arg = Some "--docker") then dockerCase
  else defaultCase.

(** The module body after the construction of [config]. *)
Definition main : M Ext unit :=
  resolvePlatform ;;;
  dispatch (process_argv proc !! 2%nat).

(** A run of the script in the world [w]. *)
Definition run (w : World Ext) : Outcome unit * State Ext :=
  main (initialState proc w).

(** The state after the platform query was run in the state [s]. *)
Definition afterQuery (s : State Ext) : State Ext :=
  mkState (config s) (shell host dockerInfoCmd noOptions (world s)).2
          (trace s ++ [EvExec dockerInfoCmd noOptions]) (assigned s).

(** The state after the call [copyFileSync(src, dst)] failed in [s]. *)
Definition copied (src dst : string) (s : State Ext) : State Ext :=
  mkState (config s) (world s) (trace s ++ [EvCopy src dst]) (assigned s).

(** The condition of lines 45-47 in the state [s]. *)
Definition platformWanted (s : State Ext) : bool :=
  negb (truthy (platform (config s)))
  && from_option truthy false (process_argv proc !! 2%nat).

End Script.

(** The status the Node process ends with: the argument of
    [process.exit], 0 when the module body runs to its end, and 1 when
    an exception is not caught. *)
Definition exitStatus {A} (o : Outcome A) : Z :=
  match o with
  | Returned _ => 0
  | Exited code => code
  | Threw _ => 1
  end.

(* ------------------------------------------------------------- *)
(** *** Vocabulary of the specification *)

(** The user and group [runDockerBuild] hands to the container. *)
Definition containerUser (proc : Process) : Z * Z :=
  if String.eqb (process_platform proc) "linux"
  then (process_getuid proc, process_getegid proc)
  else (1000, 1000).

Definition dockerRunOptions (proc : Process) (wasmSrc : string) : ExecOptions :=
  mkOpts (Some wasmSrc) Inherit
         (Some (<["DOCKER_BUILDKIT" := "1"]> (process_env proc))).

(** The container command of the image mode and of the containerized
    mode, with the options it is run with. *)
Definition containerCommand (proc : Process) (config : BuildConfig)
    (mode : string) : option (string * ExecOptions) :=
  if String.eqb mode "--prebuild" then
    Some (dockerBuildCmd (platform config), mkOpts None Inherit None)
  else if String.eqb mode "--docker" then
    Some (dockerRunCmd (platform config) (containerUser proc).1
            (containerUser proc).2 (wasmSrc config),
          dockerRunOptions proc (wasmSrc config))
  else None.



(** The call is the platform query. *)
Definition isDockerInfo (ev : Event) : bool :=
  match ev with
  | EvExec cmd _ => String.eqb cmd dockerInfoCmd
  | _ => false
  end.

(** The call runs the container runtime. *)
Definition isContainerExec (ev : Event) : bool :=
  match ev with
  | EvExec cmd _ => bool_decide (program cmd = Some "docker")
  | _ => false
  end.

(** The mode argument selects none of the three named modes. *)
Definition unrecognized (arg : string) : Prop :=
  arg ≠ "" ∧ arg ≠ "--prebuild" ∧ arg ≠ "--setup" ∧ arg ≠ "--docker".

(** The companion files: every logical asset in every form. *)
Definition assetStems : list string := ["constants"; "utils"].
Definition assetForms : list string := [".js"; ".js.map"; ".d.ts"].
Definition assetNames : list string :=
  stem ← assetStems; form ← assetForms; [stem +:+ form].

(** The copies [copyAssets] makes, as pairs of source and destination. *)
Definition assetCopies (config : BuildConfig) : list (string * string) :=
  map (λ name, (Path.join [wasmSrc config; "lib"; "llhttp"; name],
                Path.join [wasmOut config; name])) assetNames.

Definition copyEvent (p : string * string) : Event := EvCopy p.1 p.2.

(** The calls of a complete [copyAssets]. *)
Definition assetEvents (config : BuildConfig) : list Event :=
  map copyEvent (assetCopies config)
  ++ [EvWrite (Path.join [wasmOut config; "package.json"]) packageJson].




(** The calls of a complete local pipeline, [found] telling whether the
    output directory was there at the start. *)
Definition pipelineEvents (config : BuildConfig) (found : bool) : list Event :=
  EvExists (wasmOut config)
  :: (if found then [] else [EvMkdir (wasmOut config) true])
  ++ [EvExec "npm run build" (mkOpts (Some (wasmSrc config)) Inherit None);
      EvExec (clangCmd config) (mkOpts None Inherit None)]
  ++ assetEvents config.





Section Relations.
Context {Ext : Type}.
Implicit Types (s : State Ext) (P : Event → Prop).

(** [s'] comes after [s] in a run that made no assignment to [config]
    and only calls satisfying [P]. *)
Definition grows P s s' : Prop :=
  config s' = config s ∧ assigned s' = assigned s
  ∧ ∃ evs, trace s' = trace s ++ evs ∧ Forall P evs.

Definition keeps P {A} (m : M Ext A) : Prop := ∀ s, grows P s (m s).2.

(** Two configurations that differ at most in [platform]. *)
Definition alike (c c' : BuildConfig) : Prop :=
  wasmOut c = wasmOut c' ∧ wasmSrc c = wasmSrc c' ∧ emflags c = emflags c'.

(** Two states of two runs in the same world whose configurations differ
    at most in [platform], the second run having made the calls [pre]
    before the first one started. *)
Definition sim (pre : list Event) s s' : Prop :=
  alike (config s) (config s') ∧ world s' = world s
  ∧ trace s' = pre ++ trace s.

(** [m] and [m'] end the same way and make the same calls from there. *)
Definition simM {A} (m m' : M Ext A) : Prop :=
  ∀ pre s s', sim pre s s' →
    (m s).1 = (m' s').1 ∧ sim pre (m s).2 (m' s').2.

End Relations.

End Build.

(* ===================================================================== *)
(** ** Concrete hosts and invocations *)
(* ===================================================================== *)

Module Scenario.
Import Str Host Build.

(** [ts-node bin/build_wasm.ts [arg]] in a checkout at [/repo]. *)
Definition processOf (override arg : option string) (os : string) : Process :=
  mkProcess
    (match override with
     | Some p => {["WASM_PLATFORM" := p]}
     | None => ∅
     end)
    (["/usr/bin/node"; "/repo/bin/build_wasm.ts"] ++ option_list arg)
    os 501 20 "/repo" "/repo/bin".

(** A checkout in which nothing has been built. *)
Definition emptyWorld : World unit := mkWorld (mkFs ∅ ∅) tt.

(** A checkout after [npm run build-ts]: the library files are there. *)
Definition libraryWorld : World unit :=
  mkWorld
    (mkFs (list_to_map
             (map (λ name, ("/repo/lib/llhttp/" +:+ name, "// " +:+ name))
                  assetNames))
          {["/repo"; "/repo/lib"; "/repo/lib/llhttp"]})
    tt.

(** Every command succeeds, the platform query answers [linux/amd64],
    and no file-system call fails for a reason of the host's own. *)
Definition calmHost : Oracle unit :=
  mkOracle
    (λ cmd _ w,
       (inr (mkExit 0 (if String.eqb cmd dockerInfoCmd
                       then "linux/amd64" +:+ nl else "")), w))
    (λ _ _, None).

(** As [calmHost], but every command other than the platform query exits
    with [status]. *)
Definition exitingHost (status : Z) : Oracle unit :=
  mkOracle
    (λ cmd _ w,
       (inr (if String.eqb cmd dockerInfoCmd
             then mkExit 0 ("linux/amd64" +:+ nl)
             else mkExit status ""), w))
    (λ _ _, None).

(** A host without a container runtime: a command whose program is
    [docker] exits with status 127, every other command succeeds. *)
Definition dockerlessHost : Oracle unit :=
  mkOracle
    (λ cmd _ w,
       (inr (mkExit (if bool_decide (program cmd = Some "docker")
                     then 127 else 0) ""), w))
    (λ _ _, None).


(** [ts-node bin/build_wasm.ts] in a checkout at [root], run from
    there, with no override. *)
Definition processAt (root : string) : Process :=
  mkProcess ∅ ["/usr/bin/node"; root +:+ "/bin/build_wasm.ts"]
            "linux" 501 20 root (root +:+ "/bin").

End Scenario.

(* ===================================================================== *)
(** ** Facts *)
(* ===================================================================== *)

Import Str Host Build.
Local Open Scope script_scope.

Example resolve_wasmOut :
  Path.resolve "/w" ["/repo/bin"; "../build/wasm"] = "/repo/build/wasm".
Proof. reflexivity. Qed.

Example resolve_wasmSrc : Path.resolve "/w" ["/repo/bin"; "../"] = "/repo".
Proof. reflexivity. Qed.

Example resolve_to_root : Path.resolve "/w" ["/bin"; "../"] = "/".
Proof. reflexivity. Qed.

Example resolve_relative : Path.resolve "/w/x" ["bin"; "../a"] = "/w/x/a".
Proof. reflexivity. Qed.

Example ancestors_wasmOut :
  Path.ancestors "/repo/build/wasm" = ["/repo"; "/repo/build"].
Proof. reflexivity. Qed.

Example ancestors_relative :
  Path.ancestors "build/wasm" = ["build"] ∧ Path.ancestors "/" = [].
Proof. split; reflexivity. Qed.

Example join_library :
  Path.join ["/repo"; "lib"; "llhttp"; "utils.js"] = "/repo/lib/llhttp/utils.js".
Proof. reflexivity. Qed.

Example join_above : Path.join ["a/../.."; "b/"] = "../b/".
Proof. reflexivity. Qed.

Example join_nothing : Path.join [""; ""] = ".".
Proof. reflexivity. Qed.

Example trim_both_ends : Str.trim (Str.nl +:+ "  a b " +:+ Str.nl +:+ " ") = "a b".
Proof. reflexivity. Qed.

Example tokens_blanks : Str.tokens "a   b c " = ["a"; "b"; "c"].
Proof. reflexivity. Qed.

Example clangCmd_words :
  Str.tokens (Build.clangCmd (Build.initialConfig
                (Scenario.processOf None None "linux")))
  = ["clang"; "--sysroot=/usr/share/wasi-sysroot"; "-target";
     "wasm32-unknown-wasi"; "-Ofast"; "-fno-exceptions";
     "-fvisibility=hidden"; "-mexec-model=reactor"; "-msimd128";
     "-mbulk-memory"; "-mmultivalue"; "-mnontrapping-fptoint";
     "-msign-ext"; "-mreference-types"; "-mtail-call"; "-O3"; "-fno-rtti";
     "-fno-exceptions"; "-flto"; "-ffast-math"; "-fomit-frame-pointer";
     "-finline-functions"; "-finline-hint-functions";
     "-fno-stack-protector"; "-fforce-emit-vtables";
     "--param=max-inline-insns-single=1000";
     "--param=max-inline-insns-auto=1000";
     "--param=early-inlining-insns=1000";
     "--param=max-early-inliner-iterations=10"; "-Wl,--no-entry";
     "-Wl,-O3"; "-Wl,--lto-O3"; "-Wl,-z,stack-size=2097152";
     "-Wl,--initial-memory=16777216"; "-Wl,--max-memory=16777216";
     "-Wl,-error-limit=0"; "-Wl,-O3"; "-Wl,--lto-O3";
     "-Wl,--allow-undefined"; "-Wl,--export-dynamic";
     "-Wl,--export-table"; "-Wl,--export=malloc"; "-Wl,--export=free";
     "-Wl,--no-entry"; "-Wl,--import-memory"; "-Wl,--max-memory=16777216";
     "-Wl,--global-base=4194304"; "-Wl,--stack-first";
     "/repo/build/c/*.c"; "/repo/src/native/*.c"; "-I/repo/build"; "-o";
     "/repo/build/wasm/llhttp.wasm"].
Proof. vm_compute. reflexivity. Qed.

(** *** Strings *)

Section StringFacts.
Import Str.

Lemma app_cons c s t : String c s +:+ t = String c (s +:+ t).
Proof. reflexivity. Qed.

Lemma app_nil_l s : "" +:+ s = s.
Proof. reflexivity. Qed.

Lemma app_nil_r s : s +:+ "" = s.
Proof. induction s as [|c s IH]; [reflexivity|]. by rewrite app_cons, IH. Qed.

Lemma app_assoc_s a b c : (a +:+ b) +:+ c = a +:+ (b +:+ c).
Proof. induction a as [|x a IH]; [reflexivity|]. by rewrite !app_cons, IH. Qed.

Lemma app_eq_nil a b : a +:+ b = "" → a = "" ∧ b = "".
Proof. destruct a; [done|]. rewrite app_cons. discriminate. Qed.

Lemma trimEnd_snoc body c ws :
  isWhite c = false → trimEnd ws = "" →
  trimEnd (body +:+ String c ws) = body +:+ String c "".
Proof.
  intros Hc Hws. induction body as [|a body IH].
  - rewrite !app_nil_l. simpl. by rewrite Hws, Hc.
  - rewrite !app_cons. simpl. rewrite IH.
    destruct (body +:+ String c "") eqn:E; [|done].
    by apply app_eq_nil in E as [_ ?].
Qed.

Lemma splitBy_nonnil p s : splitBy p s ≠ [].
Proof. destruct s as [|c s]; simpl; [done|]. destruct (p c); [done|]. by destruct (splitBy p s). Qed.

Lemma splitBy_app p a c b :
  p c = true → splitBy p (a +:+ String c b) = splitBy p a ++ splitBy p b.
Proof.
  intros Hc. induction a as [|x a IH].
  - rewrite app_nil_l. simpl. by rewrite Hc.
  - rewrite app_cons. simpl. rewrite IH. destruct (p x); [done|].
    pose proof (splitBy_nonnil p a). by destruct (splitBy p a).
Qed.

Lemma splitBy_none p s : noneChar p s = true → splitBy p s = [s].
Proof.
  induction s as [|c s IH]; simpl; [done|].
  intros [Hc Hs]%andb_true_iff. apply negb_true_iff in Hc.
  by rewrite Hc, IH.
Qed.

Lemma splitBy_pieces p s : Forall (λ w, noneChar p w = true) (splitBy p s).
Proof.
  induction s as [|c s IH]; simpl; [by repeat constructor|].
  destruct (p c) eqn:Hc; [by constructor|].
  destruct (splitBy p s) as [|w ws]; [by repeat constructor; simpl; rewrite Hc|].
  inversion IH; subst. constructor; [|done]. simpl. by rewrite Hc.
Qed.

Lemma tokens_app c a b :
  isWhite c = true → tokens (a +:+ String c b) = tokens a ++ tokens b.
Proof. intros Hc. unfold tokens. by rewrite splitBy_app, filter_app. Qed.

Lemma tokens_nil : tokens "" = [].
Proof. reflexivity. Qed.

Lemma tokens_single w : nonEmpty w = true → noneChar isWhite w = true → tokens w = [w].
Proof. intros H1 H2. unfold tokens. rewrite splitBy_none by done. rewrite filter_cons_True by done. done. Qed.

Lemma unsnoc s : s ≠ "" → ∃ s' c, s = s' +:+ String c "".
Proof.
  induction s as [|a s IH]; [done|]. intros _.
  destruct s as [|b s].
  - by exists "", a.
  - destruct IH as (s' & c & E); [done|]. exists (String a s'), c.
    by rewrite app_cons, <- E.
Qed.

Lemma endsWith_snoc c s d : endsWith c (s +:+ String d "") = bool_decide (d = c).
Proof.
  induction s as [|a s IH]; [reflexivity|].
  rewrite app_cons. simpl. rewrite IH.
  destruct (s +:+ String d "") eqn:E; [|done].
  by apply app_eq_nil in E as [_ ?].
Qed.

End StringFacts.

(** *** Paths *)

Section PathFacts.
Import Str Path.

Lemma isDotDot_eq s : isDotDot s = true → s = "..".
Proof. apply String.eqb_eq. Qed.

Lemma normalizeSegments_fold allow res segs :
  normalizeSegments allow res segs = rev (fold_left (pushSegment allow) segs res).
Proof. revert res. induction segs as [|seg segs IH]; intros res; simpl; [done|apply IH]. Qed.

Lemma pushSegment_good allow res f :
  goodSeg f = true → pushSegment allow res f = f :: res.
Proof.
  unfold goodSeg, pushSegment. intros [[H1 H2]%andb_true_iff H3]%andb_true_iff.
  apply negb_true_iff in H2, H3. by rewrite H1, H2, H3.
Qed.

Lemma okStack_dots allow r :
  allow = true → forallb isDotDot r = true → okStack allow r = true.
Proof.
  intros -> H. induction r as [|t r IH]; [done|]. simpl in *.
  apply andb_true_iff in H as [Ht Hr]. by rewrite Ht, Hr.
Qed.

Lemma okStack_tail allow top r : okStack allow (top :: r) = true → okStack allow r = true.
Proof.
  simpl. destruct (isDotDot top).
  - intros [? ?]%andb_true_iff. by apply okStack_dots.
  - by intros [? ?]%andb_true_iff.
Qed.

Lemma pushSegment_ok allow res seg :
  okStack allow res = true → okStack allow (pushSegment allow res seg) = true.
Proof.
  intros Hok. unfold pushSegment.
  destruct (negb (nonEmpty seg) || isDot seg) eqn:E1; [done|].
  apply orb_false_iff in E1 as [E1 E1'].
  destruct (isDotDot seg) eqn:E2.
  - destruct res as [|top res]; [by destruct allow; simpl; rewrite ?E2|].
    destruct (isDotDot top) eqn:E3; [|by eapply okStack_tail].
    destruct allow; [|done]. simpl in *. rewrite E2, E3 in *. done.
  - simpl. rewrite E2. unfold goodSeg. rewrite E1', E2. apply negb_false_iff in E1. by rewrite E1.
Qed.

Lemma fold_ok allow segs res :
  okStack allow res = true → okStack allow (fold_left (pushSegment allow) segs res) = true.
Proof. revert res. induction segs; simpl; auto using pushSegment_ok. Qed.

Lemma pushSegment_top allow top r :
  okStack allow (top :: r) = true → pushSegment allow r top = top :: r.
Proof.
  simpl. destruct (isDotDot top) eqn:E.
  - apply isDotDot_eq in E as ->. intros [-> Hr]%andb_true_iff.
    destruct r as [|t r]; [done|]. simpl in Hr. apply andb_true_iff in Hr as [Ht _].
    unfold pushSegment. simpl. by rewrite Ht.
  - intros [? _]%andb_true_iff. by apply pushSegment_good.
Qed.

Lemma replay allow res :
  okStack allow res = true → fold_left (pushSegment allow) (rev res) [] = res.
Proof.
  induction res as [|top r IH]; [done|]. intros Hok. simpl.
  rewrite fold_left_app. simpl. rewrite IH by (by eapply okStack_tail).
  by apply pushSegment_top.
Qed.

Lemma okStack_nonEmpty allow res : okStack allow res = true → Forall (λ s, nonEmpty s = true) res.
Proof.
  induction res as [|top r IH]; [constructor|]. intros Hok. constructor.
  - simpl in Hok. destruct (isDotDot top) eqn:E; [by apply isDotDot_eq in E as ->|].
    apply andb_true_iff in Hok as [Hg _]. unfold goodSeg in Hg.
    by apply andb_true_iff in Hg as [[? _]%andb_true_iff _].
  - apply IH. by eapply okStack_tail.
Qed.

Lemma pushSegment_Forall (P : string → Prop) allow res seg :
  Forall P res → P seg → Forall P (pushSegment allow res seg).
Proof.
  intros Hres Hseg. unfold pushSegment.
  destruct (negb (nonEmpty seg) || isDot seg); [done|].
  destruct (isDotDot seg).
  - destruct res as [|top r]; [destruct allow; by repeat constructor|].
    inversion Hres; subst.
    destruct (isDotDot top); [destruct allow|]; try done. by constructor.
  - by constructor.
Qed.

Lemma fold_Forall (P : string → Prop) allow segs res :
  Forall P res → Forall P segs → Forall P (fold_left (pushSegment allow) segs res).
Proof.
  revert res. induction segs as [|s segs IH]; intros res Hres Hsegs; simpl; [done|].
  inversion Hsegs; subst. apply IH; [|done]. by apply pushSegment_Forall.
Qed.

Lemma components_stack p : components p = rev (stackOf p).
Proof. apply normalizeSegments_fold. Qed.

Lemma stackOf_ok p : okStack (negb (isAbsolute p)) (stackOf p) = true.
Proof. by apply fold_ok. Qed.

Lemma stackOf_slashFree p : Forall slashFree (stackOf p).
Proof. apply fold_Forall; [constructor|]. apply splitBy_pieces. Qed.

Lemma components_nonEmpty p : Forall (λ s, nonEmpty s = true) (components p).
Proof. rewrite components_stack. apply Forall_rev. eapply okStack_nonEmpty, stackOf_ok. Qed.

Lemma components_slashFree p : Forall slashFree (components p).
Proof. rewrite components_stack. apply Forall_rev, stackOf_slashFree. Qed.

Lemma joinWith_cons2 sep x y l : joinWith sep (x :: y :: l) = x +:+ sep +:+ joinWith sep (y :: l).
Proof. reflexivity. Qed.

Lemma joinWith_snoc sep l f :
  joinWith sep (l ++ [f]) = match l with [] => f | _ => joinWith sep l +:+ sep +:+ f end.
Proof.
  induction l as [|x l IH]; [done|].
  destruct l as [|y l]; [done|].
  change ((x :: y :: l) ++ [f]) with (x :: y :: (l ++ [f])).
  rewrite !joinWith_cons2. change (y :: l ++ [f]) with ((y :: l) ++ [f]).
  rewrite IH. by rewrite !app_assoc_s.
Qed.

Lemma segments_joinWith l :
  l ≠ [] → Forall slashFree l → segments (joinWith "/" l) = l.
Proof.
  induction l as [|x l IH]; [done|]. intros _ Hl. inversion Hl; subst.
  destruct l as [|y l].
  - by apply splitBy_none.
  - rewrite joinWith_cons2. unfold segments in *.
    change ("/" +:+ joinWith "/" (y :: l)) with (String "/" (joinWith "/" (y :: l))).
    rewrite splitBy_app by done. rewrite splitBy_none by done.
    rewrite IH by done. done.
Qed.

Lemma nonEmpty_app_l a b : nonEmpty a = true → nonEmpty (a +:+ b) = true.
Proof. by destruct a. Qed.

Lemma nonEmpty_app_r a b : nonEmpty b = true → nonEmpty (a +:+ b) = true.
Proof. destruct a; [done|]. by rewrite app_cons. Qed.

Lemma nonEmpty_joinWith sep x l : nonEmpty x = true → nonEmpty (joinWith sep (x :: l)) = true.
Proof. intros H. destruct l; [done|]. rewrite joinWith_cons2. by apply nonEmpty_app_l. Qed.

Lemma nonEmpty_true s : nonEmpty s = true ↔ s ≠ "".
Proof. by destruct s. Qed.

Lemma normalize_render p :
  p ≠ "" → normalize p = render (isAbsolute p) (components p) (endsWith "/" p).
Proof.
  intros Hp. unfold normalize. apply nonEmpty_true in Hp. rewrite Hp. simpl.
  unfold normalizeString, render. fold (isAbsolute p). fold (components p).
  pose proof (components_nonEmpty p) as Hne.
  destruct (components p) as [|x l]; [done|].
  inversion Hne; subst. rewrite nonEmpty_joinWith by done. simpl.
  destruct (endsWith "/" p), (isAbsolute p); rewrite ?app_nil_r; done.
Qed.

Lemma startsWith_app c a b : nonEmpty a = true → startsWith c (a +:+ b) = startsWith c a.
Proof. by destruct a. Qed.

Lemma startsWith_slashFree s : slashFree s → startsWith "/" s = false.
Proof.
  destruct s as [|c s]; [done|]. unfold slashFree. simpl.
  intros [H _]%andb_true_iff. apply negb_true_iff in H. done.
Qed.

Lemma segments_slash_l s : segments ("/" +:+ s) = "" :: segments s.
Proof. reflexivity. Qed.

Lemma segments_slash_r s : segments (s +:+ "/") = segments s ++ [""].
Proof. unfold segments. by rewrite splitBy_app. Qed.

Lemma normalizeSegments_skip allow res segs :
  normalizeSegments allow res ("" :: segs) = normalizeSegments allow res segs.
Proof. reflexivity. Qed.

Lemma normalizeSegments_nil allow res : normalizeSegments allow res [] = rev res.
Proof. reflexivity. Qed.

Lemma normalizeSegments_replay allow comps tail :
  okStack allow (rev comps) = true →
  normalizeSegments allow [] (comps ++ tail) = normalizeSegments allow (rev comps) tail.
Proof.
  intros Hok. rewrite !normalizeSegments_fold, fold_left_app.
  rewrite <- (rev_involutive comps) at 1. by rewrite replay.
Qed.

Lemma render_components absolute comps trailing :
  okStack (negb absolute) (rev comps) = true → Forall slashFree comps →
  components (render absolute comps trailing) = comps
  ∧ isAbsolute (render absolute comps trailing) = absolute.
Proof.
  intros Hok Hsf. destruct comps as [|x l].
  { by destruct absolute, trailing. }
  assert (Hx : nonEmpty x = true).
  { apply okStack_nonEmpty, Forall_rev in Hok. rewrite rev_involutive in Hok. by inversion Hok. }
  assert (Habs : isAbsolute (render absolute (x :: l) trailing) = absolute).
  { unfold render, isAbsolute. destruct absolute; [done|].
    rewrite app_nil_l, startsWith_app by (by apply nonEmpty_joinWith).
    destruct l; [|rewrite joinWith_cons2, startsWith_app by done];
      apply startsWith_slashFree; by inversion Hsf. }
  split; [|done]. unfold components. rewrite Habs.
  unfold render.
  assert (Hseg : segments (joinWith "/" (x :: l) +:+ (if trailing then "/" else ""))
                 = (x :: l) ++ (if trailing then [""] else [])).
  { destruct trailing.
    - by rewrite segments_slash_r, segments_joinWith.
    - by rewrite app_nil_r, segments_joinWith, List.app_nil_r. }
  destruct absolute.
  - rewrite segments_slash_l, normalizeSegments_skip, Hseg.
    rewrite normalizeSegments_replay by done.
    destruct trailing;
      by rewrite ?normalizeSegments_skip, normalizeSegments_nil, rev_involutive.
  - rewrite app_nil_l, Hseg. rewrite normalizeSegments_replay by done.
    destruct trailing;
      by rewrite ?normalizeSegments_skip, normalizeSegments_nil, rev_involutive.
Qed.

Lemma components_ok p : okStack (negb (isAbsolute p)) (rev (components p)) = true.
Proof. rewrite components_stack, rev_involutive. apply stackOf_ok. Qed.

(** Normalising a path changes neither what it stands for nor whether
    it is absolute. *)
Lemma components_normalize p :
  components (normalize p) = components p
  ∧ isAbsolute (normalize p) = isAbsolute p.
Proof.
  destruct (decide (p = "")) as [->|Hp]; [done|].
  rewrite normalize_render by done.
  apply render_components; [apply components_ok|apply components_slashFree].
Qed.

Lemma plainName_good f :
  plainName f = true → goodSeg f = true ∧ slashFree f ∧ nonEmpty f = true.
Proof.
  unfold plainName, goodSeg, slashFree.
  intros [[[-> ->]%andb_true_iff ->]%andb_true_iff ->]%andb_true_iff. done.
Qed.

Lemma components_plain f :
  plainName f = true → components f = [f] ∧ isAbsolute f = false.
Proof.
  intros (Hg & Hs & Hn)%plainName_good.
  assert (Habs : isAbsolute f = false) by (by apply startsWith_slashFree).
  split; [|done]. unfold components, segments. rewrite Habs, splitBy_none by done.
  simpl. by rewrite pushSegment_good.
Qed.

Lemma components_snoc p f :
  p ≠ "" → plainName f = true →
  components (p +:+ "/" +:+ f) = components p ++ [f]
  ∧ isAbsolute (p +:+ "/" +:+ f) = isAbsolute p.
Proof.
  intros Hp (Hg & Hs & Hn)%plainName_good. apply nonEmpty_true in Hp.
  assert (Habs : isAbsolute (p +:+ "/" +:+ f) = isAbsolute p)
    by (by apply startsWith_app).
  split; [|done]. unfold components, segments. rewrite Habs.
  change ("/" +:+ f) with (String "/" f).
  rewrite splitBy_app, (splitBy_none _ f) by done.
  rewrite !normalizeSegments_fold, fold_left_app. simpl.
  by rewrite pushSegment_good.
Qed.

Lemma join_joined parts :
  join parts = if negb (nonEmpty (joined parts)) then "." else normalize (joined parts).
Proof. reflexivity. Qed.

Lemma join_components parts :
  components (join parts) = components (joined parts)
  ∧ isAbsolute (join parts) = isAbsolute (joined parts).
Proof.
  rewrite join_joined. destruct (joined parts) eqn:E; [done|].
  simpl. apply components_normalize.
Qed.

Lemma filter_nonEmpty_Forall l :
  Forall (λ a, nonEmpty a = true) (filter (λ a, nonEmpty a = true) l).
Proof. apply list.Forall_forall. by intros x [? _]%list_elem_of_filter. Qed.

Lemma joined_snoc parts f :
  nonEmpty f = true →
  joined (parts ++ [f])
  = match filter (λ a, nonEmpty a = true) parts with
    | [] => f
    | _ => joined parts +:+ "/" +:+ f
    end.
Proof.
  intros Hf. unfold joined. rewrite filter_app, filter_cons_True, filter_nil by done.
  apply joinWith_snoc.
Qed.

Lemma joined_nonEmpty parts :
  filter (λ a, nonEmpty a = true) parts ≠ [] → joined parts ≠ "".
Proof.
  intros Hne. unfold joined. pose proof (filter_nonEmpty_Forall parts) as Hall.
  destruct (filter _ parts) as [|x l]; [done|]. inversion Hall; subst.
  apply nonEmpty_true. by apply nonEmpty_joinWith.
Qed.

Lemma joined_snoc_components parts f :
  plainName f = true →
  components (joined (parts ++ [f])) = components (joined parts) ++ [f]
  ∧ isAbsolute (joined (parts ++ [f])) = isAbsolute (joined parts).
Proof.
  intros Hf. pose proof (plainName_good _ Hf) as (_ & _ & Hn).
  rewrite joined_snoc by done.
  destruct (filter _ parts) as [|x l] eqn:E.
  - unfold joined. rewrite E. by apply components_plain.
  - apply components_snoc; [|done]. apply joined_nonEmpty. by rewrite E.
Qed.

(** [join(...parts, name)] lies directly in [join(...parts)]. *)
Lemma join_child parts f :
  plainName f = true → childOf (join (parts ++ [f])) (join parts) f.
Proof.
  intros Hf. unfold childOf.
  destruct (join_components (parts ++ [f])) as [-> ->].
  destruct (join_components parts) as [-> ->].
  by apply joined_snoc_components.
Qed.

(** [join(dir, name)] lies directly in [dir]. *)
Lemma join_dir dir f : plainName f = true → childOf (join [dir; f]) dir f.
Proof.
  intros Hf. destruct (join_child [dir] f Hf) as [Hc Ha].
  destruct (join_components [dir]) as [Hc' Ha'].
  unfold childOf. simpl in Hc, Ha. rewrite Hc, Ha, Hc', Ha'.
  unfold joined. destruct dir; done.
Qed.

Lemma endsWith_app_snoc c a b d :
  endsWith c (a +:+ b +:+ String d "") = bool_decide (d = c).
Proof. rewrite <- app_assoc_s. apply endsWith_snoc. Qed.

Lemma noneChar_app p a b : noneChar p (a +:+ b) = noneChar p a && noneChar p b.
Proof. induction a as [|c a IH]; [done|]. rewrite app_cons. simpl. by rewrite IH, andb_assoc. Qed.

Lemma endsWith_slashFree a f :
  slashFree f → nonEmpty f = true → endsWith "/" (a +:+ f) = false.
Proof.
  intros Hs Hn. destruct (unsnoc f) as (f' & c & ->); [by apply nonEmpty_true|].
  rewrite endsWith_app_snoc. unfold slashFree in Hs. rewrite noneChar_app in Hs.
  apply andb_true_iff in Hs as [_ Hs]. simpl in Hs. rewrite andb_true_r in Hs.
  apply negb_true_iff in Hs. unfold isSlash in Hs. done.
Qed.

(** The text of [join(...parts, name)] ends in [name], which follows a
    separator or starts the path. *)
Lemma join_snoc_shape parts f :
  plainName f = true →
  ∃ d, join (parts ++ [f]) = d +:+ f ∧ (d = "" ∨ ∃ d', d = d' +:+ "/").
Proof.
  intros Hf. pose proof (plainName_good _ Hf) as (Hg & Hs & Hn).
  destruct (joined_snoc_components parts f Hf) as [Hc Ha].
  assert (HJ : joined (parts ++ [f]) ≠ "").
  { rewrite joined_snoc by done. apply nonEmpty_true.
    destruct (filter _ parts); [done|]. by apply nonEmpty_app_r, nonEmpty_app_r. }
  rewrite join_joined. destruct (nonEmpty (joined (parts ++ [f]))) eqn:E;
    [|by apply nonEmpty_true in HJ; rewrite HJ in E]. simpl.
  rewrite normalize_render, Hc by done.
  assert (endsWith "/" (joined (parts ++ [f])) = false) as ->.
  { rewrite joined_snoc by done. destruct (filter _ parts).
    - rewrite <- (app_nil_l f). by apply endsWith_slashFree.
    - rewrite <- app_assoc_s. by apply endsWith_slashFree. }
  unfold render. set (pre := if isAbsolute _ then "/" else "").
  assert (Hpre : pre = "" ∨ ∃ d', pre = d' +:+ "/").
  { subst pre. destruct (isAbsolute _); [right; by exists ""|by left]. }
  destruct (components (joined parts) ++ [f]) eqn:E'; [by destruct (components (joined parts))|].
  rewrite <- E', joinWith_snoc, app_nil_r.
  destruct (components (joined parts)) as [|x0 l0].
  - by exists pre.
  - exists (pre +:+ joinWith "/" (x0 :: l0) +:+ "/"). split.
    + by rewrite !app_assoc_s.
    + right. exists (pre +:+ joinWith "/" (x0 :: l0)). by rewrite !app_assoc_s.
Qed.

Lemma basename_shape d f :
  slashFree f → (d = "" ∨ ∃ d', d = d' +:+ "/") → basename (d +:+ f) = f.
Proof.
  intros Hs [->|[d' ->]]; unfold basename, segments.
  - by rewrite app_nil_l, splitBy_none.
  - rewrite app_assoc_s. change ("/" +:+ f) with (String "/" f).
    rewrite splitBy_app, (splitBy_none _ f) by done. apply last_last.
Qed.

(** [join] keeps the file name it is given last. *)
Lemma basename_join parts f :
  plainName f = true → basename (join (parts ++ [f])) = f.
Proof.
  intros Hf. destruct (join_snoc_shape parts f Hf) as (d & -> & Hd).
  apply basename_shape; [|done]. by apply plainName_good.
Qed.

End PathFacts.

(** *** Command lines *)

Section CommandFacts.
Import Str Path.

Lemma hasFlag_In f cmd : hasFlag f cmd = true ↔ In f (tokens cmd).
Proof.
  unfold hasFlag. rewrite existsb_exists. split.
  - by intros (x & Hx & ->%String.eqb_eq).
  - intros H. exists f. by rewrite String.eqb_refl.
Qed.

Lemma lastWhite_snoc s c : lastWhite (s +:+ String c "") = isWhite c.
Proof.
  induction s as [|a s IH]; [reflexivity|].
  rewrite app_cons. simpl. rewrite IH.
  destruct (s +:+ String c "") eqn:E; [|done].
  by apply app_eq_nil in E as [_ ?].
Qed.

(** A word of a stretch that starts and ends with a blank is a word of
    every command line around the stretch. *)
Lemma hasFlag_within f a mid b :
  headWhite mid = true → lastWhite mid = true →
  hasFlag f mid = true → hasFlag f (a +:+ mid +:+ b) = true.
Proof.
  intros Hh Hl. rewrite !hasFlag_In.
  destruct mid as [|c m]; [done|]. simpl in Hh.
  destruct (decide (m = "")) as [->|Hm].
  { unfold tokens. simpl. by rewrite Hh. }
  destruct (unsnoc m Hm) as (m' & c' & ->).
  assert (Hc' : isWhite c' = true).
  { rewrite <- Hl. change (String c (m' +:+ String c' "")) with (String c m' +:+ String c' "").
    by rewrite lastWhite_snoc. }
  assert (a +:+ String c (m' +:+ String c' "") +:+ b
          = a +:+ String c (m' +:+ String c' b)) as ->.
  { by rewrite app_cons, app_assoc_s. }
  rewrite <- (app_nil_l (String c (m' +:+ String c' ""))).
  rewrite !tokens_app by done. rewrite tokens_nil, List.app_nil_r. simpl.
  intros H. apply in_or_app. right. apply in_or_app. by left.
Qed.

Ltac right_nest := rewrite ?app_assoc_s.

Lemma clangTemplate_parts config :
  clangTemplate config
  = nl +:+ "    "
    +:+ (clangFixed +:+ continued (emflags config) +:+ clangExplicit
         +:+ clangInputs config +:+ " -o " +:+ Path.join [wasmOut config; "llhttp.wasm"])
    +:+ nl +:+ "  ".
Proof.
  unfold clangTemplate, clangFixed, clangExplicit, clangInputs, continued.
  generalize (emflags config) (Path.join [wasmSrc config; "build"; "c"])
    (Path.join [wasmSrc config; "src"; "native"]) (Path.join [wasmSrc config; "build"])
    (Path.join [wasmOut config; "llhttp.wasm"]).
  intros e j1 j2 j3 jo. right_nest. reflexivity.
Qed.

Lemma clangCmd_parts config :
  clangCmd config
  = clangFixed +:+ continued (emflags config) +:+ clangExplicit
    +:+ clangInputs config +:+ " -o " +:+ Path.join [wasmOut config; "llhttp.wasm"].
Proof.
  unfold clangCmd. rewrite clangTemplate_parts.
  destruct (join_snoc_shape [wasmOut config] "llhttp.wasm" eq_refl) as (d & Hd & _).
  simpl in Hd. rewrite Hd.
  set (rest := continued (emflags config) +:+ clangExplicit
               +:+ clangInputs config +:+ " -o " +:+ d).
  assert (clangFixed +:+ continued (emflags config) +:+ clangExplicit
            +:+ clangInputs config +:+ " -o " +:+ d +:+ "llhttp.wasm"
          = (clangFixed +:+ rest +:+ "llhttp.was") +:+ "m") as ->.
  { subst rest. by rewrite !app_assoc_s. }
  rewrite (app_assoc_s _ "m").
  unfold trim.
  assert (trimStart (nl +:+ "    " +:+ (clangFixed +:+ rest +:+ "llhttp.was")
                     +:+ "m" +:+ nl +:+ "  ")
          = (clangFixed +:+ rest +:+ "llhttp.was") +:+ "m" +:+ nl +:+ "  ") as ->.
  { rewrite <- (app_assoc_s _ "m"). generalize (rest +:+ "llhttp.was"). intros r. reflexivity. }
  by apply trimEnd_snoc.
Qed.
End CommandFacts.

Lemma clangCmd_around_explicit config :
  clangCmd config
  = (clangFixed +:+ continued (emflags config)) +:+ clangExplicit
    +:+ (clangInputs config +:+ " -o " +:+ Path.join [wasmOut config; "llhttp.wasm"]).
Proof. rewrite clangCmd_parts. by rewrite !app_assoc_s. Qed.

(** An explicit linker flag is a word of the command, whatever the
    configuration interpolates around it. *)
Lemma hasFlag_clangExplicit flag config :
  hasFlag flag clangExplicit = true → hasFlag flag (clangCmd config) = true.
Proof.
  intros H. rewrite clangCmd_around_explicit. by apply hasFlag_within.
Qed.

Section CommandIdentity.

Lemma program_app_blank name rest :
  nonEmpty name = true → noneChar isWhite name = true →
  program (name +:+ String " " rest) = Some name.
Proof.
  intros Hn Hw. unfold program. rewrite tokens_app by done.
  by rewrite tokens_single.
Qed.

Lemma program_clangCmd config : program (clangCmd config) = Some "clang".
Proof. rewrite clangCmd_parts. by apply (program_app_blank "clang"). Qed.

Lemma program_dockerBuildCmd p : program (dockerBuildCmd p) = Some "docker".
Proof. by apply (program_app_blank "docker"). Qed.

Lemma program_dockerRunCmd p u g src : program (dockerRunCmd p u g src) = Some "docker".
Proof. by apply (program_app_blank "docker"). Qed.

Lemma program_dockerInfoCmd : program dockerInfoCmd = Some "docker".
Proof. reflexivity. Qed.

Lemma clangCmd_not_info config : String.eqb (clangCmd config) dockerInfoCmd = false.
Proof.
  apply String.eqb_neq. intros H. apply (f_equal program) in H.
  by rewrite program_clangCmd in H.
Qed.

Lemma dockerBuildCmd_not_info p : String.eqb (dockerBuildCmd p) dockerInfoCmd = false.
Proof.
  apply String.eqb_neq. intros H. apply (f_equal (String.get 7)) in H.
  discriminate H.
Qed.

Lemma dockerRunCmd_not_info p u g src :
  String.eqb (dockerRunCmd p u g src) dockerInfoCmd = false.
Proof.
  apply String.eqb_neq. intros H. apply (f_equal (String.get 7)) in H.
  discriminate H.
Qed.

End CommandIdentity.

(** *** Runs that assign nothing and make only certain calls *)

Section Frames.
Context {Ext : Type} (host : Oracle Ext) (proc : Process).
Implicit Types (s : State Ext) (P : Event → Prop).

Lemma grows_refl P s : grows P s s.
Proof. repeat split. exists []. by rewrite List.app_nil_r. Qed.

Lemma grows_trans P s1 s2 s3 : grows P s1 s2 → grows P s2 s3 → grows P s1 s3.
Proof.
  intros (Hc & Ha & evs & Ht & Hp) (Hc' & Ha' & evs' & Ht' & Hp').
  repeat split; [congruence..|]. exists (evs ++ evs'). split.
  - by rewrite Ht', Ht, <- List.app_assoc.
  - by apply Forall_app.
Qed.

Lemma keeps_ret P {A} (a : A) : keeps P (ret (Ext:=Ext) a).
Proof. intros s. apply grows_refl. Qed.

Lemma keeps_throw P {A} e : keeps P (throw (Ext:=Ext) (A:=A) e).
Proof. intros s. apply grows_refl. Qed.

Lemma keeps_processExit P {A} c : keeps P (processExit (Ext:=Ext) (A:=A) c).
Proof. intros s. apply grows_refl. Qed.

Lemma keeps_bind P {A B} (m : M Ext A) (k : A → M Ext B) :
  keeps P m → (∀ a, keeps P (k a)) → keeps P (bind m k).
Proof.
  intros Hm Hk s. unfold bind. specialize (Hm s).
  destruct (m s) as [[a|e|c] s']; simpl in *; [|done..].
  eapply grows_trans; [done|apply Hk].
Qed.

Lemma keeps_tryCatch P {A} (body : M Ext A) handler :
  keeps P body → (∀ e, keeps P (handler e)) → keeps P (tryCatch body handler).
Proof.
  intros Hm Hk s. unfold tryCatch. specialize (Hm s).
  destruct (body s) as [[a|e|c] s']; simpl in *; [done| |done].
  eapply grows_trans; [done|apply Hk].
Qed.

Lemma keeps_getConfig P : keeps P (getConfig (Ext:=Ext)).
Proof. intros s. apply grows_refl. Qed.

Lemma keeps_getWorld P : keeps P (getWorld (Ext:=Ext)).
Proof. intros s. apply grows_refl. Qed.

Lemma keeps_setWorld P w : keeps P (setWorld (Ext:=Ext) w).
Proof. intros s. repeat split. exists []. simpl. by rewrite List.app_nil_r. Qed.

Lemma keeps_emit P ev : P ev → keeps P (emit (Ext:=Ext) ev).
Proof. intros H s. repeat split. exists [ev]. split; [done|by constructor]. Qed.

Lemma keeps_if P {A} (b : bool) (m1 m2 : M Ext A) :
  keeps P m1 → keeps P m2 → keeps P (if b then m1 else m2).
Proof. by destruct b. Qed.

Create HintDb keeps.
Hint Resolve keeps_ret keeps_throw keeps_processExit keeps_getConfig
  keeps_getWorld keeps_setWorld keeps_emit : keeps.

Ltac keeps_step :=
  lazymatch goal with
  | |- keeps _ (bind _ _) => apply keeps_bind; [|intros ?]
  | |- keeps _ (tryCatch _ _) => apply keeps_tryCatch; [|intros ?]
  | |- keeps _ (match ?x with _ => _ end) => destruct x
  | |- keeps _ (let _ := _ in _) => cbv zeta
  | |- _ => solve [eauto with keeps]
  end.

Lemma keeps_execSync P cmd opts :
  P (EvExec cmd opts) → keeps P (execSync host cmd opts).
Proof. intros H. unfold execSync. repeat keeps_step. Qed.

Lemma keeps_existsSync P path : P (EvExists path) → keeps P (existsSync (Ext:=Ext) path).
Proof. intros H. unfold existsSync. repeat keeps_step. Qed.

Lemma keeps_mkdirSync P path r : P (EvMkdir path r) → keeps P (mkdirSync host path r).
Proof. intros H. unfold mkdirSync. repeat keeps_step. Qed.

Lemma keeps_copyFileSync P src dst : P (EvCopy src dst) → keeps P (copyFileSync host src dst).
Proof. intros H. unfold copyFileSync. repeat keeps_step. Qed.

Lemma keeps_writeFileSync P path data : P (EvWrite path data) → keeps P (writeFileSync host path data).
Proof. intros H. unfold writeFileSync. repeat keeps_step. Qed.

Lemma keeps_consoleLog P msg : P (EvLog msg) → keeps P (consoleLog (Ext:=Ext) msg).
Proof. apply keeps_emit. Qed.

End Frames.

Section ScriptFrames.
Context {Ext : Type} (host : Oracle Ext) (proc : Process).

Ltac keeps_tac :=
  repeat first
    [ apply keeps_ret | apply keeps_throw | apply keeps_processExit
    | apply keeps_getConfig
    | apply keeps_execSync | apply keeps_existsSync | apply keeps_mkdirSync
    | apply keeps_copyFileSync | apply keeps_writeFileSync | apply keeps_consoleLog
    | apply keeps_if
    | apply keeps_tryCatch; [|intros ?]
    | apply keeps_bind; [|intros ?] ].

Lemma keeps_dispatch_no_query arg :
  keeps (λ ev, isDockerInfo ev = false) (dispatch host proc arg).
Proof.
  unfold dispatch, prebuildCase, setupCase, dockerCase, defaultCase,
    runDockerBuild, buildWasm, copyAssets, ensureDirectoryExists.
  keeps_tac; simpl;
    auto using clangCmd_not_info, dockerBuildCmd_not_info, dockerRunCmd_not_info.
Qed.


End ScriptFrames.

(** *** The platform resolution *)

Section Resolution.
Context {Ext : Type} (host : Oracle Ext) (proc : Process).
Implicit Types (s : State Ext) (w : World Ext).

Lemma resolvePlatform_skip s :
  platformWanted proc s = false → resolvePlatform host proc s = (Returned tt, s).
Proof.
  intros H. unfold resolvePlatform, bind, getConfig. simpl.
  unfold platformWanted in H. by rewrite H.
Qed.

Lemma resolvePlatform_query s :
  platformWanted proc s = true →
  resolvePlatform host proc s
  = match (shell host dockerInfoCmd noOptions (world s)).1 with
    | inl error => (Threw error, afterQuery host s)
    | inr child =>
        if status child =? 0 then
          assignPlatform (trim (stdout child)) (afterQuery host s)
        else (Threw (Js.childError dockerInfoCmd (status child)), afterQuery host s)
    end.
Proof.
  intros H. unfold resolvePlatform, bind, getConfig. simpl.
  unfold platformWanted in H. rewrite H.
  unfold execSync, bind, emit, getWorld, setWorld, afterQuery. simpl.
  destruct (shell host dockerInfoCmd noOptions (world s)) as [[e|child] w']; simpl; [done|].
  by destruct (status child =? 0).
Qed.

Lemma main_resolved s s1 :
  resolvePlatform host proc s = (Returned tt, s1) →
  main host proc s = dispatch host proc (process_argv proc !! 2%nat) s1.
Proof. intros H. unfold main, bind. by rewrite H. Qed.

Lemma main_unresolved s e s1 :
  resolvePlatform host proc s = (Threw e, s1) → main host proc s = (Threw e, s1).
Proof. intros H. unfold main, bind. by rewrite H. Qed.

Lemma platformWanted_initial w :
  platformWanted proc (initialState proc w) = true
  ↔ (process_env proc !! "WASM_PLATFORM" = None
     ∨ process_env proc !! "WASM_PLATFORM" = Some "")
    ∧ ∃ a, process_argv proc !! 2%nat = Some a ∧ a ≠ "".
Proof.
  unfold platformWanted. simpl.
  destruct (process_env proc !! "WASM_PLATFORM") as [[|c p]|];
    destruct (process_argv proc !! 2%nat) as [[|c' a]|]; simpl; split;
    try done; try (intros [[?|?] (? & ? & ?)]; by simplify_eq);
    intros _; (split; [by auto|by eexists]).
Qed.

Lemma existsb_none {A} (f : A → bool) l :
  Forall (λ x, f x = false) l → existsb f l = false.
Proof. induction 1 as [|x l Hx _ IH]; simpl; [done|]. by rewrite Hx. Qed.

Lemma dispatch_trace arg s :
  ∃ evs, trace (dispatch host proc arg s).2 = trace s ++ evs
         ∧ existsb isDockerInfo evs = false.
Proof.
  destruct (keeps_dispatch_no_query host proc arg s) as (_ & _ & evs & Ht & Hevs).
  exists evs. split; [done|]. by apply existsb_none.
Qed.

Lemma dispatch_config arg s :
  config (dispatch host proc arg s).2 = config s
  ∧ assigned (dispatch host proc arg s).2 = assigned s.
Proof.
  destruct (keeps_dispatch_no_query host proc arg s) as (? & ? & _). done.
Qed.

(** The calls of a run, by whether the platform is wanted. *)
Lemma run_trace_skip w :
  platformWanted proc (initialState proc w) = false →
  existsb isDockerInfo (trace (run host proc w).2) = false
  ∧ config (run host proc w).2 = initialConfig proc
  ∧ assigned (run host proc w).2 = [].
Proof.
  intros H. unfold run. rewrite (main_resolved _ _ (resolvePlatform_skip _ H)).
  destruct (dispatch_trace (process_argv proc !! 2%nat) (initialState proc w))
    as (evs & -> & Hevs).
  destruct (dispatch_config (process_argv proc !! 2%nat) (initialState proc w))
    as [-> ->]. done.
Qed.

Lemma run_trace_query w :
  platformWanted proc (initialState proc w) = true →
  ∃ rest, trace (run host proc w).2 = EvExec dockerInfoCmd noOptions :: rest
          ∧ existsb isDockerInfo rest = false
          ∧ wasmOut (config (run host proc w).2) = wasmOut (initialConfig proc)
          ∧ wasmSrc (config (run host proc w).2) = wasmSrc (initialConfig proc)
          ∧ emflags (config (run host proc w).2) = emflags (initialConfig proc)
          ∧ (assigned (run host proc w).2 = []
             ∧ config (run host proc w).2 = initialConfig proc
             ∨ ∃ v, assigned (run host proc w).2 = [("platform", v)]
                    ∧ platform (config (run host proc w).2) = v).
Proof.
  intros H. unfold run.
  pose proof (resolvePlatform_query _ H) as Hq.
  destruct (shell host dockerInfoCmd noOptions (world (initialState proc w))).1
    as [e|child] eqn:E.
  - rewrite (main_unresolved _ _ _ Hq). exists []. simpl. auto 10.
  - destruct (status child =? 0).
    + rewrite (main_resolved _ _ Hq).
      match goal with |- context [dispatch host proc ?a ?s] =>
        destruct (dispatch_trace a s) as (evs & Ht & Hevs);
        destruct (dispatch_config a s) as [Hc Ha] end.
      rewrite Ht, Hc, Ha. exists evs. simpl. repeat split; try done.
      right. by eexists.
    + rewrite (main_unresolved _ _ _ Hq). exists []. simpl. auto 10.
Qed.

End Resolution.

(** *** The modes *)

Section Modes.
Context {Ext : Type} (host : Oracle Ext) (proc : Process).
Implicit Types (s : State Ext) (w : World Ext).

Lemma dispatch_prebuild s : dispatch host proc (Some "--prebuild") s = prebuildCase host s.
Proof. reflexivity. Qed.
Lemma dispatch_setup s : dispatch host proc (Some "--setup") s = setupCase host s.
Proof. reflexivity. Qed.
Lemma dispatch_docker s : dispatch host proc (Some "--docker") s = dockerCase host proc s.
Proof. reflexivity. Qed.

Lemma dispatch_default arg s :
  arg ≠ Some "--prebuild" → arg ≠ Some "--setup" → arg ≠ Some "--docker" →
  dispatch host proc arg s = defaultCase host s.
Proof.
  intros H1 H2 H3. unfold dispatch.
  by rewrite !bool_decide_eq_false_2.
Qed.

(** What [execSync] does, by how the command ends. *)
Lemma execSync_run cmd opts s :
  execSync host cmd opts s
  = let s' := mkState (config s) (shell host cmd opts (world s)).2
                      (trace s ++ [EvExec cmd opts]) (assigned s) in
    match (shell host cmd opts (world s)).1 with
    | inl error => (Threw error, s')
    | inr child =>
        if status child =? 0 then (Returned (stdout child), s')
        else (Threw (Js.childError cmd (status child)), s')
    end.
Proof.
  unfold execSync, bind, emit, getWorld, setWorld. simpl.
  destruct (shell host cmd opts (world s)) as [[e|child] w']; simpl; [done|].
  by destruct (status child =? 0).
Qed.

Lemma runDockerBuild_cmd platform wasmSrc s :
  runDockerBuild host proc platform wasmSrc s
  = bind (execSync host
            (dockerRunCmd platform (containerUser proc).1 (containerUser proc).2 wasmSrc)
            (dockerRunOptions proc wasmSrc))
         (λ _, ret tt) s.
Proof.
  unfold runDockerBuild, containerUser, dockerRunOptions.
  by destruct (String.eqb (process_platform proc) "linux").
Qed.

(** The container modes: one container command, then [process.exit(0)]. *)
Lemma container_mode_run mode cmd opts s :
  containerCommand proc (config s) mode = Some (cmd, opts) →
  dispatch host proc (Some mode) s
  = match execSync host cmd opts
            (if String.eqb mode "--prebuild"
             then mkState (config s) (world s)
                    (trace s ++ [EvLog ("> " +:+ cmd +:+ nl)]) (assigned s)
             else s) with
    | (Returned _, s') => (Exited 0, s')
    | (Threw e, s') => (Threw e, s')
    | (Exited c, s') => (Exited c, s')
    end.
Proof.
  unfold containerCommand. intros H.
  destruct (String.eqb mode "--prebuild") eqn:E1.
  - apply String.eqb_eq in E1 as ->. simplify_eq. reflexivity.
  - destruct (String.eqb mode "--docker") eqn:E2; [|done].
    apply String.eqb_eq in E2 as ->. simplify_eq.
    rewrite dispatch_docker. unfold dockerCase, bind at 1 2, getConfig. simpl.
    rewrite runDockerBuild_cmd. unfold bind.
    by destruct (execSync _ _ _ _) as [[?|?|?] ?].
Qed.

End Modes.

Section Setup.
Context {Ext : Type} (host : Oracle Ext).
Implicit Types (s : State Ext).

Lemma strictNeqString_false p t :
  Js.strictNeqString p t = false ↔ p = Js.PStr t.
Proof.
  destruct p; simpl; try (split; [done|by inversion 1]).
  rewrite negb_false_iff, String.eqb_eq. split; [by intros ->|by inversion 1].
Qed.

Lemma strictNeqString_true p t :
  Js.strictNeqString p t = true ↔ p ≠ Js.PStr t.
Proof.
  rewrite <- strictNeqString_false. by destruct (Js.strictNeqString p t).
Qed.

(** The setup mode, case by case. *)
Lemma setupCase_run s :
  let dir := Path.join [wasmSrc (config s); "build"] in
  (setupCase host s).1
  = if pathExists (fs (world s)) dir then Exited 0
    else match fsFault host (CallMkdir dir true) (world s) with
         | Some error => (setupHandler error s).1
         | None => Exited 0
         end.
Proof.
  cbv zeta. unfold setupCase, tryCatch, bind at 1, getConfig. simpl.
  unfold ensureDirectoryExists, bind at 1 2, existsSync, bind, emit, getWorld. simpl.
  destruct (pathExists _ _) eqn:E; simpl; [done|].
  unfold mkdirSync, bind, emit, getWorld. simpl.
  destruct (fsFault host _ _) as [e|]; simpl.
  { unfold setupHandler. by destruct (_ && _). }
  unfold pathExists in E. apply orb_false_iff in E as [-> ->]. done.
Qed.

End Setup.

(** *** The asset copies *)

Section Assets.
Context {Ext : Type} (host : Oracle Ext).
Implicit Types (s : State Ext) (k : M Ext unit) (pairs : list (string * string)).

Lemma copyAssets_copyAll config :
  copyAssets host config
  = copyAll host (assetCopies config)
      (writeFileSync host (Path.join [wasmOut config; "package.json"]) packageJson).
Proof. reflexivity. Qed.

Lemma copyFileSync_run src dst s :
  copyFileSync host src dst s
  = match fsFault host (CallCopy src dst) (world s) with
    | Some error => (Threw error, copied src dst s)
    | None =>
        match files (fs (world s)) !! src with
        | None => (Threw (Js.systemError "ENOENT" "copyfile" src), copied src dst s)
        | Some data =>
            (Returned tt,
             mkState (config s)
               (mkWorld (mkFs (<[dst := data]> (files (fs (world s))))
                              (dirs (fs (world s))))
                        (ext (world s)))
               (trace s ++ [EvCopy src dst]) (assigned s))
        end
    end.
Proof.
  unfold copyFileSync, bind, emit, getWorld, setWorld, copied. simpl.
  destruct (fsFault host _ _); [done|]. by destruct (_ !! _).
Qed.

Lemma copyAll_cons p pairs k s :
  copyAll host (p :: pairs) k s
  = match copyFileSync host p.1 p.2 s with
    | (Returned _, s') => copyAll host pairs k s'
    | (Threw e, s') => (Threw e, s')
    | (Exited c, s') => (Exited c, s')
    end.
Proof. reflexivity. Qed.

(** The calls of [copyAll] are an initial stretch of the copies and of
    the calls of [k] after them. *)
Lemma copyAll_trace pairs k K s :
  (∀ s0, ∃ m, trace (k s0).2 = trace s0 ++ take m K) →
  ∃ n, trace (copyAll host pairs k s).2 = trace s ++ take n (map copyEvent pairs ++ K).
Proof.
  intros Hk. revert s. induction pairs as [|p pairs IH]; intros s.
  { destruct (Hk s) as [m Hm]. by exists m. }
  rewrite copyAll_cons, copyFileSync_run.
  destruct (fsFault host _ _); [by exists 1%nat|].
  destruct (_ !! _); [|by exists 1%nat].
  destruct (IH (mkState (config s)
    (mkWorld (mkFs (<[p.2 := s0]> (files (fs (world s)))) (dirs (fs (world s))))
             (ext (world s)))
    (trace s ++ [EvCopy p.1 p.2]) (assigned s))) as [n Hn].
  exists (S n). rewrite Hn. simpl. by rewrite <- List.app_assoc.
Qed.

(** [copyAll] never ends the process, and when it returns every copy
    and [k] have run. *)
Lemma copyAll_returned pairs k K s :
  (∀ s0, (∃ e, (k s0).1 = Threw e) ∨ (k s0).1 = Returned tt ∧ trace (k s0).2 = trace s0 ++ K) →
  (∃ e, (copyAll host pairs k s).1 = Threw e)
  ∨ (copyAll host pairs k s).1 = Returned tt
    ∧ trace (copyAll host pairs k s).2 = trace s ++ map copyEvent pairs ++ K.
Proof.
  intros Hk. revert s. induction pairs as [|p pairs IH]; intros s.
  { apply Hk. }
  rewrite copyAll_cons, copyFileSync_run.
  destruct (fsFault host _ _); [left; by eexists|].
  destruct (_ !! _); [|left; by eexists].
  match goal with |- context [copyAll host pairs k ?s'] => destruct (IH s') as [He|[Hr Ht]] end;
    [by left|right].
  split; [done|]. rewrite Ht. simpl. by rewrite <- List.app_assoc.
Qed.


Lemma writeFileSync_run path data s :
  writeFileSync host path data s
  = match fsFault host (CallWrite path data) (world s) with
    | Some error =>
        (Threw error,
         mkState (config s) (world s) (trace s ++ [EvWrite path data]) (assigned s))
    | None =>
        (Returned tt,
         mkState (config s)
           (mkWorld (mkFs (<[path := data]> (files (fs (world s))))
                          (dirs (fs (world s))))
                    (ext (world s)))
           (trace s ++ [EvWrite path data]) (assigned s))
    end.
Proof.
  unfold writeFileSync, bind, emit, getWorld, setWorld. simpl.
  by destruct (fsFault host _ _).
Qed.





End Assets.

Lemma assetNames_plain : Forall (λ name, Path.plainName name = true) assetNames.
Proof. by repeat apply Forall_cons_2. Qed.

Lemma assetCopies_elem config p :
  p ∈ assetCopies config ↔
  ∃ name, name ∈ assetNames
          ∧ p = (Path.join [wasmSrc config; "lib"; "llhttp"; name],
                 Path.join [wasmOut config; name]).
Proof.
  unfold assetCopies. rewrite list_elem_of_In, in_map_iff.
  setoid_rewrite <- list_elem_of_In.
  split; intros (name & H1 & H2); exists name; by split.
Qed.






(** *** Runs that differ in the platform *)

Section Simulation.
Context {Ext : Type} (host : Oracle Ext).
Implicit Types (s : State Ext) (w : World Ext).

Lemma simM_ret {A} (a : A) : simM (ret (Ext:=Ext) a) (ret a).
Proof. by intros pre s s' H. Qed.

Lemma simM_throw {A} e : simM (throw (Ext:=Ext) (A:=A) e) (throw e).
Proof. by intros pre s s' H. Qed.

Lemma simM_processExit {A} c : simM (processExit (Ext:=Ext) (A:=A) c) (processExit c).
Proof. by intros pre s s' H. Qed.

Lemma simM_bind {A B} (m m' : M Ext A) (k k' : A → M Ext B) :
  simM m m' → (∀ a, simM (k a) (k' a)) → simM (bind m k) (bind m' k').
Proof.
  intros Hm Hk pre s s' H. unfold bind. destruct (Hm pre s s' H) as [Ho Hs].
  destruct (m s) as [[a|e|c] t], (m' s') as [[a'|e'|c'] t']; simplify_eq/=; try done.
  by apply Hk.
Qed.

Lemma simM_getConfig {A} (k k' : BuildConfig → M Ext A) :
  (∀ c c', alike c c' → simM (k c) (k' c')) →
  simM (bind getConfig k) (bind getConfig k').
Proof. intros Hk pre s s' H. unfold bind, getConfig. apply Hk; [|done]. apply H. Qed.

Lemma simM_getWorld {A} (k k' : World Ext → M Ext A) :
  (∀ w, simM (k w) (k' w)) → simM (bind getWorld k) (bind getWorld k').
Proof.
  intros Hk pre s s' H. unfold bind, getWorld.
  destruct H as (Hc & Hw & Ht). rewrite Hw. by apply Hk.
Qed.

Lemma simM_setWorld w : simM (setWorld w) (setWorld w).
Proof. intros pre s s' (Hc & Hw & Ht). split; [done|]. by split_and!. Qed.

Lemma simM_emit ev : simM (emit (Ext:=Ext) ev) (emit ev).
Proof.
  intros pre s s' (Hc & Hw & Ht). split; [done|]. split_and!; [done..|].
  simpl. by rewrite Ht, List.app_assoc.
Qed.

Lemma simM_if {A} (b : bool) (m1 m1' m2 m2' : M Ext A) :
  simM m1 m1' → simM m2 m2' → simM (if b then m1 else m2) (if b then m1' else m2').
Proof. by destruct b. Qed.

Ltac sim_tac :=
  repeat first
    [ apply simM_ret | apply simM_throw | apply simM_processExit
    | apply simM_emit | apply simM_setWorld
    | apply simM_getWorld; intros ?
    | apply simM_bind; [|intros ?]
    | apply simM_if
    | match goal with
      | |- simM (match ?x with _ => _ end) _ => destruct x
      | |- simM (let _ := _ in _) _ => cbv zeta
      end ].

Lemma simM_execSync cmd opts : simM (execSync host cmd opts) (execSync host cmd opts).
Proof. unfold execSync. sim_tac. Qed.

Lemma simM_existsSync path : simM (existsSync (Ext:=Ext) path) (existsSync path).
Proof. unfold existsSync. sim_tac. Qed.

Lemma simM_mkdirSync path r : simM (mkdirSync host path r) (mkdirSync host path r).
Proof. unfold mkdirSync. sim_tac. Qed.

Lemma simM_copyFileSync src dst : simM (copyFileSync host src dst) (copyFileSync host src dst).
Proof. unfold copyFileSync. sim_tac. Qed.

Lemma simM_writeFileSync path data :
  simM (writeFileSync host path data) (writeFileSync host path data).
Proof. unfold writeFileSync. sim_tac. Qed.

Lemma simM_ensureDirectoryExists path :
  simM (ensureDirectoryExists host path) (ensureDirectoryExists host path).
Proof.
  unfold ensureDirectoryExists.
  apply simM_bind; [apply simM_existsSync|intros found].
  apply simM_if; [apply simM_mkdirSync|apply simM_ret].
Qed.

Lemma clangCmd_alike c c' : alike c c' → clangCmd c = clangCmd c'.
Proof.
  intros (Ho & Hs & He). unfold clangCmd, clangTemplate. by rewrite Ho, Hs, He.
Qed.

Lemma simM_buildWasm c c' : alike c c' → simM (buildWasm host c) (buildWasm host c').
Proof.
  intros H. unfold buildWasm. rewrite (clangCmd_alike _ _ H).
  apply simM_bind; [apply simM_execSync|intros _; apply simM_ret].
Qed.

Lemma simM_copyAssets c c' : alike c c' → simM (copyAssets host c) (copyAssets host c').
Proof.
  intros (Ho & Hs & He). unfold copyAssets. rewrite Ho, Hs.
  repeat (apply simM_bind; [apply simM_copyFileSync|intros _]).
  apply simM_writeFileSync.
Qed.

(** The local pipeline does not read [platform]: from two states that
    differ at most in it, it ends the same way, makes the same calls and
    leaves the same world. *)
Lemma simM_defaultCase : simM (defaultCase host) (defaultCase host).
Proof.
  unfold defaultCase.
  apply simM_getConfig; intros c c' Hc. destruct (Hc) as (Ho & Hs & He). rewrite Ho.
  apply simM_bind; [apply simM_ensureDirectoryExists|intros _].
  apply simM_getConfig; intros c1 c1' (Ho1 & Hs1 & He1). rewrite Hs1.
  apply simM_bind; [apply simM_execSync|intros _].
  apply simM_getConfig; intros c2 c2' Hc2.
  apply simM_bind; [by apply simM_buildWasm|intros _].
  apply simM_getConfig; intros c3 c3' Hc3.
  by apply simM_copyAssets.
Qed.

End Simulation.

Section Fallthrough.
Context {Ext : Type} (host : Oracle Ext).
Implicit Types (s : State Ext) (w : World Ext).

Lemma dispatch_unrecognized proc arg s :
  unrecognized arg → dispatch host proc (Some arg) s = defaultCase host s.
Proof.
  intros (_ & H1 & H2 & H3). apply dispatch_default; congruence.
Qed.

Lemma dispatch_absent proc s : dispatch host proc None s = defaultCase host s.
Proof. reflexivity. Qed.

Lemma platformWanted_absent proc s :
  process_argv proc !! 2%nat = None → platformWanted proc s = false.
Proof. unfold platformWanted. intros ->. apply andb_false_r. Qed.

Lemma platformWanted_present proc arg s :
  process_argv proc !! 2%nat = Some arg → arg ≠ "" →
  platformWanted proc s = negb (truthy (platform (config s))).
Proof.
  unfold platformWanted. intros -> Hne. simpl.
  destruct arg; [done|]. apply andb_true_r.
Qed.

(** Without a mode argument the run is the local pipeline, started in
    the initial state. *)
Lemma run_absent proc w :
  process_argv proc !! 2%nat = None →
  run host proc w = defaultCase host (initialState proc w).
Proof.
  intros H. unfold run.
  rewrite (main_resolved _ _ _ _ (resolvePlatform_skip host proc _
             (platformWanted_absent proc _ H))).
  by rewrite H.
Qed.

End Fallthrough.

(** *** Directories *)

Section Directories.
Context {Ext : Type} (host : Oracle Ext).
Implicit Types (s : State Ext).

(** [ensureDirectoryExists], case by case. *)
Lemma ensureDirectoryExists_run path s :
  ensureDirectoryExists host path s
  = if pathExists (fs (world s)) path then
      (Returned tt,
       mkState (config s) (world s) (trace s ++ [EvExists path]) (assigned s))
    else
      match fsFault host (CallMkdir path true) (world s) with
      | Some error =>
          (Threw error,
           mkState (config s)
             (withDirs (world s) (leftBehind host (world s) (Path.ancestors path)))
             (trace s ++ [EvExists path; EvMkdir path true]) (assigned s))
      | None =>
          (Returned tt,
           mkState (config s)
             (withDirs (world s) (Path.ancestors path ++ [path]))
             (trace s ++ [EvExists path; EvMkdir path true]) (assigned s))
      end.
Proof.
  unfold ensureDirectoryExists, bind at 1, existsSync, bind, emit, getWorld. simpl.
  destruct (pathExists _ _) eqn:E; simpl; [done|].
  unfold mkdirSync, bind, emit, getWorld, setWorld. simpl.
  rewrite <- !List.app_assoc. simpl.
  destruct (fsFault host _ _) as [e|]; simpl; [done|].
  unfold pathExists in E. apply orb_false_iff in E as [-> ->]. done.
Qed.

Lemma pathExists_made (w : World Ext) made q :
  q ∈ made → pathExists (fs (withDirs w made)) q = true.
Proof.
  intros H. unfold pathExists. simpl. apply orb_true_iff. right.
  apply bool_decide_eq_true_2, elem_of_union. left. by apply elem_of_list_to_set.
Qed.

Lemma pathExists_created (w : World Ext) above path :
  pathExists (fs (withDirs w (above ++ [path]))) path = true.
Proof. apply pathExists_made, elem_of_app. right. by left. Qed.

Lemma pathExists_other (w : World Ext) made q :
  q ∉ made → pathExists (fs (withDirs w made)) q = pathExists (fs w) q.
Proof.
  intros H. unfold pathExists. simpl. f_equal.
  apply bool_decide_ext. rewrite elem_of_union, elem_of_list_to_set.
  split; [by intros [?|?]|by right].
Qed.

Lemma leftBehind_above (w : World Ext) above q :
  q ∈ leftBehind host w above → q ∈ above.
Proof.
  induction above as [|d rest IH]; simpl; [done|].
  destruct (fsFault host _ _); [by intros ?%elem_of_nil|].
  intros [->|H]%elem_of_cons; [by left|right; by apply IH].
Qed.

End Directories.

Section SetupEffect.
Context {Ext : Type} (host : Oracle Ext).
Implicit Types (s : State Ext).

Lemma setupHandler_run error s :
  setupHandler error s
  = (if isErrorWithCode error
        && Js.strictNeqString (Js.getProperty "code" error) "EEXIST"
     then Threw error else Exited 0, s).
Proof. unfold setupHandler. by destruct (_ && _). Qed.

(** The setup mode in terms of [ensureDirectoryExists]. *)
Lemma setupCase_ensure s :
  setupCase host s
  = match ensureDirectoryExists host (Path.join [wasmSrc (config s); "build"]) s with
    | (Returned _, s') => (Exited 0, s')
    | (Threw e, s') => setupHandler e s'
    | (Exited c, s') => (Exited c, s')
    end.
Proof.
  unfold setupCase, tryCatch, bind at 1, getConfig. simpl. unfold bind.
  by destruct (ensureDirectoryExists _ _ _) as [[[]|e|c] s'].
Qed.

End SetupEffect.

(** *** The local pipeline, step by step *)

Section Pipeline.
Context {Ext : Type} (host : Oracle Ext).
Implicit Types (s : State Ext).

Lemma ensureDirectoryExists_config path s :
  config (ensureDirectoryExists host path s).2 = config s.
Proof.
  rewrite ensureDirectoryExists_run.
  destruct (pathExists _ _); [done|]. by destruct (fsFault host _ _).
Qed.

Lemma execSync_config cmd opts s :
  config (execSync host cmd opts s).2 = config s.
Proof.
  rewrite execSync_run. cbv zeta.
  destruct (shell host cmd opts (world s)).1 as [e|child]; [done|].
  by destruct (status child =? 0).
Qed.

Lemma defaultCase_run s :
  defaultCase host s
  = match ensureDirectoryExists host (wasmOut (config s)) s with
    | (Returned _, s1) =>
        match execSync host "npm run build"
                (mkOpts (Some (wasmSrc (config s))) Inherit None) s1 with
        | (Returned _, s2) =>
            match execSync host (clangCmd (config s))
                    (mkOpts None Inherit None) s2 with
            | (Returned _, s3) => copyAssets host (config s) s3
            | (Threw e, s3) => (Threw e, s3)
            | (Exited c, s3) => (Exited c, s3)
            end
        | (Threw e, s2) => (Threw e, s2)
        | (Exited c, s2) => (Exited c, s2)
        end
    | (Threw e, s1) => (Threw e, s1)
    | (Exited c, s1) => (Exited c, s1)
    end.
Proof.
  unfold defaultCase, bind at 1, getConfig. simpl. unfold bind at 1.
  pose proof (ensureDirectoryExists_config (wasmOut (config s)) s) as H1.
  destruct (ensureDirectoryExists _ _ _) as [[[]|e|c] s1]; [|done..].
  simpl in H1. unfold bind at 1. simpl. unfold bind at 1. rewrite H1.
  pose proof (execSync_config "npm run build"
                (mkOpts (Some (wasmSrc (config s))) Inherit None) s1) as H2.
  destruct (execSync _ _ _ _) as [[out|e|c] s2]; [|done..].
  simpl in H2. unfold bind at 1. simpl. unfold buildWasm, bind at 1 2.
  rewrite H2, H1.
  pose proof (execSync_config (clangCmd (config s)) (mkOpts None Inherit None) s2) as H3.
  destruct (execSync _ _ _ _) as [[out'|e|c] s3]; [|done..].
  simpl in H3. simpl. unfold bind at 1. simpl. by rewrite H3, H2, H1.
Qed.

(** [copyAssets] makes an initial stretch of its calls, and all of them
    when it returns; it never ends the process. *)
Lemma copyAssets_calls config s :
  (∃ n, trace (copyAssets host config s).2 = trace s ++ take n (assetEvents config))
  ∧ ((∃ e, (copyAssets host config s).1 = Threw e)
     ∨ (copyAssets host config s).1 = Returned tt
       ∧ trace (copyAssets host config s).2 = trace s ++ assetEvents config).
Proof.
  rewrite copyAssets_copyAll. split.
  - apply copyAll_trace. intros s0. rewrite writeFileSync_run.
    destruct (fsFault host _ _); by exists 1%nat.
  - apply copyAll_returned. intros s0. rewrite writeFileSync_run.
    destruct (fsFault host _ _); [left; by eexists|by right].
Qed.

Lemma stretch_app (t t1 t2 A B : list Event) n :
  t1 = t ++ A → t2 = t1 ++ take n B → ∃ m, t2 = t ++ take m (A ++ B).
Proof.
  intros -> ->. exists (length A + n)%nat.
  by rewrite <- List.app_assoc, take_app_add.
Qed.

(** The pipeline after the output directory is there. *)
Lemma pipeline_tail c s :
  let generate := mkOpts (Some (wasmSrc c)) Inherit None in
  let plain := mkOpts None Inherit None in
  let rest := [EvExec "npm run build" generate; EvExec (clangCmd c) plain]
              ++ assetEvents c in
  let r := match execSync host "npm run build" generate s with
           | (Returned _, s2) =>
               match execSync host (clangCmd c) plain s2 with
               | (Returned _, s3) => copyAssets host c s3
               | (Threw e, s3) => (Threw e, s3)
               | (Exited x, s3) => (Exited x, s3)
               end
           | (Threw e, s2) => (Threw e, s2)
           | (Exited x, s2) => (Exited x, s2)
           end in
  (∃ n, trace r.2 = trace s ++ take n rest)
  ∧ ((∃ error, r.1 = Threw error)
     ∨ r.1 = Returned tt ∧ trace r.2 = trace s ++ rest).
Proof.
  cbv zeta. rewrite (execSync_run host "npm run build" _ s). cbv zeta.
  destruct (shell host "npm run build" _ (world s)).1 as [e|child].
  { split; [by exists 1%nat|left; by eexists]. }
  destruct (status child =? 0); [|split; [by exists 1%nat|left; by eexists]].
  match goal with |- context [execSync host (clangCmd c) ?o ?s2] =>
    rewrite (execSync_run host (clangCmd c) o s2); set (s' := s2) end.
  cbv zeta.
  destruct (shell host (clangCmd c) _ (world s')).1 as [e|child'].
  { split; [|left; by eexists].
    exists 2%nat. simpl. by rewrite <- List.app_assoc. }
  destruct (status child' =? 0);
    [|split; [exists 2%nat; simpl; by rewrite <- List.app_assoc|left; by eexists]].
  match goal with |- context [copyAssets host c ?s3] =>
    destruct (copyAssets_calls c s3) as [[n Hn] Hr]; revert Hn Hr;
    generalize (copyAssets host c s3) end.
  intros r Hn Hr. simpl in Hn, Hr. split.
  - eapply stretch_app; [|exact Hn]. by rewrite <- List.app_assoc.
  - destruct Hr as [?|[? Ht]]; [by left|right]. split; [done|].
    rewrite Ht. by rewrite <- !List.app_assoc.
Qed.

(** How [ensureDirectoryExists] ends, with its calls. *)
Lemma ensureDirectoryExists_cases path s :
  let r := ensureDirectoryExists host path s in
  let mk := if pathExists (fs (world s)) path then [] else [EvMkdir path true] in
  r.1 = Returned tt ∧ trace r.2 = trace s ++ EvExists path :: mk
  ∨ (∃ e, r.1 = Threw e)
    ∧ trace r.2 = trace s ++ [EvExists path; EvMkdir path true]
    ∧ mk = [EvMkdir path true].
Proof.
  cbv zeta. rewrite ensureDirectoryExists_run.
  destruct (pathExists _ _); [by left|].
  destruct (fsFault host _ _); [right|left]; eauto.
Qed.

(** The calls of the local pipeline are an initial stretch of
    [pipelineEvents], and all of it when the pipeline returns. *)
Lemma defaultCase_calls s :
  let r := defaultCase host s in
  let steps := pipelineEvents (config s)
                 (pathExists (fs (world s)) (wasmOut (config s))) in
  (∃ n, trace r.2 = trace s ++ take n steps)
  ∧ ((∃ error, r.1 = Threw error)
     ∨ r.1 = Returned tt ∧ trace r.2 = trace s ++ steps).
Proof.
  cbv zeta. rewrite defaultCase_run. unfold pipelineEvents.
  set (c := config s).
  destruct (ensureDirectoryExists_cases (wasmOut c) s) as [[Ho Hmade]|[[e Ho] [Hfail Hmk]]];
    cbv zeta in *; destruct (ensureDirectoryExists host (wasmOut c) s) as [o s1];
    simpl in *; subst o; simpl.
  2:{ split; [|left; by eexists]. exists 2%nat. by rewrite Hfail, Hmk. }
  destruct (pipeline_tail c s1) as [[n Hn] Hr]. cbv zeta in Hn, Hr. split.
  - destruct (stretch_app _ _ _ _ _ _ Hmade Hn) as [m Hm]. by exists m.
  - destruct Hr as [?|[? Ht]]; [by left|right]. split; [done|].
    rewrite Ht, Hmade. by rewrite <- List.app_assoc.
Qed.

End Pipeline.

(** *** How runs end *)

Section Endings.
Context {Ext : Type} (host : Oracle Ext) (proc : Process).
Implicit Types (s : State Ext) (w : World Ext).

(** A container mode: the state after its command, and its outcome. *)
Lemma container_mode_end mode cmd opts s :
  containerCommand proc (config s) mode = Some (cmd, opts) →
  let r := dispatch host proc (Some mode) s in
  let log := if String.eqb mode "--prebuild"
             then [EvLog ("> " +:+ cmd +:+ nl)] else [] in
  trace r.2 = trace s ++ log ++ [EvExec cmd opts]
  ∧ world r.2 = (shell host cmd opts (world s)).2
  ∧ (r.1 = Exited 0 ∨ ∃ e, r.1 = Threw e).
Proof.
  intros H. cbv zeta. rewrite (container_mode_run host proc _ _ _ _ H).
  rewrite execSync_run. cbv zeta.
  destruct (String.eqb mode "--prebuild"); simpl;
    destruct (shell host cmd opts (world s)).1 as [e|child];
    try destruct (status child =? 0); simpl;
    rewrite <- ?List.app_assoc; split_and!; eauto.
Qed.

Lemma resolvePlatform_end s :
  (resolvePlatform host proc s).1 = Returned tt
  ∨ ∃ e, (resolvePlatform host proc s).1 = Threw e.
Proof.
  destruct (platformWanted proc s) eqn:E.
  - rewrite (resolvePlatform_query _ _ _ E).
    destruct (shell host dockerInfoCmd noOptions (world s)).1 as [e|child];
      [right; by eexists|].
    destruct (status child =? 0); [by left|right; by eexists].
  - rewrite (resolvePlatform_skip _ _ _ E). by left.
Qed.

Lemma defaultCase_end s :
  (defaultCase host s).1 = Returned tt ∨ ∃ e, (defaultCase host s).1 = Threw e.
Proof.
  rewrite defaultCase_run.
  pose proof (ensureDirectoryExists_run host (wasmOut (config s)) s) as Hrun.
  destruct (ensureDirectoryExists host (wasmOut (config s)) s) as [o s1].
  assert (Ho : o = Returned tt ∨ ∃ e, o = Threw e).
  { destruct (pathExists _ _); [left; by inversion Hrun|].
    destruct (fsFault host _ _); inversion Hrun; eauto. }
  clear Hrun. destruct Ho as [->|[e ->]]; [|right; by eexists].
  destruct (pipeline_tail host (config s) s1) as [_ Hr]. cbv zeta in Hr.
  destruct Hr as [?|[? _]]; auto.
Qed.

Lemma setupCase_end s :
  (setupCase host s).1 = Exited 0 ∨ ∃ e, (setupCase host s).1 = Threw e.
Proof.
  rewrite (setupCase_run host s). cbv zeta.
  destruct (pathExists _ _); [by left|].
  destruct (fsFault host _ _) as [e|]; [|by left].
  rewrite setupHandler_run. simpl. destruct (_ && _); eauto.
Qed.

(** The three named modes end by [process.exit(0)] or by an exception;
    every other argument ends by reaching the end of the script or by an
    exception. *)
Lemma dispatch_end arg s :
  let named := [Some "--prebuild"; Some "--setup"; Some "--docker"] in
  let o := (dispatch host proc arg s).1 in
  (arg ∈ named → o = Exited 0 ∨ ∃ e, o = Threw e)
  ∧ (arg ∉ named → o = Returned tt ∨ ∃ e, o = Threw e).
Proof.
  cbv zeta. split.
  - intros H. repeat (apply elem_of_cons in H as [->|H]).
    + by apply (container_mode_end "--prebuild" _ _ s eq_refl).
    + apply setupCase_end.
    + by apply (container_mode_end "--docker" _ _ s eq_refl).
    + by apply elem_of_nil in H.
  - intros H. rewrite dispatch_default.
    + apply defaultCase_end.
    + intros ->. apply H. by left.
    + intros ->. apply H. right. by left.
    + intros ->. apply H. do 2 right. by left.
Qed.

End Endings.

(** *** The resolved platform *)

Section Trim.

Lemma headWhite_trimStart s : headWhite (trimStart s) = false.
Proof.
  induction s as [|c s IH]; simpl; [done|].
  destruct (isWhite c) eqn:E; [done|]. simpl. done.
Qed.

Lemma headWhite_trimEnd s : headWhite s = false → headWhite (trimEnd s) = false.
Proof.
  destruct s as [|c s]; simpl; [done|]. intros H.
  destruct (trimEnd s); [by rewrite H|done].
Qed.

Lemma lastWhite_trimEnd s : lastWhite (trimEnd s) = false.
Proof.
  induction s as [|c s IH]; simpl; [done|].
  destruct (trimEnd s) as [|d t]; [|done].
  destruct (isWhite c) eqn:E; [done|]. simpl. done.
Qed.

Lemma trimStart_blank s :
  noneChar (λ c, negb (isWhite c)) s = true → trimStart s = "".
Proof.
  induction s as [|c s IH]; simpl; [done|].
  intros [Hc Hs]%andb_true_iff. apply negb_true_iff, negb_false_iff in Hc.
  rewrite Hc. by apply IH.
Qed.

(** [trim] leaves no white space at either end, and nothing of a string
    that is all white space. *)
Lemma trim_ends s :
  headWhite (trim s) = false ∧ lastWhite (trim s) = false
  ∧ (noneChar (λ c, negb (isWhite c)) s = true → trim s = "").
Proof.
  unfold trim. split_and!.
  - apply headWhite_trimEnd, headWhite_trimStart.
  - apply lastWhite_trimEnd.
  - intros H. by rewrite (trimStart_blank _ H).
Qed.

End Trim.

(** *** [path.resolve] and the directories of the configuration *)

Section ResolveFacts.
Import Path.

Lemma resolveLoop_acc l acc :
  resolveLoop l acc = ((resolveLoop l "").1 +:+ acc, (resolveLoop l "").2).
Proof.
  revert acc. induction l as [|p l IH]; intros acc; simpl.
  { by rewrite app_nil_l. }
  destruct (nonEmpty p); simpl; [|apply IH].
  destruct (startsWith "/" p); simpl.
  { by rewrite !app_assoc_s, app_nil_l. }
  rewrite (IH (p +:+ "/" +:+ acc)), (IH (p +:+ "/" +:+ "")). simpl.
  by rewrite !app_assoc_s, app_nil_l.
Qed.

Lemma resolveLoop_relative p rest acc :
  nonEmpty p = true → startsWith "/" p = false →
  resolveLoop (p :: rest) acc = resolveLoop rest (p +:+ "/" +:+ acc).
Proof. intros H1 H2. simpl. by rewrite H1, H2. Qed.

(** What the loop has gathered is empty or ends with a separator. *)
Lemma resolveLoop_shape l :
  (resolveLoop l "").1 = "" ∨ ∃ p, (resolveLoop l "").1 = p +:+ "/".
Proof.
  induction l as [|p l IH]; simpl; [by left|].
  destruct (nonEmpty p); simpl; [|apply IH].
  destruct (startsWith "/" p); simpl.
  { right. exists p. by rewrite app_nil_r. }
  rewrite resolveLoop_acc. simpl. right.
  exists ((resolveLoop l "").1 +:+ p). by rewrite app_nil_r, app_assoc_s.
Qed.

Lemma resolveLoop_absolute l cwd acc :
  isAbsolute cwd = true → (resolveLoop (l ++ [cwd]) acc).2 = true.
Proof.
  intros H. revert acc. induction l as [|p l IH]; intros acc; simpl.
  - unfold isAbsolute in H. rewrite H.
    destruct cwd; [done|]. done.
  - destruct (nonEmpty p); simpl; [|apply IH].
    destruct (startsWith "/" p); [done|apply IH].
Qed.

Lemma resolve_render cwd parts :
  resolve cwd parts
  = render (resolveLoop (rev parts ++ [cwd]) "").2
      (normalizeSegments (negb (resolveLoop (rev parts ++ [cwd]) "").2) []
         (segments (resolveLoop (rev parts ++ [cwd]) "").1)) false.
Proof.
  unfold resolve, normalizeString.
  destruct (resolveLoop (rev parts ++ [cwd]) "") as [P abs]. simpl.
  pose proof (fold_ok (negb abs) (segments P) [] eq_refl) as Hok.
  apply okStack_nonEmpty in Hok. revert Hok.
  rewrite normalizeSegments_fold.
  destruct (rev (fold_left _ _ _)) as [|x N] eqn:E.
  { intros _. by destruct abs. }
  intros Hok.
  assert (Hx : nonEmpty x = true).
  { apply (f_equal (@rev _)) in E. rewrite rev_involutive in E. rewrite E in Hok.
    apply list.Forall_forall with (x := x) in Hok; [done|].
    simpl. apply elem_of_app. right. by left. }
  unfold render. rewrite app_nil_r.
  destruct abs; [done|]. rewrite app_nil_l.
  by rewrite (nonEmpty_joinWith "/" x N Hx).
Qed.

Lemma render_nonEmpty absolute comps trailing :
  Forall (λ s, nonEmpty s = true) comps → render absolute comps trailing ≠ "".
Proof.
  intros H. destruct comps as [|x N]; simpl.
  { by destruct absolute, trailing. }
  apply nonEmpty_true. destruct absolute.
  - by apply nonEmpty_app_l.
  - rewrite app_nil_l. apply nonEmpty_app_l, nonEmpty_joinWith.
    by inversion H.
Qed.

(** The components of a resolved path, from what the loop gathered. *)
Lemma resolve_components cwd parts :
  let found := resolveLoop (rev parts ++ [cwd]) "" in
  components (resolve cwd parts)
  = rev (fold_left (pushSegment (negb found.2)) (segments found.1) [])
  ∧ isAbsolute (resolve cwd parts) = found.2
  ∧ resolve cwd parts ≠ "".
Proof.
  cbv zeta. rewrite resolve_render, normalizeSegments_fold.
  set (abs := (resolveLoop (rev parts ++ [cwd]) "").2).
  set (P := (resolveLoop (rev parts ++ [cwd]) "").1).
  pose proof (fold_ok (negb abs) (segments P) [] eq_refl) as Hok.
  assert (Hfree : Forall slashFree (fold_left (pushSegment (negb abs)) (segments P) [])).
  { apply fold_Forall; [done|]. apply splitBy_pieces. }
  destruct (render_components abs
              (rev (fold_left (pushSegment (negb abs)) (segments P) [])) false)
    as [Hc Ha].
  - by rewrite rev_involutive.
  - by apply Forall_rev.
  - split_and!; [done..|].
    apply render_nonEmpty, Forall_rev. by apply okStack_nonEmpty in Hok.
Qed.

(** The stack of a path under a last argument [x] that is relative. *)
Lemma resolve_under cwd d x :
  nonEmpty x = true → startsWith "/" x = false →
  ∃ absolute stack,
    okStack (negb absolute) stack = true
    ∧ (isAbsolute cwd = true → absolute = true)
    ∧ components (resolve cwd [d; x])
      = rev (fold_left (pushSegment (negb absolute)) (segments (x +:+ "/")) stack)
    ∧ isAbsolute (resolve cwd [d; x]) = absolute
    ∧ resolve cwd [d; x] ≠ ""
    ∧ ∀ y, nonEmpty y = true → startsWith "/" y = false →
        components (resolve cwd [d; y])
        = rev (fold_left (pushSegment (negb absolute)) (segments (y +:+ "/")) stack)
        ∧ isAbsolute (resolve cwd [d; y]) = absolute.
Proof.
  intros Hx Hs.
  set (found := resolveLoop ([d] ++ [cwd]) "").
  assert (Hloop : ∀ y, nonEmpty y = true → startsWith "/" y = false →
            resolveLoop (rev [d; y] ++ [cwd]) "" = (found.1 +:+ (y +:+ "/"), found.2)).
  { intros y Hy Hsy. change (rev [d; y] ++ [cwd]) with (y :: ([d] ++ [cwd])).
    rewrite (resolveLoop_relative y _ _ Hy Hsy), resolveLoop_acc.
    by rewrite app_nil_r. }
  assert (Hsegs : ∃ stack, okStack (negb found.2) stack = true
            ∧ ∀ tail, fold_left (pushSegment (negb found.2))
                        (segments (found.1 +:+ tail)) []
                      = fold_left (pushSegment (negb found.2)) (segments tail) stack).
  { destruct (resolveLoop_shape ([d] ++ [cwd])) as [E|[p E]]; fold found in E.
    - exists []. split; [done|]. intros tail. by rewrite E, app_nil_l.
    - exists (fold_left (pushSegment (negb found.2)) (segments p) []).
      split; [by apply fold_ok|]. intros tail. rewrite E, app_assoc_s.
      change ("/" +:+ tail) with (String "/" tail).
      unfold segments. rewrite splitBy_app by done. by rewrite fold_left_app. }
  destruct Hsegs as (stack & Hok & Hfold).
  exists found.2, stack.
  assert (Hall : ∀ y, nonEmpty y = true → startsWith "/" y = false →
            components (resolve cwd [d; y])
            = rev (fold_left (pushSegment (negb found.2)) (segments (y +:+ "/")) stack)
            ∧ isAbsolute (resolve cwd [d; y]) = found.2
            ∧ resolve cwd [d; y] ≠ "").
  { intros y Hy Hsy.
    destruct (resolve_components cwd [d; y]) as (Hc & Ha & Hn).
    cbv zeta in Hc, Ha. rewrite (Hloop y Hy Hsy) in Hc, Ha. simpl in Hc, Ha.
    rewrite Hfold in Hc. done. }
  split_and!; try done.
  - intros Hcwd. apply (resolveLoop_absolute [d] cwd "" Hcwd).
  - by apply Hall.
  - by apply Hall.
  - by apply Hall.
  - intros y Hy Hsy. split; by apply Hall.
Qed.

(** The two directories of the configuration: the output directory is
    [build/wasm] under the source root. *)
Lemma config_paths proc :
  let c := initialConfig proc in
  components (wasmOut c) = components (wasmSrc c) ++ ["build"; "wasm"]
  ∧ isAbsolute (wasmOut c) = isAbsolute (wasmSrc c)
  ∧ wasmSrc c ≠ "" ∧ wasmOut c ≠ ""
  ∧ (isAbsolute (process_cwd proc) = true → isAbsolute (wasmSrc c) = true).
Proof.
  cbv zeta. simpl.
  destruct (resolve_under (process_cwd proc) (dirname proc) "../build/wasm"
              eq_refl eq_refl)
    as (abs & stack & Hok & Habs & Hc & Ha & Hn & Hother).
  destruct (Hother "../" eq_refl eq_refl) as [Hc' Ha'].
  destruct (resolve_components (process_cwd proc) [dirname proc; "../"])
    as (_ & _ & Hn').
  rewrite Hc, Ha, Hc', Ha'.
  change (segments ("../build/wasm" +:+ "/")) with ["..";"build";"wasm";""].
  change (segments ("../" +:+ "/")) with ["..";"";""].
  simpl fold_left.
  set (st := pushSegment (negb abs) stack "..").
  change (pushSegment (negb abs) (pushSegment (negb abs) st "") "") with st.
  change (pushSegment (negb abs)
            (pushSegment (negb abs) (pushSegment (negb abs) st "build") "wasm") "")
    with ("wasm" :: "build" :: st).
  simpl. rewrite <- List.app_assoc. by split_and!.
Qed.

End ResolveFacts.

(** *** What the asset copies leave alone *)

Section AssetFrame.
Context {Ext : Type} (host : Oracle Ext).
Implicit Types (s : State Ext) (k : M Ext unit) (pairs : list (string * string)).

(** [copyAll] writes nothing but its destinations and what [k] writes,
    however it ends; it makes and removes no directory and no file. *)
Lemma copyAll_untouched pairs k s (written : string → Prop) :
  (∀ q, q ∈ pairs → written q.2) →
  (∀ s0,
     dirs (fs (world (k s0).2)) = dirs (fs (world s0))
     ∧ ext (world (k s0).2) = ext (world s0)
     ∧ (∀ path, ¬ written path →
          files (fs (world (k s0).2)) !! path = files (fs (world s0)) !! path)
     ∧ (∀ path, is_Some (files (fs (world s0)) !! path) →
          is_Some (files (fs (world (k s0).2)) !! path))) →
  let r := copyAll host pairs k s in
  dirs (fs (world r.2)) = dirs (fs (world s))
  ∧ ext (world r.2) = ext (world s)
  ∧ (∀ path, ¬ written path →
       files (fs (world r.2)) !! path = files (fs (world s)) !! path)
  ∧ (∀ path, is_Some (files (fs (world s)) !! path) →
       is_Some (files (fs (world r.2)) !! path)).
Proof.
  intros Hw Hk. cbv zeta. revert s Hw.
  induction pairs as [|q pairs IH]; intros s Hw; [apply Hk|].
  rewrite copyAll_cons, copyFileSync_run.
  destruct (fsFault host _ _); [by split_and!|].
  destruct (_ !! q.1) as [data|]; [|by split_and!].
  match goal with |- context [copyAll host pairs k ?s'] =>
    destruct (IH s') as (Hd & He & Hf & Hs) end.
  { intros q' Hq'. apply Hw. by right. }
  simpl in Hd, He, Hf, Hs. split_and!; [done..| |].
  - intros path Hp. rewrite (Hf path Hp). apply lookup_insert_ne.
    intros <-. apply Hp, Hw. by left.
  - intros path Hp. apply Hs.
    destruct (decide (q.2 = path)) as [<-|Hne].
    + by rewrite lookup_insert_eq.
    + by rewrite lookup_insert_ne.
Qed.

End AssetFrame.

(** The components of a path joined from a directory and plain names. *)
Lemma join_under dir names :
  dir ≠ "" → Forall (λ f, Path.plainName f = true) names →
  Path.components (Path.join (dir :: names)) = Path.components dir ++ names.
Proof.
  intros Hd. induction names as [|f names IH] using rev_ind; intros Hn.
  - destruct (join_components [dir]) as [-> _]. rewrite List.app_nil_r.
    by destruct dir.
  - apply Forall_app in Hn as [Hn Hf]. apply Forall_inv in Hf.
    destruct (join_child (dir :: names) f Hf) as [Hc _].
    change ((dir :: names) ++ [f]) with (dir :: (names ++ [f])) in Hc.
    rewrite Hc, (IH Hn). by rewrite <- List.app_assoc.
Qed.

(** With the directories of the configuration, no source of a copy is
    written by [copyAssets]. *)
Lemma sources_not_written proc config name :
  wasmSrc config = wasmSrc (initialConfig proc) →
  wasmOut config = wasmOut (initialConfig proc) →
  name ∈ assetNames →
  Path.join [wasmSrc config; "lib"; "llhttp"; name]
  ∉ Path.join [wasmOut config; "package.json"] :: (assetCopies config).*2.
Proof.
  intros Hs Ho Hname Hin.
  destruct (config_paths proc) as (Hc & _ & Hsrc & Hout & _). cbv zeta in *.
  rewrite <- Hs, <- Ho in Hc. rewrite <- Hs in Hsrc. rewrite <- Ho in Hout.
  pose proof assetNames_plain as Hplain. rewrite list.Forall_forall in Hplain.
  assert (Hsource : Path.components (Path.join [wasmSrc config; "lib"; "llhttp"; name])
                    = Path.components (wasmSrc config) ++ ["lib"; "llhttp"; name]).
  { apply join_under; [done|]. repeat constructor. by apply Hplain. }
  assert (Hdest : ∀ f, Path.plainName f = true →
            Path.components (Path.join [wasmOut config; f])
            = Path.components (wasmSrc config) ++ ["build"; "wasm"; f]).
  { intros f Hf. rewrite join_under; [|done|by repeat constructor].
    rewrite Hc. by rewrite <- List.app_assoc. }
  apply elem_of_cons in Hin as [Heq|Hin].
  - rewrite Heq, (Hdest "package.json" eq_refl) in Hsource.
    by apply app_inv_head in Hsource.
  - apply list_elem_of_fmap in Hin as (p & Heq & (n & Hn & ->)%assetCopies_elem).
    cbn [snd] in Heq. rewrite Heq, (Hdest n (Hplain _ Hn)) in Hsource.
    by apply app_inv_head in Hsource.
Qed.

(** *** The words of the compiler command *)

Section Words.

Lemma lastWhite_unsnoc a :
  lastWhite a = true → ∃ a' c, a = a' +:+ String c "" ∧ isWhite c = true.
Proof.
  intros H. destruct (unsnoc a) as (a' & c & ->).
  { by intros ->. }
  exists a', c. split; [done|]. by rewrite lastWhite_snoc in H.
Qed.

Lemma tokens_app_r a b :
  lastWhite a = true → tokens (a +:+ b) = tokens a ++ tokens b.
Proof.
  intros (a' & c & -> & Hc)%lastWhite_unsnoc.
  rewrite app_assoc_s, app_cons, app_nil_l, !(tokens_app c) by done.
  by rewrite tokens_nil, List.app_nil_r.
Qed.

Lemma tokens_app_l a b :
  headWhite b = true → tokens (a +:+ b) = tokens a ++ tokens b.
Proof.
  destruct b as [|c b]; [done|]. simpl. intros Hc.
  rewrite (tokens_app c a b Hc).
  rewrite <- (app_nil_l (String c b)), (tokens_app c "" b Hc). by rewrite tokens_nil.
Qed.

Lemma tokens_continued text : tokens (continued text) = tokens text.
Proof.
  unfold continued. rewrite (tokens_app_r "      ") by done.
  rewrite (tokens_app_l text " ") by done.
  change (tokens "      ") with (@nil string). change (tokens " ") with (@nil string).
  by rewrite List.app_nil_r.
Qed.

Lemma lastWhite_app a b : nonEmpty b = true → lastWhite (a +:+ b) = lastWhite b.
Proof.
  intros Hb. induction a as [|c a IH]; [by rewrite app_nil_l|].
  rewrite app_cons. simpl. rewrite IH.
  destruct (a +:+ b) eqn:E; [|done].
  apply app_eq_nil in E as [_ ->]. done.
Qed.

Lemma lastWhite_continued text : lastWhite (continued text) = true.
Proof.
  unfold continued. rewrite lastWhite_app; [|by apply nonEmpty_app_r].
  by rewrite lastWhite_app.
Qed.

(** The words of the command, by its parts. *)
Lemma tokens_clangCmd config :
  tokens (clangCmd config)
  = tokens clangFixed ++ tokens (emflags config) ++ tokens clangExplicit
    ++ tokens (Path.join [wasmSrc config; "build"; "c"] +:+ "/*.c")
    ++ tokens (Path.join [wasmSrc config; "src"; "native"] +:+ "/*.c")
    ++ tokens ("-I" +:+ Path.join [wasmSrc config; "build"])
    ++ "-o" :: tokens (Path.join [wasmOut config; "llhttp.wasm"]).
Proof.
  rewrite clangCmd_parts.
  rewrite (tokens_app_r clangFixed) by done. f_equal.
  rewrite (tokens_app_r (continued _)) by apply lastWhite_continued.
  rewrite tokens_continued. f_equal.
  rewrite (tokens_app_r clangExplicit) by done. f_equal.
  unfold clangInputs. rewrite !app_assoc_s.
  rewrite (tokens_app_r (continued _)) by apply lastWhite_continued.
  rewrite tokens_continued. f_equal.
  rewrite (tokens_app_r (continued _)) by apply lastWhite_continued.
  rewrite tokens_continued. f_equal.
  rewrite (tokens_app_r (continued _)) by apply lastWhite_continued.
  rewrite tokens_continued. f_equal.
Qed.

Lemma splitBy_noneChar (q p : ascii → bool) s :
  noneChar q s = true → Forall (λ w, noneChar q w = true) (splitBy p s).
Proof.
  induction s as [|c s IH]; simpl; [by repeat constructor|].
  intros [Hc Hs]%andb_true_iff. specialize (IH Hs).
  destruct (p c); [by constructor|].
  destruct (splitBy p s) as [|piece rest]; [repeat constructor; simpl; by rewrite Hc|].
  inversion IH; subst. constructor; [|done]. simpl. by rewrite Hc.
Qed.

Lemma joinWith_noneChar (q : ascii → bool) sep l :
  noneChar q sep = true → Forall (λ w, noneChar q w = true) l →
  noneChar q (joinWith sep l) = true.
Proof.
  intros Hsep. induction 1 as [|x l Hx Hl IH]; [done|].
  destruct l as [|y l]; [done|].
  rewrite joinWith_cons2, !noneChar_app, Hx, Hsep. simpl. exact IH.
Qed.

(** [path.join] brings in no character beyond those of its arguments,
    the separator and the dot. *)
Lemma join_noneChar (q : ascii → bool) parts :
  q "/"%char = false → q "."%char = false →
  Forall (λ w, noneChar q w = true) parts →
  noneChar q (Path.join parts) = true.
Proof.
  intros Hslash Hdot Hparts. rewrite join_joined.
  destruct (nonEmpty (Path.joined parts)) eqn:E; simpl; [|by rewrite Hdot].
  apply nonEmpty_true in E. rewrite (normalize_render _ E).
  assert (Hj : noneChar q (Path.joined parts) = true).
  { apply joinWith_noneChar; [simpl; by rewrite Hslash|].
    apply list.Forall_forall. intros w [_ Hw]%list_elem_of_filter.
    by apply (proj1 (list.Forall_forall _ _) Hparts). }
  assert (Hc : Forall (λ w, noneChar q w = true) (Path.components (Path.joined parts))).
  { rewrite components_stack. apply Forall_rev.
    apply fold_Forall; [done|]. by apply splitBy_noneChar. }
  revert Hc.
  generalize (Path.components (Path.joined parts))
             (Path.isAbsolute (Path.joined parts))
             (endsWith "/" (Path.joined parts)).
  intros comps absolute trailing Hc. unfold Path.render.
  destruct comps as [|x comps].
  { destruct absolute, trailing; simpl; by rewrite ?Hslash, ?Hdot. }
  rewrite !noneChar_app, (joinWith_noneChar q "/" (x :: comps));
    [|simpl; by rewrite Hslash|done].
  destruct absolute, trailing; simpl; by rewrite ?Hslash.
Qed.

Lemma join_nonEmpty parts : nonEmpty (Path.join parts) = true.
Proof.
  rewrite join_joined.
  destruct (nonEmpty (Path.joined parts)) eqn:E; simpl; [|done].
  apply nonEmpty_true in E. rewrite (normalize_render _ E).
  apply nonEmpty_true, render_nonEmpty, components_nonEmpty.
Qed.

(** A path joined from white-free parts is one word, also with text
    after it or before it. *)
Lemma tokens_join parts after :
  noneChar isWhite after = true →
  Forall (λ w, noneChar isWhite w = true) parts →
  tokens (Path.join parts +:+ after) = [Path.join parts +:+ after].
Proof.
  intros Ha Hp. apply tokens_single.
  - apply nonEmpty_app_l, join_nonEmpty.
  - by rewrite noneChar_app, Ha, (join_noneChar isWhite parts).
Qed.

Lemma tokens_join_alone parts :
  Forall (λ w, noneChar isWhite w = true) parts →
  tokens (Path.join parts) = [Path.join parts].
Proof.
  intros Hp. apply tokens_single; [apply join_nonEmpty|].
  by apply (join_noneChar isWhite parts).
Qed.

Lemma tokens_join_after before parts :
  noneChar isWhite before = true →
  Forall (λ w, noneChar isWhite w = true) parts →
  tokens (before +:+ Path.join parts) = [before +:+ Path.join parts].
Proof.
  intros Hb Hp. apply tokens_single.
  - apply nonEmpty_app_r, join_nonEmpty.
  - by rewrite noneChar_app, Hb, (join_noneChar isWhite parts).
Qed.

End Words.

(** *** The fields the shell makes of the compiler command *)

Section ShellFacts.

Lemma noneChar_mono (p q : ascii → bool) s :
  (∀ c, q c = true → p c = true) → noneChar p s = true → noneChar q s = true.
Proof.
  intros H. induction s as [|c s IH]; simpl; [done|].
  intros [Hc Hs]%andb_true_iff. rewrite (IH Hs), andb_true_r.
  destruct (q c) eqn:E; [|done]. by rewrite (H c E) in Hc.
Qed.

Lemma splitBy_ext (p q r : ascii → bool) s :
  (∀ c, r c = false → p c = q c) → noneChar r s = true →
  splitBy p s = splitBy q s.
Proof.
  intros H. induction s as [|c s IH]; simpl; [done|].
  intros [Hc Hs]%andb_true_iff. apply negb_true_iff in Hc.
  by rewrite (H c Hc), (IH Hs).
Qed.

(** Among the characters of a simple command line, the white space is
    the blanks. *)
Lemma blank_white c :
  negb (Sh.isLiteral c || Sh.isGlob c || Sh.isBlank c) = false →
  Sh.isBlank c = isWhite c.
Proof. destruct c as [[] [] [] [] [] [] [] []]; by vm_compute. Qed.

Lemma fields_tokens cmd : Sh.simple cmd = true → Sh.fields cmd = Some (tokens cmd).
Proof.
  intros H. unfold Sh.fields, tokens. rewrite H. do 2 f_equal.
  by apply (splitBy_ext _ _ _ _ blank_white).
Qed.

Lemma fields_simple cmd words :
  Sh.fields cmd = Some words → Sh.simple cmd = true ∧ words = tokens cmd.
Proof.
  intros H. destruct (Sh.simple cmd) eqn:E.
  - rewrite (fields_tokens _ E) in H. by inversion H.
  - unfold Sh.fields in H. by rewrite E in H.
Qed.

Lemma literal_simple w : Sh.literal w = true → Sh.simple w = true.
Proof.
  apply noneChar_mono. intros c H. apply negb_true_iff in H.
  apply orb_false_iff in H as [H _]. apply orb_false_iff in H as [H _].
  by rewrite H.
Qed.

Lemma literal_white w : Sh.literal w = true → noneChar isWhite w = true.
Proof.
  apply noneChar_mono. intros c.
  destruct c as [[] [] [] [] [] [] [] []]; by vm_compute.
Qed.

Lemma literal_glob w : Sh.literal w = true → noneChar Sh.isGlob w = true.
Proof.
  apply noneChar_mono. intros c.
  destruct c as [[] [] [] [] [] [] [] []]; by vm_compute.
Qed.

Lemma simple_app a b : Sh.simple (a +:+ b) = Sh.simple a && Sh.simple b.
Proof. apply noneChar_app. Qed.

Lemma simple_continued text : Sh.simple (continued text) = Sh.simple text.
Proof.
  unfold continued. rewrite !simple_app.
  change (Sh.simple "      ") with true. change (Sh.simple " ") with true.
  by rewrite andb_true_r.
Qed.

Lemma simple_join parts :
  Forall (λ w, Sh.literal w = true) parts → Sh.simple (Path.join parts) = true.
Proof.
  intros H. apply join_noneChar; [done..|].
  eapply Forall_impl; [exact H|]. intros w. apply literal_simple.
Qed.

Lemma glob_join parts :
  Forall (λ w, Sh.literal w = true) parts →
  Sh.isPattern (Path.join parts) = false.
Proof.
  intros H. unfold Sh.isPattern. apply negb_false_iff.
  apply join_noneChar; [done..|].
  eapply Forall_impl; [exact H|]. intros w. apply literal_glob.
Qed.

Lemma white_join parts :
  Forall (λ w, Sh.literal w = true) parts →
  Forall (λ w, noneChar isWhite w = true) parts.
Proof.
  intros H. eapply Forall_impl; [exact H|]. intros w. apply literal_white.
Qed.

(** The compiler command is a simple command line when the directories
    and the flag string are. *)
Lemma simple_clangCmd config :
  Sh.literal (wasmSrc config) = true → Sh.literal (wasmOut config) = true →
  Sh.simple (emflags config) = true → Sh.simple (clangCmd config) = true.
Proof.
  intros Hs Ho He. rewrite clangCmd_parts. unfold clangInputs.
  rewrite !simple_app, !simple_continued, !simple_app, He.
  rewrite !simple_join by (by repeat constructor).
  done.
Qed.

End ShellFacts.

Section CompilerFields.

(** The fields of the compiler command, for directories of literal
    characters and a flag string that is a simple command line. *)
Lemma fields_clangCmd config flags :
  Sh.literal (wasmSrc config) = true → Sh.literal (wasmOut config) = true →
  Sh.fields (emflags config) = Some flags →
  Sh.fields (clangCmd config)
  = Some (tokens clangFixed ++ flags ++ tokens clangExplicit
          ++ [Path.join [wasmSrc config; "build"; "c"] +:+ "/*.c";
              Path.join [wasmSrc config; "src"; "native"] +:+ "/*.c";
              "-I" +:+ Path.join [wasmSrc config; "build"];
              "-o"; Path.join [wasmOut config; "llhttp.wasm"]]).
Proof.
  intros Hs Ho [He ->]%fields_simple.
  rewrite (fields_tokens _ (simple_clangCmd config Hs Ho He)), tokens_clangCmd.
  rewrite (tokens_join [wasmSrc config; "build"; "c"] "/*.c"),
    (tokens_join [wasmSrc config; "src"; "native"] "/*.c"),
    (tokens_join_after "-I" [wasmSrc config; "build"]),
    (tokens_join_alone [wasmOut config; "llhttp.wasm"]);
    try done; apply white_join; by repeat constructor.
Qed.

Lemma pattern_suffix path : Sh.isPattern (path +:+ "/*.c") = true.
Proof.
  unfold Sh.isPattern. rewrite noneChar_app.
  change (noneChar Sh.isGlob "/*.c") with false. by rewrite andb_false_r.
Qed.

End CompilerFields.

(** *** The setup mode and the platform *)

Section SetupPlatform.
Context {Ext : Type} (host : Oracle Ext).
Implicit Types (s : State Ext) (w : World Ext).

Lemma simM_tryCatch {A} (body body' : M Ext A) handler handler' :
  simM body body' → (∀ e, simM (handler e) (handler' e)) →
  simM (tryCatch body handler) (tryCatch body' handler').
Proof.
  intros Hm Hk pre s s' H. unfold tryCatch. destruct (Hm pre s s' H) as [Ho Hs].
  destruct (body s) as [[a|e|c] t], (body' s') as [[a'|e'|c'] t'];
    simplify_eq/=; try done.
  by apply Hk.
Qed.

Lemma simM_setupHandler e : simM (setupHandler (Ext:=Ext) e) (setupHandler e).
Proof. unfold setupHandler. destruct (_ && _); [apply simM_throw|apply simM_processExit]. Qed.

(** The setup mode does not read [platform]. *)
Lemma simM_setupCase : simM (setupCase host) (setupCase host).
Proof.
  unfold setupCase. apply simM_tryCatch; [|apply simM_setupHandler].
  apply simM_getConfig; intros c c' (Ho & Hs & He). rewrite Hs.
  apply simM_bind; [apply simM_ensureDirectoryExists|intros _].
  apply simM_processExit.
Qed.

(** The calls of the setup mode. *)
Lemma setupCase_trace s :
  let dir := Path.join [wasmSrc (config s); "build"] in
  trace (setupCase host s).2 = trace s ++ [EvExists dir]
  ∨ trace (setupCase host s).2 = trace s ++ [EvExists dir; EvMkdir dir true].
Proof.
  cbv zeta. rewrite setupCase_ensure, ensureDirectoryExists_run.
  destruct (pathExists _ _); [by left|].
  destruct (fsFault host _ _); [|by right].
  rewrite setupHandler_run. by right.
Qed.

End SetupPlatform.

(** *** Where the script reads and writes *)

Section Confinement.
Context {Ext : Type} (host : Oracle Ext) (proc : Process).
Implicit Types (s : State Ext) (w : World Ext).






End Confinement.

(* ===================================================================== *)
(** ** The claims of the specification *)
(* ===================================================================== *)

(** C1.  The flag string of the configuration gives the initial and the
    maximal memory the value of [WASM_MEMORY_SIZE], 16 MiB, and the stack
    size the value of [STACK_SIZE], 2 MiB, each exactly once; the flags
    written out in the compiler command give the maximal memory the same
    16 MiB and the global base the value of [GLOBAL_BASE], 4 MiB, and they
    are part of the command whatever the configuration. *)
Theorem memory_layout_flags (proc : Process) :
  let flags := emflags (initialConfig proc) in
  let memory := Js.numberToString WASM_MEMORY_SIZE in
  let stack := Js.numberToString STACK_SIZE in
  let base := Js.numberToString GLOBAL_BASE in
  (WASM_MEMORY_SIZE = 16 * 2 ^ 20 ∧ STACK_SIZE = 2 * 2 ^ 20
   ∧ GLOBAL_BASE = 4 * 2 ^ 20)
  ∧ (memory = "16777216" ∧ stack = "2097152" ∧ base = "4194304")
  ∧ flagValues "-Wl,--initial-memory=" flags = [memory]
  ∧ flagValues "-Wl,--max-memory=" flags = [memory]
  ∧ flagValues "-Wl,-z,stack-size=" flags = [stack]
  ∧ flagValues "-Wl,--max-memory=" clangExplicit = [memory]
  ∧ flagValues "-Wl,--global-base=" clangExplicit = [base]
  ∧ (∀ config,
       hasFlag ("-Wl,--max-memory=" +:+ memory) (clangCmd config) = true
       ∧ hasFlag ("-Wl,--global-base=" +:+ base) (clangCmd config) = true
       ∧ ∃ before after, clangCmd config = before +:+ clangExplicit +:+ after).
Proof.
  cbv zeta. split_and!; try (vm_compute; reflexivity).
  intros config. split_and!.
  - by apply hasFlag_clangExplicit.
  - by apply hasFlag_clangExplicit.
  - eexists _, _. apply clangCmd_around_explicit.
Qed.

(** C2 (as amended).  [buildWasm] runs one command, whatever the
    configuration.  When the source root and the output directory hold
    only characters that the shell takes literally, and the flag string
    nothing but such characters, patterns and blanks, the shell runs
    [clang] with arguments that end with [-o] and the file [llhttp.wasm]
    directly in the output directory, a word that is no pattern and so
    reaches the compiler as it is; before them stand the flags for no
    entry point, imported memory, the stack first, the exports of
    [malloc], [free] and the table, and undefined symbols allowed; and
    with the flag string of the script no other [-o] stands among
    them. *)
Theorem buildWasm_command {Ext} (host : Oracle Ext) (config : BuildConfig)
    (s : State Ext) :
  let r := buildWasm host config s in
  let target := Path.join [wasmOut config; "llhttp.wasm"] in
  trace r.2 = trace s ++ [EvExec (clangCmd config) (mkOpts None Inherit None)]
  ∧ (Sh.literal (wasmSrc config) = true →
     Sh.literal (wasmOut config) = true →
     Sh.simple (emflags config) = true →
     ∃ front,
       Sh.command (clangCmd config) = Some ("clang", front ++ ["-o"; target])
       ∧ Forall (λ flag, flag ∈ front)
           ["-Wl,--no-entry"; "-Wl,--import-memory"; "-Wl,--stack-first";
            "-Wl,--export=malloc"; "-Wl,--export=free"; "-Wl,--export-table";
            "-Wl,--allow-undefined"]
       ∧ Sh.isPattern target = false
       ∧ (∀ proc, emflags config = emflags (initialConfig proc) →
            "-o" ∉ front))
  ∧ (∃ before, clangCmd config = before +:+ " -o " +:+ target)
  ∧ Path.childOf target (wasmOut config) "llhttp.wasm"
  ∧ Path.basename target = "llhttp.wasm".
Proof.
  cbv zeta. split_and!.
  - unfold buildWasm, bind. rewrite execSync_run. cbv zeta.
    destruct (shell host _ _ (world s)).1 as [e|child]; [done|].
    by destruct (status child =? 0).
  - intros Hs Ho He.
    exists (tail (tokens clangFixed) ++ tokens (emflags config)
            ++ tokens clangExplicit
            ++ [Path.join [wasmSrc config; "build"; "c"] +:+ "/*.c";
                Path.join [wasmSrc config; "src"; "native"] +:+ "/*.c";
                "-I" +:+ Path.join [wasmSrc config; "build"]]).
    split_and!.
    + unfold Sh.command.
      rewrite (fields_clangCmd config (tokens (emflags config)) Hs Ho
                 (fields_tokens _ He)).
      change (tokens clangFixed) with ("clang" :: tail (tokens clangFixed)).
      cbn [app]. rewrite <- !List.app_assoc. reflexivity.
    + apply list.Forall_forall. intros flag Hflag.
      rewrite !elem_of_app. right. right. left.
      revert flag Hflag. apply list.Forall_forall.
      repeat apply Forall_cons_2; try apply Forall_nil_2;
        by apply (bool_decide_unpack _).
    + apply glob_join. by repeat constructor.
    + intros proc ->. rewrite !elem_of_app.
      intros [H|[H|[H|H]]].
      * revert H. by apply (bool_decide_eq_false_1 _).
      * revert H. by apply (bool_decide_eq_false_1 _).
      * revert H. by apply (bool_decide_eq_false_1 _).
      * repeat (apply elem_of_cons in H as [H|H]).
        -- pose proof (pattern_suffix (Path.join [wasmSrc config; "build"; "c"])) as Hp.
           by rewrite <- H in Hp.
        -- pose proof (pattern_suffix (Path.join [wasmSrc config; "src"; "native"])) as Hp.
           by rewrite <- H in Hp.
        -- change ("-I" +:+ ?p) with (String "-" (String "I" p)) in H.
           by inversion H.
        -- by apply elem_of_nil in H.
  - eexists. rewrite clangCmd_parts. by rewrite <- !app_assoc_s.
  - by apply join_dir.
  - by apply (basename_join [wasmOut config]).
Qed.

(** C2, witness: the command of a checkout at [/repo]. *)
Lemma buildWasm_command_witness :
  let config := initialConfig (Scenario.processOf None None "linux") in
  Sh.literal (wasmSrc config) = true
  ∧ Sh.literal (wasmOut config) = true
  ∧ Sh.simple (emflags config) = true
  ∧ ∃ front, Sh.command (clangCmd config)
             = Some ("clang", front ++ ["-o"; "/repo/build/wasm/llhttp.wasm"]).
Proof.
  cbv zeta. split; [reflexivity|]. split; [reflexivity|]. split; [reflexivity|].
  destruct (proj1 (proj2 (buildWasm_command Scenario.calmHost
              (initialConfig (Scenario.processOf None None "linux"))
              (initialState (Scenario.processOf None None "linux")
                 Scenario.emptyWorld)))
              eq_refl eq_refl eq_refl) as (front & H & _).
  exists front. exact H.
Defined.

(** C2, counterexample.  A checkout at [/tmp/my repo].  The output
    directory holds a blank, the shell splits the output path at it, and
    the word after [-o] is [/tmp/my]: the compiler is not told to write
    [llhttp.wasm] in the output directory, and that file is none of its
    arguments. *)
Lemma output_path_with_blank :
  let config := initialConfig (Scenario.processAt "/tmp/my repo") in
  let target := Path.join [wasmOut config; "llhttp.wasm"] in
  let args := from_option snd [] (Sh.command (clangCmd config)) in
  wasmOut config = "/tmp/my repo/build/wasm"
  ∧ target = "/tmp/my repo/build/wasm/llhttp.wasm"
  ∧ from_option fst "" (Sh.command (clangCmd config)) = "clang"
  ∧ drop (length args - 3) args = ["-o"; "/tmp/my"; "repo/build/wasm/llhttp.wasm"]
  ∧ bool_decide (target ∈ args) = false.
Proof. cbv zeta. split_and!; vm_compute; reflexivity. Qed.



(** C4 (as amended).  Take two invocations that differ only in the mode
    argument: an unrecognized, non-empty one against none.  When the
    override variable supplies a non-empty platform, the two runs are the
    same: same outcome, same calls, same final world and configuration.
    When it does not, the run with the argument first makes the platform
    query; if the query fails the run ends there with its error; if it
    succeeds the run goes on as the run without argument does from the
    world the query left: same outcome, same calls after the query, same
    final world. *)
Theorem unrecognized_argument {Ext} (host : Oracle Ext) (proc proc' : Process)
    (w : World Ext) (arg : string) :
  unrecognized arg →
  process_argv proc !! 2%nat = Some arg →
  process_argv proc' !! 2%nat = None →
  process_env proc' = process_env proc →
  process_cwd proc' = process_cwd proc →
  dirname proc' = dirname proc →
  let r := run host proc w in
  let query := shell host dockerInfoCmd noOptions w in
  (platform (initialConfig proc) ≠ "" → r = run host proc' w)
  ∧ (platform (initialConfig proc) = "" →
     (∃ rest, trace r.2 = EvExec dockerInfoCmd noOptions :: rest)
     ∧ (∀ error, query.1 = inl error → r.1 = Threw error
          ∧ trace r.2 = [EvExec dockerInfoCmd noOptions])
     ∧ (∀ child, query.1 = inr child → status child ≠ 0 →
          r.1 = Threw (Js.childError dockerInfoCmd (status child))
          ∧ trace r.2 = [EvExec dockerInfoCmd noOptions])
     ∧ (∀ child, query.1 = inr child → status child = 0 →
          let r' := run host proc' query.2 in
          r.1 = r'.1
          ∧ trace r.2 = EvExec dockerInfoCmd noOptions :: trace r'.2
          ∧ world r.2 = world r'.2)).
Proof.
  intros Hun Harg Harg' Henv Hcwd Hdir. cbv zeta.
  assert (Hcfg : initialConfig proc' = initialConfig proc).
  { unfold initialConfig. by rewrite Henv, Hcwd, Hdir. }
  pose proof (platformWanted_present proc arg (initialState proc w) Harg (proj1 Hun)) as Hwant.
  split.
  - intros Hp. rewrite (run_absent host proc' w Harg').
    unfold run. 
    assert (Hskip : platformWanted proc (initialState proc w) = false).
    { rewrite Hwant. change (config (initialState proc w)) with (initialConfig proc).
      by destruct (platform (initialConfig proc)). }
    rewrite (main_resolved _ _ _ _ (resolvePlatform_skip host proc _ Hskip)), Harg.
    rewrite dispatch_unrecognized by done.
    unfold initialState. by rewrite Hcfg.
  - intros Hp.
    assert (Hask : platformWanted proc (initialState proc w) = true).
    { rewrite Hwant. change (config (initialState proc w)) with (initialConfig proc).
      by rewrite Hp. }
    pose proof (resolvePlatform_query host proc _ Hask) as Hq.
    change (world (initialState proc w)) with w in Hq.
    split; [destruct (run_trace_query host proc w Hask) as (rest & Ht & _); by exists rest|].
    unfold run. split_and!.
    + intros e He. rewrite He in Hq. by rewrite (main_unresolved _ _ _ _ _ Hq).
    + intros child Hc Hst. rewrite Hc in Hq. apply Z.eqb_neq in Hst. rewrite Hst in Hq.
      by rewrite (main_unresolved _ _ _ _ _ Hq).
    + intros child Hc Hst. cbv zeta. rewrite Hc, Hst, Z.eqb_refl in Hq.
      unfold assignPlatform in Hq.
      rewrite (main_resolved _ _ _ _ Hq), Harg, dispatch_unrecognized by done.
      fold (run host proc' (shell host dockerInfoCmd noOptions w).2).
      rewrite (run_absent host proc' _ Harg').
      match goal with |- context [defaultCase host ?s1] =>
        destruct (simM_defaultCase host [EvExec dockerInfoCmd noOptions]
                    (initialState proc' (shell host dockerInfoCmd noOptions w).2) s1)
          as (Ho & Ha & Hw & Ht) end.
      { split; [|done].
        change (config (initialState proc' (shell host dockerInfoCmd noOptions w).2))
          with (initialConfig proc').
        by rewrite Hcfg. }
      by rewrite Ho, Hw, Ht.
Qed.

(** C4, witness: [--foo] against no argument, with the override set. *)
Lemma unrecognized_argument_witness :
  let proc := Scenario.processOf (Some "linux/amd64") (Some "--foo") "linux" in
  let proc' := Scenario.processOf (Some "linux/amd64") None "linux" in
  unrecognized "--foo"
  ∧ process_argv proc !! 2%nat = Some "--foo"
  ∧ process_argv proc' !! 2%nat = None
  ∧ platform (initialConfig proc) = "linux/amd64"
  ∧ run Scenario.calmHost proc Scenario.libraryWorld
    = run Scenario.calmHost proc' Scenario.libraryWorld.
Proof.
  cbv zeta.
  assert (Hun : unrecognized "--foo") by (by split_and!).
  split_and!; [exact Hun|reflexivity|reflexivity|reflexivity|].
  apply (unrecognized_argument Scenario.calmHost
           (Scenario.processOf (Some "linux/amd64") (Some "--foo") "linux")
           (Scenario.processOf (Some "linux/amd64") None "linux")
           Scenario.libraryWorld "--foo" Hun eq_refl eq_refl eq_refl eq_refl eq_refl).
  vm_compute. discriminate.
Defined.

(** C4, counterexample.  No override, no container runtime on the host.
    Without a mode argument the build runs to its end; with the
    unrecognized argument [--foo] the script runs [docker info], which
    fails, and nothing is built. *)
Lemma unrecognized_argument_queries_docker :
  let with_arg := run Scenario.dockerlessHost
                      (Scenario.processOf None (Some "--foo") "linux")
                      Scenario.libraryWorld in
  let without := run Scenario.dockerlessHost
                     (Scenario.processOf None None "linux")
                     Scenario.libraryWorld in
  unrecognized "--foo"
  ∧ exitStatus without.1 = 0
  ∧ length (trace without.2) = 11%nat
  ∧ existsb isContainerExec (trace without.2) = false
  ∧ exitStatus with_arg.1 = 1
  ∧ trace with_arg.2 = [EvExec dockerInfoCmd noOptions].
Proof. cbv zeta. split_and!; try (vm_compute; reflexivity). by split_and!. Qed.

(** C5 (as amended).  In image mode and in containerized mode, once the
    platform is resolved, the run makes one container command.  When that
    command exits with status 0 the script calls [process.exit(0)].  When
    it exits with another status, or cannot be started, [execSync] raises,
    nothing catches the error, and the Node process ends with status 1:
    non-zero, but not the status of the subprocess, which only the error
    carries. *)
Theorem container_mode_status {Ext} (host : Oracle Ext) (proc : Process)
    (w : World Ext) (s1 : State Ext) (mode cmd : string) (opts : ExecOptions) :
  process_argv proc !! 2%nat = Some mode →
  resolvePlatform host proc (initialState proc w) = (Returned tt, s1) →
  containerCommand proc (config s1) mode = Some (cmd, opts) →
  let r := run host proc w in
  let result := (shell host cmd opts (world s1)).1 in
  (∀ child, result = inr child → status child = 0 →
     r.1 = Exited 0 ∧ exitStatus r.1 = 0)
  ∧ (∀ child, result = inr child → status child ≠ 0 →
     r.1 = Threw (Js.childError cmd (status child)) ∧ exitStatus r.1 = 1
     ∧ Js.getProperty "status" (Js.childError cmd (status child))
       = Js.PNum (status child))
  ∧ (∀ error, result = inl error → r.1 = Threw error ∧ exitStatus r.1 = 1).
Proof.
  intros Harg Hres Hcmd. cbv zeta. unfold run.
  rewrite (main_resolved _ _ _ _ Hres), Harg.
  rewrite (container_mode_run _ _ _ _ _ _ Hcmd), execSync_run.
  assert (Hw : ∀ t, world (if String.eqb mode "--prebuild"
                          then mkState (config s1) (world s1) t (assigned s1)
                          else s1) = world s1) by (intros; by destruct (String.eqb _ _)).
  cbv zeta. rewrite !Hw.
  destruct (shell host cmd opts (world s1)).1 as [e|child]; simpl.
  - split_and!; [done|done|]. intros ? [= <-]. done.
  - split_and!; [| |done].
    + intros ? [= <-] H0. by rewrite H0.
    + intros ? [= <-] Hn. apply Z.eqb_neq in Hn. by rewrite Hn.
Qed.

(** C5, witness: image mode, [docker build] exits with status 125. *)
Lemma container_mode_status_witness :
  let proc := Scenario.processOf (Some "linux/arm64") (Some "--prebuild") "linux" in
  let host := Scenario.exitingHost 125 in
  let cmd := dockerBuildCmd "linux/arm64" in
  let opts := mkOpts None Inherit None in
  let r := run host proc Scenario.emptyWorld in
  process_argv proc !! 2%nat = Some "--prebuild"
  ∧ containerCommand proc (initialConfig proc) "--prebuild" = Some (cmd, opts)
  ∧ (shell host cmd opts Scenario.emptyWorld).1 = inr (mkExit 125 "")
  ∧ r.1 = Threw (Js.childError cmd 125)
  ∧ exitStatus r.1 = 1.
Proof.
  cbv zeta. split_and!; [reflexivity|reflexivity|reflexivity|..].
  all: pose proof (container_mode_status (Scenario.exitingHost 125)
    (Scenario.processOf (Some "linux/arm64") (Some "--prebuild") "linux")
    Scenario.emptyWorld
    (initialState (Scenario.processOf (Some "linux/arm64") (Some "--prebuild") "linux")
       Scenario.emptyWorld)
    "--prebuild" (dockerBuildCmd "linux/arm64") (mkOpts None Inherit None)
    eq_refl eq_refl eq_refl) as (_ & H & _).
  all: destruct (H (mkExit 125 "") eq_refl) as (H1 & H2 & _); [done|].
  - exact H1.
  - exact H2.
Defined.

(** C5, counterexample.  [docker build] exits with status 125; the
    orchestrator ends with status 1, not 125. *)
Lemma container_status_not_inherited :
  (shell (Scenario.exitingHost 125) (dockerBuildCmd "linux/arm64")
     (mkOpts None Inherit None) Scenario.emptyWorld).1 = inr (mkExit 125 "")
  ∧ exitStatus (run (Scenario.exitingHost 125)
                  (Scenario.processOf (Some "linux/arm64") (Some "--prebuild") "linux")
                  Scenario.emptyWorld).1 = 1
  ∧ exitStatus (run (Scenario.exitingHost 125)
                  (Scenario.processOf (Some "linux/arm64") (Some "--prebuild") "linux")
                  Scenario.emptyWorld).1 ≠ 125.
Proof. split_and!; vm_compute; congruence. Qed.

(** C6 (as amended).  In containerized mode the one command of the run is
    [docker run] with [--user uid:gid], where the pair is the invoking
    user's real user identifier and effective group identifier when
    [process.platform] is [linux], and 1000:1000 on every other host,
    POSIX or not. *)
Theorem container_user {Ext} (host : Oracle Ext) (proc : Process)
    (s : State Ext) :
  let r := dispatch host proc (Some "--docker") s in
  let user := containerUser proc in
  trace r.2
  = trace s ++ [EvExec (dockerRunCmd (platform (config s)) user.1 user.2
                          (wasmSrc (config s)))
                       (dockerRunOptions proc (wasmSrc (config s)))]
  ∧ dockerRunCmd (platform (config s)) user.1 user.2 (wasmSrc (config s))
    = "docker run --rm --platform=" +:+ platform (config s)
      +:+ " --user " +:+ Js.numberToString user.1
      +:+ ":" +:+ Js.numberToString user.2
      +:+ " --mount type=bind,source=" +:+ wasmSrc (config s)
      +:+ "/build,target=/home/node/llhttp/build llhttp_wasm_builder npm run wasm"
  ∧ (process_platform proc = "linux" →
     user = (process_getuid proc, process_getegid proc))
  ∧ (process_platform proc ≠ "linux" → user = (1000, 1000))
  ∧ (isPosix (process_platform proc) = false → user = (1000, 1000)).
Proof.
  cbv zeta. split_and!.
  - rewrite (container_mode_run host proc "--docker" _ _ s eq_refl), execSync_run.
    cbv zeta. simpl.
    destruct (shell host _ _ (world s)).1 as [e|child]; [done|].
    by destruct (status child =? 0).
  - unfold dockerRunCmd, joinWith. simpl. by rewrite !app_assoc_s.
  - unfold containerUser. by intros ->.
  - unfold containerUser. intros H%String.eqb_neq. by rewrite H.
  - unfold containerUser. destruct (String.eqb_spec (process_platform proc) "linux") as [->|]; done.
Qed.

(** C6, counterexample.  On macOS, a POSIX host, the invoking user is
    501:20 and the container is run as 1000:1000. *)
Lemma container_user_on_darwin :
  isPosix "darwin" = true
  ∧ process_getuid (Scenario.processOf (Some "linux/amd64") (Some "--docker") "darwin") = 501
  ∧ process_getegid (Scenario.processOf (Some "linux/amd64") (Some "--docker") "darwin") = 20
  ∧ map (λ ev, match ev with EvExec cmd _ => Str.tokens cmd | _ => [] end)
      (trace (run Scenario.calmHost
                (Scenario.processOf (Some "linux/amd64") (Some "--docker") "darwin")
                Scenario.emptyWorld).2)
    = [["docker"; "run"; "--rm"; "--platform=linux/amd64"; "--user"; "1000:1000";
        "--mount"; "type=bind,source=/repo/build,target=/home/node/llhttp/build";
        "llhttp_wasm_builder"; "npm"; "run"; "wasm"]].
Proof. split_and!; vm_compute; reflexivity. Qed.

(** C7 (as amended).  The platform query [docker info] is run exactly when
    the platform taken from the override variable is the empty string (the
    variable is unset or set to nothing) and [process.argv[2]] is a
    non-empty string.  It is then the first call of the run and is not
    repeated.  When the override holds a non-empty platform the query is
    never run, and when no mode argument is given the resolution step does
    nothing at all. *)
Theorem platform_query_condition {Ext} (host : Oracle Ext) (proc : Process)
    (w : World Ext) :
  let r := run host proc w in
  let override := process_env proc !! "WASM_PLATFORM" in
  let arg := process_argv proc !! 2%nat in
  (existsb isDockerInfo (trace r.2) = true
   ↔ (override = None ∨ override = Some "") ∧ ∃ a, arg = Some a ∧ a ≠ "")
  ∧ (existsb isDockerInfo (trace r.2) = true →
     ∃ rest, trace r.2 = EvExec dockerInfoCmd noOptions :: rest
             ∧ existsb isDockerInfo rest = false)
  ∧ ((∃ p, override = Some p ∧ p ≠ "") →
     existsb isDockerInfo (trace r.2) = false)
  ∧ (arg = None →
     existsb isDockerInfo (trace r.2) = false
     ∧ resolvePlatform host proc (initialState proc w)
       = (Returned tt, initialState proc w)).
Proof.
  cbv zeta.
  pose proof (platformWanted_initial proc w) as Hw.
  destruct (platformWanted proc (initialState proc w)) eqn:E.
  - destruct (run_trace_query host proc w E) as (rest & Ht & Hrest & _).
    assert (Hq : existsb isDockerInfo (trace (run host proc w).2) = true)
      by (by rewrite Ht).
    apply proj1 in Hw. specialize (Hw eq_refl).
    destruct Hw as [Hov (a & Ha & Hne)].
    split_and!.
    + split; [intros _; split; [done|by exists a]|done].
    + intros _. by exists rest.
    + intros (p & Hp & Hpne). destruct Hov; congruence.
    + congruence.
  - destruct (run_trace_skip host proc w E) as (Hq & _).
    split_and!.
    + split; [congruence|]. intros H. by apply Hw in H.
    + congruence.
    + done.
    + intros _. split; [done|]. by apply resolvePlatform_skip.
Qed.

(** C7, counterexample.  With the override variable set, to the empty
    string, and the mode argument [--docker], the query is run. *)
Lemma platform_query_with_empty_override :
  process_env (Scenario.processOf (Some "") (Some "--docker") "linux")
    !! "WASM_PLATFORM" = Some ""
  ∧ existsb isDockerInfo
      (trace (run Scenario.calmHost
                (Scenario.processOf (Some "") (Some "--docker") "linux")
                Scenario.emptyWorld).2) = true.
Proof. split; vm_compute; reflexivity. Qed.

(** C8 (as amended).  [wasmOut], [wasmSrc] and [emflags] keep the values
    they were constructed with throughout every run.  [platform] is
    assigned at most once after construction, by the resolution step, and
    only when the platform is wanted; the dispatcher and the four modes
    assign nothing. *)
Theorem config_assignments {Ext} (host : Oracle Ext) (proc : Process)
    (w : World Ext) :
  let r := run host proc w in
  wasmOut (config r.2) = wasmOut (initialConfig proc)
  ∧ wasmSrc (config r.2) = wasmSrc (initialConfig proc)
  ∧ emflags (config r.2) = emflags (initialConfig proc)
  ∧ (assigned r.2 = [] ∧ config r.2 = initialConfig proc
     ∨ ∃ v, assigned r.2 = [("platform", v)] ∧ platform (config r.2) = v
            ∧ platformWanted proc (initialState proc w) = true)
  ∧ (∀ arg s, config (dispatch host proc arg s).2 = config s
              ∧ assigned (dispatch host proc arg s).2 = assigned s).
Proof.
  cbv zeta. split_and!; try apply dispatch_config.
  all: destruct (platformWanted proc (initialState proc w)) eqn:E.
  all: try (destruct (run_trace_skip host proc w E) as (_ & Hc & Ha); rewrite ?Hc, ?Ha; by auto).
  all: destruct (run_trace_query host proc w E) as (rest & _ & _ & Ho & Hs & Hf & Hassigned); try done.
  destruct Hassigned as [[? ?]|(v & ? & ?)]; [by left|right; by exists v].
Qed.

(** C8, counterexample.  In containerized mode without an override, the
    [platform] field is empty when [config] is constructed and holds the
    answer of the container runtime afterwards. *)
Lemma config_platform_is_reassigned :
  platform (initialConfig (Scenario.processOf None (Some "--docker") "linux")) = ""
  ∧ platform (config (run Scenario.calmHost
                        (Scenario.processOf None (Some "--docker") "linux")
                        Scenario.emptyWorld).2) = "linux/amd64"
  ∧ assigned (run Scenario.calmHost
                (Scenario.processOf None (Some "--docker") "linux")
                Scenario.emptyWorld).2 = [("platform", "linux/amd64")].
Proof. split_and!; vm_compute; reflexivity. Qed.









(* ===================================================================== *)
(** ** Further properties of the script *)
(* ===================================================================== *)

(** X1.  [ensureDirectoryExists] first asks whether the path exists.  When
    it does, nothing else is called and the world stays as it is; a
    regular file at the path is enough for that, and there is then still
    no directory.  When the path does not exist, the directory is made
    with [recursive: true], its missing ancestors with it.  A call that
    returns leaves the path and all its ancestors existing, and a second
    call right after it is a mere check: it returns without making
    anything.  However the call ends, it changes no file and removes
    nothing, and only the path and its ancestors can come into
    existence: a call that fails may have made some of the ancestors.
    The function never ends the process. *)
Theorem ensureDirectoryExists_idempotent {Ext} (host : Oracle Ext)
    (path : string) (s : State Ext) :
  let r := ensureDirectoryExists host path s in
  let again := ensureDirectoryExists host path r.2 in
  (pathExists (fs (world s)) path = true →
     r.1 = Returned tt ∧ world r.2 = world s
     ∧ trace r.2 = trace s ++ [EvExists path])
  ∧ (is_Some (files (fs (world s)) !! path) → path ∉ dirs (fs (world s)) →
     r.1 = Returned tt ∧ path ∉ dirs (fs (world r.2)))
  ∧ (pathExists (fs (world s)) path = false →
     trace r.2 = trace s ++ [EvExists path; EvMkdir path true])
  ∧ (r.1 = Returned tt →
     pathExists (fs (world r.2)) path = true
     ∧ (pathExists (fs (world s)) path = false →
        ∀ above, above ∈ Path.ancestors path →
          pathExists (fs (world r.2)) above = true)
     ∧ again.1 = Returned tt ∧ world again.2 = world r.2
     ∧ trace again.2 = trace r.2 ++ [EvExists path])
  ∧ (files (fs (world r.2)) = files (fs (world s))
     ∧ ext (world r.2) = ext (world s)
     ∧ (∀ q, q ≠ path → q ∉ Path.ancestors path →
          pathExists (fs (world r.2)) q = pathExists (fs (world s)) q)
     ∧ (∀ q, pathExists (fs (world s)) q = true →
          pathExists (fs (world r.2)) q = true))
  ∧ (∀ error, r.1 = Threw error →
       fsFault host (CallMkdir path true) (world s) = Some error
       ∧ (∀ q, q ∉ Path.ancestors path →
            pathExists (fs (world r.2)) q = pathExists (fs (world s)) q))
  ∧ (∀ code, r.1 ≠ Exited code).
Proof.
  cbv zeta. rewrite (ensureDirectoryExists_run host path s).
  destruct (pathExists (fs (world s)) path) eqn:E.
  - split_and!; try done. intros _. simpl.
    rewrite ensureDirectoryExists_run. simpl. rewrite E. by split_and!.
  - assert (Hfile : ¬ is_Some (files (fs (world s)) !! path)).
    { intros H. unfold pathExists in E.
      by rewrite (bool_decide_eq_true_2 _ H) in E. }
    assert (Hkept : ∀ made q, pathExists (fs (world s)) q = true →
              pathExists (fs (withDirs (world s) made)) q = true).
    { intros made q. unfold pathExists. simpl.
      intros [H|H]%orb_true_iff; apply orb_true_iff; [by left|right].
      apply bool_decide_eq_true_2, elem_of_union. right.
      by apply bool_decide_eq_true_1 in H. }
    destruct (fsFault host _ _) as [e|] eqn:F.
    + split_and!; try done.
      * intros q _ Hq. apply pathExists_other.
        intros H. by apply Hq, (leftBehind_above host (world s)).
      * by apply Hkept.
      * intros e' [= <-]. split; [done|]. intros q Hq. apply pathExists_other.
        intros H. by apply Hq, (leftBehind_above host (world s)).
    + split_and!; try done.
      * intros _. cbn [fst snd world trace].
        rewrite ensureDirectoryExists_run. cbn [fst snd world trace].
        rewrite pathExists_created. split_and!; try done.
        intros _ above Ha. apply pathExists_made, elem_of_app. by left.
      * intros q Hq Ha. apply pathExists_other.
        intros [H|H%list_elem_of_singleton]%elem_of_app; done.
      * by apply Hkept.
Qed.

(** X2.  The setup mode calls [existsSync] on the directory [build] of the
    source root and, when the answer is no, [mkdirSync] on it, and nothing
    else.  It never returns to the end of the script: it ends by
    [process.exit(0)], or by throwing again what [mkdirSync] raised, and it
    throws exactly when that value is an object with a [code] property
    other than the string [EEXIST].  It writes no file; when the directory
    is there it leaves the world as it is; when the host does not fail it
    exits with code 0, the directory exists afterwards, and running the
    mode once more exits with code 0 and changes nothing. *)
Theorem setup_mode_effect {Ext} (host : Oracle Ext) (proc : Process)
    (s : State Ext) :
  let dir := Path.join [wasmSrc (config s); "build"] in
  let r := dispatch host proc (Some "--setup") s in
  let again := dispatch host proc (Some "--setup") r.2 in
  (trace r.2 = trace s ++ [EvExists dir]
   ∨ trace r.2 = trace s ++ [EvExists dir; EvMkdir dir true])
  ∧ (r.1 = Exited 0 ∨ ∃ error, r.1 = Threw error)
  ∧ (∀ error, r.1 = Threw error ↔
       pathExists (fs (world s)) dir = false
       ∧ fsFault host (CallMkdir dir true) (world s) = Some error
       ∧ isErrorWithCode error = true
       ∧ Js.getProperty "code" error ≠ Js.PStr "EEXIST")
  ∧ (files (fs (world r.2)) = files (fs (world s))
     ∧ ext (world r.2) = ext (world s))
  ∧ (pathExists (fs (world s)) dir = true →
     r.1 = Exited 0 ∧ world r.2 = world s)
  ∧ (fsFault host (CallMkdir dir true) (world s) = None →
     r.1 = Exited 0
     ∧ pathExists (fs (world r.2)) dir = true
     ∧ again.1 = Exited 0 ∧ world again.2 = world r.2).
Proof.
  cbv zeta. rewrite !dispatch_setup, (setupCase_ensure host s).
  rewrite (ensureDirectoryExists_run host _ s).
  destruct (pathExists (fs (world s)) _) eqn:E.
  - split_and!; try done; try by auto.
    + split; [done|]. by intros (? & _).
    + intros _. simpl. rewrite setupCase_ensure, ensureDirectoryExists_run.
      simpl. by rewrite E.
  - destruct (fsFault host _ _) as [e|] eqn:F.
    + rewrite setupHandler_run. simpl.
      destruct (isErrorWithCode e) eqn:Hc; simpl.
      * destruct (Js.strictNeqString _ _) eqn:Hn.
        -- apply strictNeqString_true in Hn.
           split_and!; try done; try by eauto.
           intros e'. split; [by intros [= <-]|]. by intros (_ & [= <-] & _).
        -- apply strictNeqString_false in Hn.
           split_and!; try done; try by eauto.
           intros e'. split; [done|]. by intros (_ & [= <-] & _ & ?).
      * split_and!; try done; try by eauto.
        intros e'. split; [done|]. intros (_ & [= <-] & ? & _). congruence.
    + cbn [fst snd world trace config]. split_and!; try done; try by eauto.
      * intros e'. split; [done|]. by intros (_ & ? & _).
      * intros _. rewrite setupCase_ensure, ensureDirectoryExists_run.
        cbn [fst snd world trace config].
        rewrite pathExists_created. by split_and!.
Qed.

(** X3.  The local pipeline makes its calls in one fixed order: the check
    of the output directory, its creation when it is missing,
    [npm run build] in the source root, the compiler command, the six
    copies and the descriptor.  The calls of every run are an initial
    stretch of that list, and a run that returns made all of them.  The
    pipeline stops at the first step that fails: when the directory cannot
    be made no command is run, when [npm run build] fails the compiler is
    not run, and when the compiler fails nothing is copied.  It never calls
    [process.exit]. *)
Theorem local_pipeline_order {Ext} (host : Oracle Ext) (s : State Ext) :
  let c := config s in
  let r := defaultCase host s in
  let steps := pipelineEvents c (pathExists (fs (world s)) (wasmOut c)) in
  let generate := mkOpts (Some (wasmSrc c)) Inherit None in
  let plain := mkOpts None Inherit None in
  let made := ensureDirectoryExists host (wasmOut c) s in
  let generated := execSync host "npm run build" generate made.2 in
  let compiled := execSync host (clangCmd c) plain generated.2 in
  (∃ n, trace r.2 = trace s ++ take n steps)
  ∧ ((∃ error, r.1 = Threw error)
     ∨ r.1 = Returned tt ∧ trace r.2 = trace s ++ steps)
  ∧ (∀ error, made.1 = Threw error →
       r.1 = Threw error
       ∧ trace r.2 = trace s ++ [EvExists (wasmOut c); EvMkdir (wasmOut c) true])
  ∧ (∀ error, made.1 = Returned tt → generated.1 = Threw error →
       r.1 = Threw error
       ∧ trace r.2 = trace made.2 ++ [EvExec "npm run build" generate])
  ∧ (∀ error, made.1 = Returned tt → (∃ out, generated.1 = Returned out) →
       compiled.1 = Threw error →
       r.1 = Threw error
       ∧ trace r.2 = trace made.2 ++ [EvExec "npm run build" generate;
                                       EvExec (clangCmd c) plain]).
Proof.
  cbv zeta. destruct (defaultCase_calls host s) as [Hcalls Hend].
  cbv zeta in Hcalls, Hend. split; [done|]. split; [done|]. clear Hcalls Hend.
  rewrite defaultCase_run. set (c := config s).
  destruct (ensureDirectoryExists_cases host (wasmOut c) s)
    as [[Ho Hmade]|[[e Ho] [Hfail Hmk]]];
    cbv zeta in *; destruct (ensureDirectoryExists host (wasmOut c) s) as [o s1];
    simpl in *; subst o; simpl.
  2:{ by split_and!. }
  split_and!.
  - done.
  - intros e _.
    destruct (execSync host "npm run build" _ s1) as [[out|e'|x] s2] eqn:E;
      simpl; try done.
    intros [= <-]. split; [done|].
    revert E. rewrite execSync_run. cbv zeta.
    destruct (shell host "npm run build" _ (world s1)).1 as [e''|child];
      [by intros [= _ <-]|].
    destruct (status child =? 0); [done|by intros [= _ <-]].
  - intros e _ [out Hout].
    pose proof (execSync_run host "npm run build"
                  (mkOpts (Some (wasmSrc c)) Inherit None) s1) as E.
    cbv zeta in E.
    destruct (execSync host "npm run build" _ s1) as [[out'|e'|x] s2];
      simpl in *; try done.
    assert (Ht : trace s2 = trace s1 ++ [EvExec "npm run build"
                   (mkOpts (Some (wasmSrc c)) Inherit None)]).
    { destruct (shell host "npm run build" _ (world s1)).1 as [e''|child];
        [done|]. destruct (status child =? 0); by inversion E. }
    clear E.
    pose proof (execSync_run host (clangCmd c) (mkOpts None Inherit None) s2) as E.
    cbv zeta in E.
    destruct (execSync host (clangCmd c) _ s2) as [[out''|e'|x] s3];
      simpl in *; try done.
    intros [= <-]. split; [done|].
    destruct (shell host (clangCmd c) _ (world s2)).1 as [e''|child];
      [inversion E; subst; simpl; rewrite Ht; by rewrite <- List.app_assoc|].
    destruct (status child =? 0); [done|].
    inversion E; subst; simpl; rewrite Ht; by rewrite <- List.app_assoc.
Qed.

(** X4.  The image mode makes two calls: it prints the line [> ] followed
    by the image command and an empty line, then runs that very command,
    with inherited streams and nothing else set.  The containerized mode
    makes one call, the [docker run] command, with the source root as
    working directory, inherited streams, and the environment of the
    process in which [DOCKER_BUILDKIT] is [1], whatever it held before,
    and every other variable is as it was.  Neither mode touches the file
    system itself: the world after the run is the one the command left.
    Neither returns to the end of the script. *)
Theorem container_modes_calls {Ext} (host : Oracle Ext) (proc : Process)
    (s : State Ext) :
  let c := config s in
  let image := dockerBuildCmd (platform c) in
  let plain := mkOpts None Inherit None in
  let user := containerUser proc in
  let container := dockerRunCmd (platform c) user.1 user.2 (wasmSrc c) in
  let rb := dispatch host proc (Some "--prebuild") s in
  let rd := dispatch host proc (Some "--docker") s in
  (trace rb.2 = trace s ++ [EvLog ("> " +:+ image +:+ nl); EvExec image plain]
   ∧ world rb.2 = (shell host image plain (world s)).2
   ∧ (rb.1 = Exited 0 ∨ ∃ error, rb.1 = Threw error))
  ∧ (∃ opts env,
       trace rd.2 = trace s ++ [EvExec container opts]
       ∧ world rd.2 = (shell host container opts (world s)).2
       ∧ optCwd opts = Some (wasmSrc c) ∧ optStdio opts = Inherit
       ∧ optEnv opts = Some env
       ∧ env !! "DOCKER_BUILDKIT" = Some "1"
       ∧ (∀ name, name ≠ "DOCKER_BUILDKIT" →
            env !! name = process_env proc !! name))
  ∧ (rd.1 = Exited 0 ∨ ∃ error, rd.1 = Threw error).
Proof.
  cbv zeta. split_and!.
  - by apply (container_mode_end host proc "--prebuild" _ _ s eq_refl).
  - by apply (container_mode_end host proc "--prebuild" _ _ s eq_refl).
  - by apply (container_mode_end host proc "--prebuild" _ _ s eq_refl).
  - destruct (container_mode_end host proc "--docker" _ _ s eq_refl)
      as (Ht & Hw & _).
    eexists _, _. split_and!; [exact Ht|exact Hw|done|done|done| |].
    + apply lookup_insert_eq.
    + intros name Hn. by apply lookup_insert_ne.
  - by apply (container_mode_end host proc "--docker" _ _ s eq_refl).
Qed.

(** X5.  Every run of the script ends in one of three ways.  It reaches
    the end of the module, which only the local pipeline does, and Node
    exits with status 0.  It calls [process.exit], which only the three
    named modes do, and always with code 0.  Or an exception leaves the
    script uncaught, and Node exits with status 1.  So the exit status is
    0 or 1, and it is 1 exactly when something was thrown. *)
Theorem run_exit_status {Ext} (host : Oracle Ext) (proc : Process)
    (w : World Ext) :
  let r := run host proc w in
  let arg := process_argv proc !! 2%nat in
  let named := [Some "--prebuild"; Some "--setup"; Some "--docker"] in
  (r.1 = Returned tt ∨ r.1 = Exited 0 ∨ ∃ error, r.1 = Threw error)
  ∧ (exitStatus r.1 = 0 ∨ exitStatus r.1 = 1)
  ∧ (exitStatus r.1 = 1 ↔ ∃ error, r.1 = Threw error)
  ∧ (∀ code, r.1 = Exited code → code = 0 ∧ arg ∈ named)
  ∧ (r.1 = Returned tt → arg ∉ named).
Proof.
  cbv zeta. unfold run.
  assert (H : ∀ o : Outcome unit,
    (o = Returned tt ∧ process_argv proc !! 2%nat
                       ∉ [Some "--prebuild"; Some "--setup"; Some "--docker"])
    ∨ (o = Exited 0 ∧ process_argv proc !! 2%nat
                      ∈ [Some "--prebuild"; Some "--setup"; Some "--docker"])
    ∨ (∃ e, o = Threw e) →
    (o = Returned tt ∨ o = Exited 0 ∨ ∃ error, o = Threw error)
    ∧ (exitStatus o = 0 ∨ exitStatus o = 1)
    ∧ (exitStatus o = 1 ↔ ∃ error, o = Threw error)
    ∧ (∀ code, o = Exited code → code = 0
         ∧ process_argv proc !! 2%nat
           ∈ [Some "--prebuild"; Some "--setup"; Some "--docker"])
    ∧ (o = Returned tt → process_argv proc !! 2%nat
                         ∉ [Some "--prebuild"; Some "--setup"; Some "--docker"])).
  { intros o [[-> Hn]|[[-> Hn]|[e ->]]]; simpl; split_and!; eauto;
      try done; try (split; [done|by intros [? ?]]).
    - by intros code [= <-].
    - split; [by eexists|done]. }
  apply H. clear H.
  destruct (resolvePlatform host proc (initialState proc w)) as [o s1] eqn:E.
  destruct (resolvePlatform_end host proc (initialState proc w)) as [Hr|[e Hr]];
    rewrite E in Hr; simpl in Hr; subst o.
  2:{ rewrite (main_unresolved _ _ _ _ _ E). right. right. by eexists. }
  rewrite (main_resolved _ _ _ _ E).
  destruct (dispatch_end host proc (process_argv proc !! 2%nat) s1) as [Hin Hout].
  cbv zeta in Hin, Hout.
  destruct (decide (process_argv proc !! 2%nat
                    ∈ [Some "--prebuild"; Some "--setup"; Some "--docker"]))
    as [Hd|Hd].
  - destruct (Hin Hd) as [?|?]; auto.
  - destruct (Hout Hd) as [?|?]; auto.
Qed.

(** X6.  The platform the image mode and the containerized mode hand to
    the container runtime.  When the override variable holds a non-empty
    value, that value is used and the container command is the run's only
    command.  When it does not, the run first asks the runtime; for an
    answer of ASCII characters, as the runtime gives, the platform is
    then the answer without the white space around it, and the container
    command is built from it, so an answer that is all white space gives
    a command with an empty platform.  When the query fails the run ends
    there: no container command is run with a platform that was not
    resolved. *)
Theorem container_platform {Ext} (host : Oracle Ext) (proc : Process)
    (w : World Ext) (mode : string) :
  process_argv proc !! 2%nat = Some mode →
  mode = "--prebuild" ∨ mode = "--docker" →
  let c := initialConfig proc in
  let r := run host proc w in
  let query := shell host dockerInfoCmd noOptions w in
  let log := λ cmd, if String.eqb mode "--prebuild"
                    then [EvLog ("> " +:+ cmd +:+ nl)] else [] in
  (platform c ≠ "" →
     ∃ cmd opts, containerCommand proc c mode = Some (cmd, opts)
                 ∧ trace r.2 = log cmd ++ [EvExec cmd opts])
  ∧ (platform c = "" → ∀ child, query.1 = inr child → status child = 0 →
     isAscii (stdout child) = true →
     let p := trim (stdout child) in
     (∃ cmd opts,
        containerCommand proc (mkConfig p (wasmOut c) (wasmSrc c) (emflags c)) mode
        = Some (cmd, opts)
        ∧ trace r.2 = EvExec dockerInfoCmd noOptions :: log cmd ++ [EvExec cmd opts])
     ∧ platform (config r.2) = p
     ∧ headWhite p = false ∧ lastWhite p = false
     ∧ (noneChar (λ ch, negb (isWhite ch)) (stdout child) = true → p = ""))
  ∧ (platform c = "" →
     (∀ error, query.1 = inl error →
        r.1 = Threw error ∧ trace r.2 = [EvExec dockerInfoCmd noOptions])
     ∧ (∀ child, query.1 = inr child → status child ≠ 0 →
        r.1 = Threw (Js.childError dockerInfoCmd (status child))
        ∧ trace r.2 = [EvExec dockerInfoCmd noOptions])).
Proof.
  intros Harg Hmode. cbv zeta. unfold run.
  assert (Hcmd : ∀ cfg, ∃ cmd opts, containerCommand proc cfg mode = Some (cmd, opts)).
  { intros cfg. destruct Hmode as [->| ->]; by eexists _, _. }
  assert (Hwanted : platformWanted proc (initialState proc w)
                    = negb (truthy (platform (initialConfig proc)))).
  { unfold platformWanted. rewrite Harg. simpl.
    destruct Hmode as [->| ->]; simpl; apply andb_true_r. }
  split_and!.
  - intros Hp.
    assert (E : platformWanted proc (initialState proc w) = false).
    { rewrite Hwanted. by destruct (platform (initialConfig proc)). }
    rewrite (main_resolved _ _ _ _ (resolvePlatform_skip host _ _ E)), Harg.
    destruct (Hcmd (initialConfig proc)) as (cmd & opts & Hc).
    exists cmd, opts. split; [done|].
    by destruct (container_mode_end host proc mode cmd opts
                   (initialState proc w) Hc) as (-> & _).
  - intros Hp child Hq Hst _.
    assert (E : platformWanted proc (initialState proc w) = true).
    { rewrite Hwanted. by rewrite Hp. }
    pose proof (resolvePlatform_query host _ _ E) as Hr.
    change (world (initialState proc w)) with w in Hr.
    rewrite Hq in Hr. apply Z.eqb_eq in Hst. rewrite Hst in Hr.
    rewrite (main_resolved _ _ _ _ Hr), Harg.
    unfold assignPlatform. simpl.
    destruct (Hcmd (mkConfig (trim (stdout child)) (wasmOut (initialConfig proc))
                      (wasmSrc (initialConfig proc)) (emflags (initialConfig proc))))
      as (cmd & opts & Hc).
    match goal with |- context [dispatch host proc (Some mode) ?s1] =>
      destruct (container_mode_end host proc mode cmd opts s1 Hc) as (Ht & _);
      pose proof (dispatch_config host proc (Some mode) s1) as [Hcfg _] end.
    cbv zeta in Ht. simpl in Ht, Hcfg.
    split_and!; try apply trim_ends.
    + exists cmd, opts. by rewrite Ht.
    + by rewrite Hcfg.
  - intros Hp.
    assert (E : platformWanted proc (initialState proc w) = true).
    { rewrite Hwanted. by rewrite Hp. }
    pose proof (resolvePlatform_query host _ _ E) as Hr.
    change (world (initialState proc w)) with w in Hr.
    split.
    + intros e Hq. rewrite Hq in Hr. by rewrite (main_unresolved _ _ _ _ _ Hr).
    + intros child Hq Hst. rewrite Hq in Hr.
      apply Z.eqb_neq in Hst. rewrite Hst in Hr.
      by rewrite (main_unresolved _ _ _ _ _ Hr).
Qed.

(** X6, witness: image mode without an override; the runtime answers
    [linux/amd64] followed by a line feed. *)
Lemma container_platform_witness :
  let proc := Scenario.processOf None (Some "--prebuild") "linux" in
  let r := run Scenario.calmHost proc Scenario.emptyWorld in
  process_argv proc !! 2%nat = Some "--prebuild"
  ∧ platform (initialConfig proc) = ""
  ∧ (shell Scenario.calmHost dockerInfoCmd noOptions Scenario.emptyWorld).1
    = inr (mkExit 0 ("linux/amd64" +:+ nl))
  ∧ isAscii ("linux/amd64" +:+ nl) = true
  ∧ platform (config r.2) = trim ("linux/amd64" +:+ nl)
  ∧ trim ("linux/amd64" +:+ nl) = "linux/amd64".
Proof.
  cbv zeta. split_and!; [reflexivity..| |reflexivity].
  exact (proj1 (proj2 (proj1 (proj2
    (container_platform Scenario.calmHost
       (Scenario.processOf None (Some "--prebuild") "linux")
       Scenario.emptyWorld "--prebuild" eq_refl (or_introl eq_refl)))
    eq_refl (mkExit 0 ("linux/amd64" +:+ nl)) eq_refl eq_refl eq_refl))).
Defined.

(** X7.  The directories of the configuration, whatever the place of the
    script and the working directory.  The output directory is the
    directory [wasm] inside the directory [build] of the source root.
    That [build] directory is the one the setup mode makes, and it is the
    directory the containerized mode mounts into the container: the mount
    source, written as the source root followed by [/build], names the
    same directory.  Both configured paths are absolute whenever the
    working directory is, and neither is ever the empty string. *)
Theorem config_directories (proc : Process) :
  let c := initialConfig proc in
  let made := Path.join [wasmSrc c; "build"] in
  let mounted := wasmSrc c +:+ "/build" in
  Path.childOf made (wasmSrc c) "build"
  ∧ Path.childOf (wasmOut c) made "wasm"
  ∧ (Path.components mounted = Path.components made
     ∧ Path.isAbsolute mounted = Path.isAbsolute made)
  ∧ (Path.isAbsolute (process_cwd proc) = true →
     Path.isAbsolute (wasmSrc c) = true ∧ Path.isAbsolute (wasmOut c) = true)
  ∧ (wasmSrc c ≠ "" ∧ wasmOut c ≠ "").
Proof.
  cbv zeta.
  destruct (config_paths proc) as (Hc & Ha & Hs & Ho & Habs). cbv zeta in *.
  destruct (join_dir (wasmSrc (initialConfig proc)) "build" eq_refl) as [Hjc Hja].
  destruct (components_snoc (wasmSrc (initialConfig proc)) "build" Hs eq_refl)
    as [Hmc Hma].
  split; [done|]. split.
  { split; [|congruence]. rewrite Hc, Hjc. by rewrite <- List.app_assoc. }
  split; [split; [exact (eq_trans Hmc (eq_sym Hjc))|exact (eq_trans Hma (eq_sym Hja))]|].
  split; [|done].
  intros H. split; [by apply Habs|]. rewrite Ha. by apply Habs.
Qed.

(** X8.  What [copyAssets] leaves alone, however it ends.  It makes and
    removes no directory.  It removes no file.  It changes no file other
    than its seven destinations: the six copies in the output directory
    and the descriptor.  With the directories of the configuration, the
    sources are not among the destinations, so the six library files keep
    their contents. *)
Theorem copyAssets_frame {Ext} (host : Oracle Ext) (config : BuildConfig)
    (s : State Ext) :
  let r := copyAssets host config s in
  let descriptor := Path.join [wasmOut config; "package.json"] in
  let destinations := descriptor :: (assetCopies config).*2 in
  let source := λ name, Path.join [wasmSrc config; "lib"; "llhttp"; name] in
  length destinations = 7%nat
  ∧ dirs (fs (world r.2)) = dirs (fs (world s))
  ∧ ext (world r.2) = ext (world s)
  ∧ (∀ path, path ∉ destinations →
       files (fs (world r.2)) !! path = files (fs (world s)) !! path)
  ∧ (∀ path, is_Some (files (fs (world s)) !! path) →
       is_Some (files (fs (world r.2)) !! path))
  ∧ (∀ proc name,
       wasmSrc config = wasmSrc (initialConfig proc) →
       wasmOut config = wasmOut (initialConfig proc) →
       name ∈ assetNames →
       files (fs (world r.2)) !! source name = files (fs (world s)) !! source name).
Proof.
  cbv zeta. split; [done|].
  destruct (copyAll_untouched host (assetCopies config)
              (writeFileSync host (Path.join [wasmOut config; "package.json"])
                 packageJson) s
              (λ path, path ∈ Path.join [wasmOut config; "package.json"]
                              :: (assetCopies config).*2))
    as (Hd & He & Hf & Hs).
  - intros q Hq. right. apply list_elem_of_fmap. by exists q.
  - intros s0. rewrite writeFileSync_run.
    destruct (fsFault host _ _); [by split_and!|]. simpl.
    split_and!; [done..| |].
    + intros path Hp. apply lookup_insert_ne. intros <-. apply Hp. by left.
    + intros path Hp.
      destruct (decide (Path.join [wasmOut config; "package.json"] = path)) as [<-|Hne].
      * by rewrite lookup_insert_eq.
      * by rewrite lookup_insert_ne.
  - rewrite copyAssets_copyAll. split_and!; try done.
    intros proc name Hsrc Hout Hname. apply Hf.
    by apply (sources_not_written proc).
Qed.

(** X9.  The command the shell runs for the compiler, when the source
    root and the output directory hold only characters that the shell
    takes literally and the flag string is made of such characters,
    patterns and blanks.  The program is [clang], and its arguments are,
    in order: the fourteen words of the fixed options, the fields of the
    flag string, the thirteen linker options written out in the command,
    the two source patterns, the include option, [-o] and the output
    file.  The paths are put into the command without quotes; under the
    condition each is one field.  The two source patterns are patterns,
    which the shell replaces by the files that match them; the include
    option and the output file are not.  The flag string of the script
    gives, field for field, its list of twenty flags, none a pattern. *)
Theorem clangCmd_argv (config : BuildConfig) (flags : list string) :
  Sh.literal (wasmSrc config) = true →
  Sh.literal (wasmOut config) = true →
  Sh.fields (emflags config) = Some flags →
  let generated := Path.join [wasmSrc config; "build"; "c"] +:+ "/*.c" in
  let native := Path.join [wasmSrc config; "src"; "native"] +:+ "/*.c" in
  let include := "-I" +:+ Path.join [wasmSrc config; "build"] in
  let target := Path.join [wasmOut config; "llhttp.wasm"] in
  let fixed :=
    ["--sysroot=/usr/share/wasi-sysroot"; "-target";
     "wasm32-unknown-wasi"; "-Ofast"; "-fno-exceptions"; "-fvisibility=hidden";
     "-mexec-model=reactor"; "-msimd128"; "-mbulk-memory"; "-mmultivalue";
     "-mnontrapping-fptoint"; "-msign-ext"; "-mreference-types"; "-mtail-call"] in
  let explicit :=
    ["-Wl,-error-limit=0"; "-Wl,-O3"; "-Wl,--lto-O3"; "-Wl,--allow-undefined";
     "-Wl,--export-dynamic"; "-Wl,--export-table"; "-Wl,--export=malloc";
     "-Wl,--export=free"; "-Wl,--no-entry"; "-Wl,--import-memory";
     "-Wl,--max-memory=16777216"; "-Wl,--global-base=4194304";
     "-Wl,--stack-first"] in
  Sh.command (clangCmd config)
  = Some ("clang", fixed ++ flags ++ explicit
                   ++ [generated; native; include; "-o"; target])
  ∧ (Sh.isPattern generated = true ∧ Sh.isPattern native = true
     ∧ Sh.isPattern include = false ∧ Sh.isPattern target = false)
  ∧ (∀ proc, emflags config = emflags (initialConfig proc) →
       flags = emflagsList ∧ length flags = 20%nat
       ∧ Forall (λ flag, Sh.isPattern flag = false) flags).
Proof.
  intros Hs Ho Hf. cbv zeta. split_and!.
  - unfold Sh.command. rewrite (fields_clangCmd config flags Hs Ho Hf).
    reflexivity.
  - apply pattern_suffix.
  - apply pattern_suffix.
  - unfold Sh.isPattern. rewrite noneChar_app.
    apply negb_false_iff, andb_true_iff. split; [done|].
    apply negb_false_iff. apply (glob_join [wasmSrc config; "build"]).
    by repeat constructor.
  - apply glob_join. by repeat constructor.
  - intros proc He. rewrite He in Hf.
    assert (flags = emflagsList) as ->.
    { vm_compute in Hf. by inversion Hf. }
    split; [done|]. split; [done|].
    repeat apply Forall_cons_2; try apply Forall_nil_2; by vm_compute.
Qed.

(** X9, witness: the command for a checkout at [/repo]. *)
Lemma clangCmd_argv_witness :
  let config := initialConfig (Scenario.processOf None None "linux") in
  Sh.literal (wasmSrc config) = true
  ∧ Sh.literal (wasmOut config) = true
  ∧ Sh.fields (emflags config) = Some emflagsList
  ∧ option_map (λ p, drop 47 p.2) (Sh.command (clangCmd config))
    = Some ["/repo/build/c/*.c"; "/repo/src/native/*.c"; "-I/repo/build"; "-o";
            "/repo/build/wasm/llhttp.wasm"].
Proof.
  cbv zeta. split; [reflexivity|]. split; [reflexivity|].
  split; [vm_compute; reflexivity|].
  rewrite (proj1 (clangCmd_argv
             (initialConfig (Scenario.processOf None None "linux"))
             emflagsList eq_refl eq_refl ltac:(vm_compute; reflexivity))).
  vm_compute. reflexivity.
Defined.

(** X10.  The setup mode does not use the platform, yet without an
    override it asks the container runtime for it first.  When that
    query fails the run ends with its error, and the directory is neither
    looked for nor made.  When the query succeeds, the run goes on exactly
    as the setup mode does when an override is given, from the world the
    query left: same outcome, same calls after the query, same final
    world.  With an override the run makes one or two calls, on the
    directory [build] of the source root, and none to the runtime. *)
Theorem setup_asks_runtime {Ext} (host : Oracle Ext) (proc proc' : Process)
    (w : World Ext) :
  process_argv proc !! 2%nat = Some "--setup" →
  process_argv proc' !! 2%nat = Some "--setup" →
  platform (initialConfig proc) = "" →
  platform (initialConfig proc') ≠ "" →
  process_cwd proc' = process_cwd proc →
  dirname proc' = dirname proc →
  let r := run host proc w in
  let query := shell host dockerInfoCmd noOptions w in
  let dir := Path.join [wasmSrc (initialConfig proc'); "build"] in
  (∀ error, query.1 = inl error →
     r.1 = Threw error ∧ trace r.2 = [EvExec dockerInfoCmd noOptions]
     ∧ world r.2 = query.2)
  ∧ (∀ child, query.1 = inr child → status child ≠ 0 →
     r.1 = Threw (Js.childError dockerInfoCmd (status child))
     ∧ trace r.2 = [EvExec dockerInfoCmd noOptions]
     ∧ world r.2 = query.2)
  ∧ (∀ child, query.1 = inr child → status child = 0 →
     let r' := run host proc' query.2 in
     r.1 = r'.1
     ∧ trace r.2 = EvExec dockerInfoCmd noOptions :: trace r'.2
     ∧ world r.2 = world r'.2)
  ∧ (∀ w', trace (run host proc' w').2 = [EvExists dir]
           ∨ trace (run host proc' w').2 = [EvExists dir; EvMkdir dir true]).
Proof.
  intros Harg Harg' Hp Hp' Hcwd Hdir. cbv zeta.
  assert (Hskip : ∀ w', run host proc' w' = setupCase host (initialState proc' w')).
  { intros w'. unfold run.
    assert (E : platformWanted proc' (initialState proc' w') = false).
    { rewrite (platformWanted_present proc' "--setup" _ Harg') by done.
      change (config (initialState proc' w')) with (initialConfig proc').
      by destruct (platform (initialConfig proc')). }
    rewrite (main_resolved _ _ _ _ (resolvePlatform_skip host proc' _ E)).
    by rewrite Harg'. }
  assert (Hask : platformWanted proc (initialState proc w) = true).
  { rewrite (platformWanted_present proc "--setup" _ Harg) by done.
    change (config (initialState proc w)) with (initialConfig proc).
    by rewrite Hp. }
  pose proof (resolvePlatform_query host proc _ Hask) as Hq.
  change (world (initialState proc w)) with w in Hq.
  split_and!.
  - intros e He. rewrite He in Hq. unfold run.
    by rewrite (main_unresolved _ _ _ _ _ Hq).
  - intros child Hc Hst. rewrite Hc in Hq. apply Z.eqb_neq in Hst.
    rewrite Hst in Hq. unfold run. by rewrite (main_unresolved _ _ _ _ _ Hq).
  - intros child Hc Hst. rewrite Hc, Hst, Z.eqb_refl in Hq.
    unfold assignPlatform in Hq. rewrite Hskip. unfold run.
    rewrite (main_resolved _ _ _ _ Hq), Harg, dispatch_setup.
    match goal with |- (setupCase host ?s1).1 = _ ∧ _ =>
      destruct (simM_setupCase host [EvExec dockerInfoCmd noOptions]
                  (initialState proc' (shell host dockerInfoCmd noOptions w).2) s1)
        as (Ho & Ha & Hw & Ht) end.
    { split; [|done]. unfold alike, afterQuery, initialState, initialConfig.
      cbn [wasmOut wasmSrc emflags config]. rewrite Hcwd, Hdir. by split_and!. }
    by rewrite Ho, Hw, Ht.
  - intros w'. rewrite Hskip.
    apply (setupCase_trace host (initialState proc' w')).
Qed.

(** X10, witness: a host without a container runtime.  With an override
    the setup mode makes the directory; without one it fails at the
    query. *)
Lemma setup_asks_runtime_witness :
  let proc := Scenario.processOf None (Some "--setup") "linux" in
  let proc' := Scenario.processOf (Some "linux/amd64") (Some "--setup") "linux" in
  let r := run Scenario.dockerlessHost proc Scenario.emptyWorld in
  let r' := run Scenario.dockerlessHost proc' Scenario.emptyWorld in
  process_argv proc !! 2%nat = Some "--setup"
  ∧ process_argv proc' !! 2%nat = Some "--setup"
  ∧ platform (initialConfig proc) = ""
  ∧ platform (initialConfig proc') = "linux/amd64"
  ∧ (r.1 = Threw (Js.childError dockerInfoCmd 127)
     ∧ trace r.2 = [EvExec dockerInfoCmd noOptions]
     ∧ world r.2 = Scenario.emptyWorld)
  ∧ r'.1 = Exited 0
  ∧ trace r'.2 = [EvExists "/repo/build"; EvMkdir "/repo/build" true].
Proof.
  cbv zeta. split_and!; [reflexivity..| | |reflexivity|reflexivity];
    apply (proj1 (proj2
      (setup_asks_runtime Scenario.dockerlessHost
         (Scenario.processOf None (Some "--setup") "linux")
         (Scenario.processOf (Some "linux/amd64") (Some "--setup") "linux")
         Scenario.emptyWorld eq_refl eq_refl eq_refl ltac:(done) eq_refl eq_refl))
      (mkExit 127 "") eq_refl ltac:(done)).
Defined.

